(** * LookingGlass client audio engine (client/src/audio.c)

    A shallow embedding of the playback clock-recovery pipeline and of the
    record surface of [audio.c], and the proofs of the properties stated
    about it.

    Conventions of the embedding:
    - C [int] and [int64_t] values are integers in [Z]; every arithmetic
      operation of the source is followed by the two's-complement wrap of
      its C type ([i32], [i64]).
    - C [double] is the kernel's binary64 type [float]; the operations
      [+ - * /], [fabs] and the comparisons are the IEEE ones of
      [PrimFloat].  [llrint], [round] and the integer/double conversions
      are written out over [SpecFloat]'s mantissa/exponent view.
    - The file-scope singleton [audio] is the record [AudioState]; the
      functions of the source are state transformers in the monad [M],
      which also carries the log of the calls made to the collaborators
      that live outside of [audio.c] (backend callbacks, ring buffers,
      allocator, resampler, graph registry).
    - Values the collaborators return ([nanotime], [malloc], [src_new],
      [src_process], the backend's [setup] and [latency]) are arguments
      of the function that asks for them. *)

From Stdlib Require Import ZArith Floats Lia List Bool Relations RelationClasses.
Import ListNotations.

#[local] Set Warnings "-inexact-float".
#[local] Open Scope Z_scope.

(** ** Machine integers *)

(** Two's-complement reduction of [z] to a signed integer of [bits] bits. *)
Definition wrap (bits : Z) (z : Z) : Z :=
  (z + 2 ^ (bits - 1)) mod 2 ^ bits - 2 ^ (bits - 1).

Definition i32 (z : Z) : Z := wrap 32 z.
Definition i64 (z : Z) : Z := wrap 64 z.

Definition INT32_MIN : Z := - 2 ^ 31.
Definition INT32_MAX : Z := 2 ^ 31 - 1.
Definition INT64_MIN : Z := - 2 ^ 63.
Definition INT64_MAX : Z := 2 ^ 63 - 1.

Definition add32 (a b : Z) : Z := i32 (a + b).
Definition sub32 (a b : Z) : Z := i32 (a - b).
Definition mul32 (a b : Z) : Z := i32 (a * b).
Definition add64 (a b : Z) : Z := i64 (a + b).
Definition sub64 (a b : Z) : Z := i64 (a - b).

(** ** Doubles *)

(** [(double) z]: the binary64 value nearest to the integer [z]. *)
Definition Z2D (z : Z) : float :=
  SF2Prim (binary_normalize prec emax z 0 false).

(** The integer nearest to [m * 2^e]; a tie goes to the even neighbour
    when [half_even] is set and away from zero otherwise. *)
Definition round_mantissa (half_even : bool) (m : positive) (e : Z) : Z :=
  if 0 <=? e then Z.pos m * 2 ^ e
  else
    let d := 2 ^ (- e) in
    let q := Z.pos m / d in
    let r := Z.pos m mod d in
    if 2 * r <? d then q
    else if d <? 2 * r then q + 1
    else if half_even then (if Z.even q then q else q + 1)
    else q + 1.

(** The integer a rounding function of [math.h] yields on a finite
    double; [None] on an infinity or a NaN. *)
Definition round_double (half_even : bool) (x : float) : option Z :=
  match Prim2SF x with
  | S754_zero _ => Some 0
  | S754_finite s m e =>
      let z := round_mantissa half_even m e in
      Some (if s then - z else z)
  | S754_infinity _ | S754_nan => None
  end.

(** [llrint(x)] in the default rounding mode (to nearest, ties to even).
    The C standard leaves the result unspecified when the rounded value
    does not fit; the embedding returns what x86-64 returns there, the
    "integer indefinite" value [INT64_MIN]. *)
Definition llrint (x : float) : Z :=
  match round_double true x with
  | Some z => if (INT64_MIN <=? z) && (z <=? INT64_MAX) then z else INT64_MIN
  | None => INT64_MIN
  end.

(** [(int) round(x)]: [round] takes ties away from zero, and the result
    is then converted to [int]; out of range the embedding returns the
    x86-64 indefinite value [INT32_MIN]. *)
Definition round_to_int (x : float) : Z :=
  match round_double false x with
  | Some z => if (INT32_MIN <=? z) && (z <=? INT32_MAX) then z else INT32_MIN
  | None => INT32_MIN
  end.

(** [(float) x]: the binary32 value nearest to [x], kept as a [float]. *)
Definition D2F (x : float) : float :=
  match Prim2SF x with
  | S754_finite s m e => SF2Prim (binary_round 24 128 s m e)
  | _ => x
  end.

Definition M_PI : float := 3.14159265358979323846%float.
Definition M_SQRT2 : float := 1.41421356237309504880%float.

(** ** The data model of [audio.c] *)

Inductive StreamState : Type :=
| STREAM_STATE_STOP
| STREAM_STATE_SETUP
| STREAM_STATE_RUN
| STREAM_STATE_DRAIN.

Definition StreamState_eqb (a b : StreamState) : bool :=
  match a, b with
  | STREAM_STATE_STOP, STREAM_STATE_STOP
  | STREAM_STATE_SETUP, STREAM_STATE_SETUP
  | STREAM_STATE_RUN, STREAM_STATE_RUN
  | STREAM_STATE_DRAIN, STREAM_STATE_DRAIN => true
  | _, _ => false
  end.

Definition STREAM_ACTIVE (state : StreamState) : bool :=
  StreamState_eqb state STREAM_STATE_SETUP
  || StreamState_eqb state STREAM_STATE_RUN.

(** A heap pointer as far as [audio.c] can tell it apart: [NULL], the
    address of a live block, or an address whose block was handed to
    [free] while the variable kept its value. *)
Inductive Ptr : Type := NULL | Live | Dangling.

Definition nonnull (p : Ptr) : bool :=
  match p with NULL => false | _ => true end.

Record PlaybackDeviceData : Type := {
  dd_periodFrames : Z;
  dd_periodSec    : float;
  dd_nextTime     : Z;
  dd_nextPosition : Z;
  dd_b            : float;
  dd_c            : float
}.

Record PlaybackSpiceData : Type := {
  sd_framesIn            : Ptr;
  sd_framesOut           : Ptr;
  sd_framesOutSize       : Z;
  sd_periodFrames        : Z;
  sd_periodSec           : float;
  sd_nextTime            : Z;
  sd_nextPosition        : Z;
  sd_b                   : float;
  sd_c                   : float;
  sd_devPeriodFrames     : Z;
  sd_devLastTime         : Z;
  sd_devNextTime         : Z;
  sd_devLastPosition     : Z;
  sd_devNextPosition     : Z;
  sd_offsetError         : float;
  sd_offsetErrorIntegral : float;
  sd_ratioIntegral       : float;
  sd_src                 : Ptr
}.

Record PlaybackDeviceTick : Type := {
  tick_periodFrames : Z;
  tick_nextTime     : Z;
  tick_nextPosition : Z
}.

(** Modelled from the spec: [common/ringbuffer.h] is not part of the
    sources at hand.  The coupling buffer is the unbounded, frame-granular
    queue of §3/§4.1: appending advances the write cursor, consuming
    advances the read cursor (also past the write cursor, the reader then
    gets silence), and the count is their difference, which the drain
    check of [playbackPullFrames] compares with [0].  Sample payloads are
    not tracked. *)
Record RingBuffer : Type := {
  rb_writeHead : Z;
  rb_readHead  : Z
}.

Definition ringbuffer_getCount (rb : RingBuffer) : Z :=
  rb_writeHead rb - rb_readHead rb.

Definition ringbuffer_append (count : Z) (rb : RingBuffer) : RingBuffer :=
  {| rb_writeHead := rb_writeHead rb + count; rb_readHead := rb_readHead rb |}.

Definition ringbuffer_consume (count : Z) (rb : RingBuffer) : RingBuffer :=
  {| rb_writeHead := rb_writeHead rb; rb_readHead := rb_readHead rb + count |}.

Definition ringbuffer_newUnbounded : RingBuffer :=
  {| rb_writeHead := 0; rb_readHead := 0 |}.

(** Modelled from the spec: the bounded rings of [common/ringbuffer.h].
    The tick queue (§4.2) has 16 slots and refuses a tick when full; the
    latency ring behind the graph has 1200 slots and [ringbuffer_push]
    overwrites its oldest value. *)
Definition tickQueue_append (tick : PlaybackDeviceTick)
    (q : list PlaybackDeviceTick) : list PlaybackDeviceTick :=
  if (Z.of_nat (length q) <? 16) then q ++ [tick] else q.

Definition ringbuffer_push (value : float) (q : list float) : list float :=
  if (Z.of_nat (length q) <? 1200) then q ++ [value] else tl q ++ [value].

(** The members of [struct LG_AudioDevOps] (dynamic/audiodev.h, not part
    of the sources at hand) that [audio.c] tests for [NULL] somewhere: each
    of them may be absent, also where [audio.c] calls it without a test
    ([playback.start] at line 623, [playback.volume] at line 341,
    [record.start] at line 668, [record.volume] at line 672).  The members
    that [audio.c] never tests ([free], [playback.setup], [playback.stop],
    [record.stop]) are taken to be present. *)
Record LG_AudioDevOps : Type := {
  ops_playback_start   : bool;
  ops_playback_volume  : bool;
  ops_playback_mute    : bool;
  ops_playback_latency : bool;
  ops_record_start     : bool;
  ops_record_volume    : bool;
  ops_record_mute      : bool
}.

Inductive Scratch : Type := FramesIn | FramesOut.
Inductive Ring : Type := TheBuffer | TheDeviceTiming | TheTimings.

(** [SRC_DATA] as [audio_playbackData] fills it in; [data_in] is kept as
    the frame offset into [framesIn]. *)
Record SRC_DATA : Type := {
  src_data_in       : Z;
  src_input_frames  : Z;
  src_output_frames : Z;
  src_end_of_input  : Z;
  src_ratio         : float
}.

(** What [src_process] hands back: its return value and the two output
    members of [SRC_DATA]. *)
Record SRC_RESULT : Type := {
  src_error             : Z;
  src_input_frames_used : Z;
  src_output_frames_gen : Z
}.

(** Calls that leave [audio.c]. *)
Inductive Event : Type :=
| EvPlaybackSetup (channels sampleRate : Z)
| EvPlaybackStart
| EvPlaybackStop
| EvPlaybackVolume (channels : Z) (volume : list Z)
| EvPlaybackMute (mute : bool)
| EvRecordStart (channels sampleRate : Z)
| EvRecordStop
| EvRecordVolume (channels : Z) (volume : list Z)
| EvRecordMute (mute : bool)
| EvAudioDevFree
| EvRingNew (rb : Ring)
| EvRingFree (rb : Ring)
| EvBufferAppend (values_null : bool) (count : Z)
| EvBufferConsume (values_null : bool) (count : Z)
| EvMalloc (p : Scratch) (frames : Z)
| EvFree (p : Scratch)
| EvSrcNew (channels : Z)
| EvSrcDelete
| EvSrcProcess (request : SRC_DATA)
| EvShortToFloat (samples : Z)
| EvRegisterGraph
| EvUnregisterGraph
| EvInvalidateGraph
| EvWriteAudio (size : Z)
| EvDebugError.

Record Playback : Type := {
  pb_state                 : StreamState;
  pb_volumeChannels        : Z;
  pb_volume                : list Z;
  pb_mute                  : bool;
  pb_channels              : Z;
  pb_sampleRate            : Z;
  pb_stride                : Z;
  pb_deviceMaxPeriodFrames : Z;
  pb_buffer                : option RingBuffer;
  pb_deviceTiming          : option (list PlaybackDeviceTick);
  pb_timings               : option (list float);
  pb_graph                 : Ptr;
  pb_deviceData            : PlaybackDeviceData;
  pb_spiceData             : PlaybackSpiceData
}.

Record RecordData : Type := {
  rec_started        : bool;
  rec_volumeChannels : Z;
  rec_volume         : list Z;
  rec_mute           : bool;
  rec_stride         : Z;
  rec_time           : Z
}.

(** The singleton [audio], together with the two function-static
    variables of [audio_recordStart] and the log of outgoing calls
    (most recent first). *)
Record AudioState : Type := {
  audioDev       : option LG_AudioDevOps;
  playback       : Playback;
  record         : RecordData;
  lastChannels   : Z;
  lastSampleRate : Z;
  calls          : list Event
}.

(** Field assignment, one function per member that [audio.c] writes. *)
Definition set_dd_periodFrames v (d : PlaybackDeviceData) : PlaybackDeviceData :=
  {| dd_periodFrames := v; dd_periodSec := dd_periodSec d; dd_nextTime :=
     dd_nextTime d; dd_nextPosition := dd_nextPosition d; dd_b := dd_b d;
     dd_c := dd_c d |}.
Definition set_dd_periodSec v (d : PlaybackDeviceData) : PlaybackDeviceData :=
  {| dd_periodFrames := dd_periodFrames d; dd_periodSec := v; dd_nextTime :=
     dd_nextTime d; dd_nextPosition := dd_nextPosition d; dd_b := dd_b d;
     dd_c := dd_c d |}.
Definition set_dd_nextTime v (d : PlaybackDeviceData) : PlaybackDeviceData :=
  {| dd_periodFrames := dd_periodFrames d; dd_periodSec := dd_periodSec d;
     dd_nextTime := v; dd_nextPosition := dd_nextPosition d; dd_b := dd_b d;
     dd_c := dd_c d |}.
Definition set_dd_nextPosition v (d : PlaybackDeviceData) : PlaybackDeviceData :=
  {| dd_periodFrames := dd_periodFrames d; dd_periodSec := dd_periodSec d;
     dd_nextTime := dd_nextTime d; dd_nextPosition := v; dd_b := dd_b d;
     dd_c := dd_c d |}.
Definition set_dd_b v (d : PlaybackDeviceData) : PlaybackDeviceData :=
  {| dd_periodFrames := dd_periodFrames d; dd_periodSec := dd_periodSec d;
     dd_nextTime := dd_nextTime d; dd_nextPosition := dd_nextPosition d;
     dd_b := v; dd_c := dd_c d |}.
Definition set_dd_c v (d : PlaybackDeviceData) : PlaybackDeviceData :=
  {| dd_periodFrames := dd_periodFrames d; dd_periodSec := dd_periodSec d;
     dd_nextTime := dd_nextTime d; dd_nextPosition := dd_nextPosition d;
     dd_b := dd_b d; dd_c := v |}.

Definition set_sd_framesIn v (s : PlaybackSpiceData) : PlaybackSpiceData :=
  {| sd_framesIn := v; sd_framesOut := sd_framesOut s; sd_framesOutSize :=
     sd_framesOutSize s; sd_periodFrames := sd_periodFrames s; sd_periodSec
     := sd_periodSec s; sd_nextTime := sd_nextTime s; sd_nextPosition :=
     sd_nextPosition s; sd_b := sd_b s; sd_c := sd_c s; sd_devPeriodFrames
     := sd_devPeriodFrames s; sd_devLastTime := sd_devLastTime s;
     sd_devNextTime := sd_devNextTime s; sd_devLastPosition :=
     sd_devLastPosition s; sd_devNextPosition := sd_devNextPosition s;
     sd_offsetError := sd_offsetError s; sd_offsetErrorIntegral :=
     sd_offsetErrorIntegral s; sd_ratioIntegral := sd_ratioIntegral s;
     sd_src := sd_src s |}.
Definition set_sd_framesOut v (s : PlaybackSpiceData) : PlaybackSpiceData :=
  {| sd_framesIn := sd_framesIn s; sd_framesOut := v; sd_framesOutSize :=
     sd_framesOutSize s; sd_periodFrames := sd_periodFrames s; sd_periodSec
     := sd_periodSec s; sd_nextTime := sd_nextTime s; sd_nextPosition :=
     sd_nextPosition s; sd_b := sd_b s; sd_c := sd_c s; sd_devPeriodFrames
     := sd_devPeriodFrames s; sd_devLastTime := sd_devLastTime s;
     sd_devNextTime := sd_devNextTime s; sd_devLastPosition :=
     sd_devLastPosition s; sd_devNextPosition := sd_devNextPosition s;
     sd_offsetError := sd_offsetError s; sd_offsetErrorIntegral :=
     sd_offsetErrorIntegral s; sd_ratioIntegral := sd_ratioIntegral s;
     sd_src := sd_src s |}.
Definition set_sd_framesOutSize v (s : PlaybackSpiceData) : PlaybackSpiceData :=
  {| sd_framesIn := sd_framesIn s; sd_framesOut := sd_framesOut s;
     sd_framesOutSize := v; sd_periodFrames := sd_periodFrames s;
     sd_periodSec := sd_periodSec s; sd_nextTime := sd_nextTime s;
     sd_nextPosition := sd_nextPosition s; sd_b := sd_b s; sd_c := sd_c s;
     sd_devPeriodFrames := sd_devPeriodFrames s; sd_devLastTime :=
     sd_devLastTime s; sd_devNextTime := sd_devNextTime s;
     sd_devLastPosition := sd_devLastPosition s; sd_devNextPosition :=
     sd_devNextPosition s; sd_offsetError := sd_offsetError s;
     sd_offsetErrorIntegral := sd_offsetErrorIntegral s; sd_ratioIntegral :=
     sd_ratioIntegral s; sd_src := sd_src s |}.
Definition set_sd_periodFrames v (s : PlaybackSpiceData) : PlaybackSpiceData :=
  {| sd_framesIn := sd_framesIn s; sd_framesOut := sd_framesOut s;
     sd_framesOutSize := sd_framesOutSize s; sd_periodFrames := v;
     sd_periodSec := sd_periodSec s; sd_nextTime := sd_nextTime s;
     sd_nextPosition := sd_nextPosition s; sd_b := sd_b s; sd_c := sd_c s;
     sd_devPeriodFrames := sd_devPeriodFrames s; sd_devLastTime :=
     sd_devLastTime s; sd_devNextTime := sd_devNextTime s;
     sd_devLastPosition := sd_devLastPosition s; sd_devNextPosition :=
     sd_devNextPosition s; sd_offsetError := sd_offsetError s;
     sd_offsetErrorIntegral := sd_offsetErrorIntegral s; sd_ratioIntegral :=
     sd_ratioIntegral s; sd_src := sd_src s |}.
Definition set_sd_periodSec v (s : PlaybackSpiceData) : PlaybackSpiceData :=
  {| sd_framesIn := sd_framesIn s; sd_framesOut := sd_framesOut s;
     sd_framesOutSize := sd_framesOutSize s; sd_periodFrames :=
     sd_periodFrames s; sd_periodSec := v; sd_nextTime := sd_nextTime s;
     sd_nextPosition := sd_nextPosition s; sd_b := sd_b s; sd_c := sd_c s;
     sd_devPeriodFrames := sd_devPeriodFrames s; sd_devLastTime :=
     sd_devLastTime s; sd_devNextTime := sd_devNextTime s;
     sd_devLastPosition := sd_devLastPosition s; sd_devNextPosition :=
     sd_devNextPosition s; sd_offsetError := sd_offsetError s;
     sd_offsetErrorIntegral := sd_offsetErrorIntegral s; sd_ratioIntegral :=
     sd_ratioIntegral s; sd_src := sd_src s |}.
Definition set_sd_nextTime v (s : PlaybackSpiceData) : PlaybackSpiceData :=
  {| sd_framesIn := sd_framesIn s; sd_framesOut := sd_framesOut s;
     sd_framesOutSize := sd_framesOutSize s; sd_periodFrames :=
     sd_periodFrames s; sd_periodSec := sd_periodSec s; sd_nextTime := v;
     sd_nextPosition := sd_nextPosition s; sd_b := sd_b s; sd_c := sd_c s;
     sd_devPeriodFrames := sd_devPeriodFrames s; sd_devLastTime :=
     sd_devLastTime s; sd_devNextTime := sd_devNextTime s;
     sd_devLastPosition := sd_devLastPosition s; sd_devNextPosition :=
     sd_devNextPosition s; sd_offsetError := sd_offsetError s;
     sd_offsetErrorIntegral := sd_offsetErrorIntegral s; sd_ratioIntegral :=
     sd_ratioIntegral s; sd_src := sd_src s |}.
Definition set_sd_nextPosition v (s : PlaybackSpiceData) : PlaybackSpiceData :=
  {| sd_framesIn := sd_framesIn s; sd_framesOut := sd_framesOut s;
     sd_framesOutSize := sd_framesOutSize s; sd_periodFrames :=
     sd_periodFrames s; sd_periodSec := sd_periodSec s; sd_nextTime :=
     sd_nextTime s; sd_nextPosition := v; sd_b := sd_b s; sd_c := sd_c s;
     sd_devPeriodFrames := sd_devPeriodFrames s; sd_devLastTime :=
     sd_devLastTime s; sd_devNextTime := sd_devNextTime s;
     sd_devLastPosition := sd_devLastPosition s; sd_devNextPosition :=
     sd_devNextPosition s; sd_offsetError := sd_offsetError s;
     sd_offsetErrorIntegral := sd_offsetErrorIntegral s; sd_ratioIntegral :=
     sd_ratioIntegral s; sd_src := sd_src s |}.
Definition set_sd_b v (s : PlaybackSpiceData) : PlaybackSpiceData :=
  {| sd_framesIn := sd_framesIn s; sd_framesOut := sd_framesOut s;
     sd_framesOutSize := sd_framesOutSize s; sd_periodFrames :=
     sd_periodFrames s; sd_periodSec := sd_periodSec s; sd_nextTime :=
     sd_nextTime s; sd_nextPosition := sd_nextPosition s; sd_b := v; sd_c :=
     sd_c s; sd_devPeriodFrames := sd_devPeriodFrames s; sd_devLastTime :=
     sd_devLastTime s; sd_devNextTime := sd_devNextTime s;
     sd_devLastPosition := sd_devLastPosition s; sd_devNextPosition :=
     sd_devNextPosition s; sd_offsetError := sd_offsetError s;
     sd_offsetErrorIntegral := sd_offsetErrorIntegral s; sd_ratioIntegral :=
     sd_ratioIntegral s; sd_src := sd_src s |}.
Definition set_sd_c v (s : PlaybackSpiceData) : PlaybackSpiceData :=
  {| sd_framesIn := sd_framesIn s; sd_framesOut := sd_framesOut s;
     sd_framesOutSize := sd_framesOutSize s; sd_periodFrames :=
     sd_periodFrames s; sd_periodSec := sd_periodSec s; sd_nextTime :=
     sd_nextTime s; sd_nextPosition := sd_nextPosition s; sd_b := sd_b s;
     sd_c := v; sd_devPeriodFrames := sd_devPeriodFrames s; sd_devLastTime
     := sd_devLastTime s; sd_devNextTime := sd_devNextTime s;
     sd_devLastPosition := sd_devLastPosition s; sd_devNextPosition :=
     sd_devNextPosition s; sd_offsetError := sd_offsetError s;
     sd_offsetErrorIntegral := sd_offsetErrorIntegral s; sd_ratioIntegral :=
     sd_ratioIntegral s; sd_src := sd_src s |}.
Definition set_sd_devPeriodFrames v (s : PlaybackSpiceData) : PlaybackSpiceData :=
  {| sd_framesIn := sd_framesIn s; sd_framesOut := sd_framesOut s;
     sd_framesOutSize := sd_framesOutSize s; sd_periodFrames :=
     sd_periodFrames s; sd_periodSec := sd_periodSec s; sd_nextTime :=
     sd_nextTime s; sd_nextPosition := sd_nextPosition s; sd_b := sd_b s;
     sd_c := sd_c s; sd_devPeriodFrames := v; sd_devLastTime :=
     sd_devLastTime s; sd_devNextTime := sd_devNextTime s;
     sd_devLastPosition := sd_devLastPosition s; sd_devNextPosition :=
     sd_devNextPosition s; sd_offsetError := sd_offsetError s;
     sd_offsetErrorIntegral := sd_offsetErrorIntegral s; sd_ratioIntegral :=
     sd_ratioIntegral s; sd_src := sd_src s |}.
Definition set_sd_devLastTime v (s : PlaybackSpiceData) : PlaybackSpiceData :=
  {| sd_framesIn := sd_framesIn s; sd_framesOut := sd_framesOut s;
     sd_framesOutSize := sd_framesOutSize s; sd_periodFrames :=
     sd_periodFrames s; sd_periodSec := sd_periodSec s; sd_nextTime :=
     sd_nextTime s; sd_nextPosition := sd_nextPosition s; sd_b := sd_b s;
     sd_c := sd_c s; sd_devPeriodFrames := sd_devPeriodFrames s;
     sd_devLastTime := v; sd_devNextTime := sd_devNextTime s;
     sd_devLastPosition := sd_devLastPosition s; sd_devNextPosition :=
     sd_devNextPosition s; sd_offsetError := sd_offsetError s;
     sd_offsetErrorIntegral := sd_offsetErrorIntegral s; sd_ratioIntegral :=
     sd_ratioIntegral s; sd_src := sd_src s |}.
Definition set_sd_devNextTime v (s : PlaybackSpiceData) : PlaybackSpiceData :=
  {| sd_framesIn := sd_framesIn s; sd_framesOut := sd_framesOut s;
     sd_framesOutSize := sd_framesOutSize s; sd_periodFrames :=
     sd_periodFrames s; sd_periodSec := sd_periodSec s; sd_nextTime :=
     sd_nextTime s; sd_nextPosition := sd_nextPosition s; sd_b := sd_b s;
     sd_c := sd_c s; sd_devPeriodFrames := sd_devPeriodFrames s;
     sd_devLastTime := sd_devLastTime s; sd_devNextTime := v;
     sd_devLastPosition := sd_devLastPosition s; sd_devNextPosition :=
     sd_devNextPosition s; sd_offsetError := sd_offsetError s;
     sd_offsetErrorIntegral := sd_offsetErrorIntegral s; sd_ratioIntegral :=
     sd_ratioIntegral s; sd_src := sd_src s |}.
Definition set_sd_devLastPosition v (s : PlaybackSpiceData) : PlaybackSpiceData :=
  {| sd_framesIn := sd_framesIn s; sd_framesOut := sd_framesOut s;
     sd_framesOutSize := sd_framesOutSize s; sd_periodFrames :=
     sd_periodFrames s; sd_periodSec := sd_periodSec s; sd_nextTime :=
     sd_nextTime s; sd_nextPosition := sd_nextPosition s; sd_b := sd_b s;
     sd_c := sd_c s; sd_devPeriodFrames := sd_devPeriodFrames s;
     sd_devLastTime := sd_devLastTime s; sd_devNextTime := sd_devNextTime s;
     sd_devLastPosition := v; sd_devNextPosition := sd_devNextPosition s;
     sd_offsetError := sd_offsetError s; sd_offsetErrorIntegral :=
     sd_offsetErrorIntegral s; sd_ratioIntegral := sd_ratioIntegral s;
     sd_src := sd_src s |}.
Definition set_sd_devNextPosition v (s : PlaybackSpiceData) : PlaybackSpiceData :=
  {| sd_framesIn := sd_framesIn s; sd_framesOut := sd_framesOut s;
     sd_framesOutSize := sd_framesOutSize s; sd_periodFrames :=
     sd_periodFrames s; sd_periodSec := sd_periodSec s; sd_nextTime :=
     sd_nextTime s; sd_nextPosition := sd_nextPosition s; sd_b := sd_b s;
     sd_c := sd_c s; sd_devPeriodFrames := sd_devPeriodFrames s;
     sd_devLastTime := sd_devLastTime s; sd_devNextTime := sd_devNextTime s;
     sd_devLastPosition := sd_devLastPosition s; sd_devNextPosition := v;
     sd_offsetError := sd_offsetError s; sd_offsetErrorIntegral :=
     sd_offsetErrorIntegral s; sd_ratioIntegral := sd_ratioIntegral s;
     sd_src := sd_src s |}.
Definition set_sd_offsetError v (s : PlaybackSpiceData) : PlaybackSpiceData :=
  {| sd_framesIn := sd_framesIn s; sd_framesOut := sd_framesOut s;
     sd_framesOutSize := sd_framesOutSize s; sd_periodFrames :=
     sd_periodFrames s; sd_periodSec := sd_periodSec s; sd_nextTime :=
     sd_nextTime s; sd_nextPosition := sd_nextPosition s; sd_b := sd_b s;
     sd_c := sd_c s; sd_devPeriodFrames := sd_devPeriodFrames s;
     sd_devLastTime := sd_devLastTime s; sd_devNextTime := sd_devNextTime s;
     sd_devLastPosition := sd_devLastPosition s; sd_devNextPosition :=
     sd_devNextPosition s; sd_offsetError := v; sd_offsetErrorIntegral :=
     sd_offsetErrorIntegral s; sd_ratioIntegral := sd_ratioIntegral s;
     sd_src := sd_src s |}.
Definition set_sd_offsetErrorIntegral v (s : PlaybackSpiceData) : PlaybackSpiceData :=
  {| sd_framesIn := sd_framesIn s; sd_framesOut := sd_framesOut s;
     sd_framesOutSize := sd_framesOutSize s; sd_periodFrames :=
     sd_periodFrames s; sd_periodSec := sd_periodSec s; sd_nextTime :=
     sd_nextTime s; sd_nextPosition := sd_nextPosition s; sd_b := sd_b s;
     sd_c := sd_c s; sd_devPeriodFrames := sd_devPeriodFrames s;
     sd_devLastTime := sd_devLastTime s; sd_devNextTime := sd_devNextTime s;
     sd_devLastPosition := sd_devLastPosition s; sd_devNextPosition :=
     sd_devNextPosition s; sd_offsetError := sd_offsetError s;
     sd_offsetErrorIntegral := v; sd_ratioIntegral := sd_ratioIntegral s;
     sd_src := sd_src s |}.
Definition set_sd_ratioIntegral v (s : PlaybackSpiceData) : PlaybackSpiceData :=
  {| sd_framesIn := sd_framesIn s; sd_framesOut := sd_framesOut s;
     sd_framesOutSize := sd_framesOutSize s; sd_periodFrames :=
     sd_periodFrames s; sd_periodSec := sd_periodSec s; sd_nextTime :=
     sd_nextTime s; sd_nextPosition := sd_nextPosition s; sd_b := sd_b s;
     sd_c := sd_c s; sd_devPeriodFrames := sd_devPeriodFrames s;
     sd_devLastTime := sd_devLastTime s; sd_devNextTime := sd_devNextTime s;
     sd_devLastPosition := sd_devLastPosition s; sd_devNextPosition :=
     sd_devNextPosition s; sd_offsetError := sd_offsetError s;
     sd_offsetErrorIntegral := sd_offsetErrorIntegral s; sd_ratioIntegral :=
     v; sd_src := sd_src s |}.
Definition set_sd_src v (s : PlaybackSpiceData) : PlaybackSpiceData :=
  {| sd_framesIn := sd_framesIn s; sd_framesOut := sd_framesOut s;
     sd_framesOutSize := sd_framesOutSize s; sd_periodFrames :=
     sd_periodFrames s; sd_periodSec := sd_periodSec s; sd_nextTime :=
     sd_nextTime s; sd_nextPosition := sd_nextPosition s; sd_b := sd_b s;
     sd_c := sd_c s; sd_devPeriodFrames := sd_devPeriodFrames s;
     sd_devLastTime := sd_devLastTime s; sd_devNextTime := sd_devNextTime s;
     sd_devLastPosition := sd_devLastPosition s; sd_devNextPosition :=
     sd_devNextPosition s; sd_offsetError := sd_offsetError s;
     sd_offsetErrorIntegral := sd_offsetErrorIntegral s; sd_ratioIntegral :=
     sd_ratioIntegral s; sd_src := v |}.

Definition set_pb_state v (p : Playback) : Playback :=
  {| pb_state := v; pb_volumeChannels := pb_volumeChannels p; pb_volume :=
     pb_volume p; pb_mute := pb_mute p; pb_channels := pb_channels p;
     pb_sampleRate := pb_sampleRate p; pb_stride := pb_stride p;
     pb_deviceMaxPeriodFrames := pb_deviceMaxPeriodFrames p; pb_buffer :=
     pb_buffer p; pb_deviceTiming := pb_deviceTiming p; pb_timings :=
     pb_timings p; pb_graph := pb_graph p; pb_deviceData := pb_deviceData p;
     pb_spiceData := pb_spiceData p |}.
Definition set_pb_volumeChannels v (p : Playback) : Playback :=
  {| pb_state := pb_state p; pb_volumeChannels := v; pb_volume := pb_volume
     p; pb_mute := pb_mute p; pb_channels := pb_channels p; pb_sampleRate :=
     pb_sampleRate p; pb_stride := pb_stride p; pb_deviceMaxPeriodFrames :=
     pb_deviceMaxPeriodFrames p; pb_buffer := pb_buffer p; pb_deviceTiming
     := pb_deviceTiming p; pb_timings := pb_timings p; pb_graph := pb_graph
     p; pb_deviceData := pb_deviceData p; pb_spiceData := pb_spiceData p |}.
Definition set_pb_volume v (p : Playback) : Playback :=
  {| pb_state := pb_state p; pb_volumeChannels := pb_volumeChannels p;
     pb_volume := v; pb_mute := pb_mute p; pb_channels := pb_channels p;
     pb_sampleRate := pb_sampleRate p; pb_stride := pb_stride p;
     pb_deviceMaxPeriodFrames := pb_deviceMaxPeriodFrames p; pb_buffer :=
     pb_buffer p; pb_deviceTiming := pb_deviceTiming p; pb_timings :=
     pb_timings p; pb_graph := pb_graph p; pb_deviceData := pb_deviceData p;
     pb_spiceData := pb_spiceData p |}.
Definition set_pb_mute v (p : Playback) : Playback :=
  {| pb_state := pb_state p; pb_volumeChannels := pb_volumeChannels p;
     pb_volume := pb_volume p; pb_mute := v; pb_channels := pb_channels p;
     pb_sampleRate := pb_sampleRate p; pb_stride := pb_stride p;
     pb_deviceMaxPeriodFrames := pb_deviceMaxPeriodFrames p; pb_buffer :=
     pb_buffer p; pb_deviceTiming := pb_deviceTiming p; pb_timings :=
     pb_timings p; pb_graph := pb_graph p; pb_deviceData := pb_deviceData p;
     pb_spiceData := pb_spiceData p |}.
Definition set_pb_channels v (p : Playback) : Playback :=
  {| pb_state := pb_state p; pb_volumeChannels := pb_volumeChannels p;
     pb_volume := pb_volume p; pb_mute := pb_mute p; pb_channels := v;
     pb_sampleRate := pb_sampleRate p; pb_stride := pb_stride p;
     pb_deviceMaxPeriodFrames := pb_deviceMaxPeriodFrames p; pb_buffer :=
     pb_buffer p; pb_deviceTiming := pb_deviceTiming p; pb_timings :=
     pb_timings p; pb_graph := pb_graph p; pb_deviceData := pb_deviceData p;
     pb_spiceData := pb_spiceData p |}.
Definition set_pb_sampleRate v (p : Playback) : Playback :=
  {| pb_state := pb_state p; pb_volumeChannels := pb_volumeChannels p;
     pb_volume := pb_volume p; pb_mute := pb_mute p; pb_channels :=
     pb_channels p; pb_sampleRate := v; pb_stride := pb_stride p;
     pb_deviceMaxPeriodFrames := pb_deviceMaxPeriodFrames p; pb_buffer :=
     pb_buffer p; pb_deviceTiming := pb_deviceTiming p; pb_timings :=
     pb_timings p; pb_graph := pb_graph p; pb_deviceData := pb_deviceData p;
     pb_spiceData := pb_spiceData p |}.
Definition set_pb_stride v (p : Playback) : Playback :=
  {| pb_state := pb_state p; pb_volumeChannels := pb_volumeChannels p;
     pb_volume := pb_volume p; pb_mute := pb_mute p; pb_channels :=
     pb_channels p; pb_sampleRate := pb_sampleRate p; pb_stride := v;
     pb_deviceMaxPeriodFrames := pb_deviceMaxPeriodFrames p; pb_buffer :=
     pb_buffer p; pb_deviceTiming := pb_deviceTiming p; pb_timings :=
     pb_timings p; pb_graph := pb_graph p; pb_deviceData := pb_deviceData p;
     pb_spiceData := pb_spiceData p |}.
Definition set_pb_deviceMaxPeriodFrames v (p : Playback) : Playback :=
  {| pb_state := pb_state p; pb_volumeChannels := pb_volumeChannels p;
     pb_volume := pb_volume p; pb_mute := pb_mute p; pb_channels :=
     pb_channels p; pb_sampleRate := pb_sampleRate p; pb_stride := pb_stride
     p; pb_deviceMaxPeriodFrames := v; pb_buffer := pb_buffer p;
     pb_deviceTiming := pb_deviceTiming p; pb_timings := pb_timings p;
     pb_graph := pb_graph p; pb_deviceData := pb_deviceData p; pb_spiceData
     := pb_spiceData p |}.
Definition set_pb_buffer v (p : Playback) : Playback :=
  {| pb_state := pb_state p; pb_volumeChannels := pb_volumeChannels p;
     pb_volume := pb_volume p; pb_mute := pb_mute p; pb_channels :=
     pb_channels p; pb_sampleRate := pb_sampleRate p; pb_stride := pb_stride
     p; pb_deviceMaxPeriodFrames := pb_deviceMaxPeriodFrames p; pb_buffer :=
     v; pb_deviceTiming := pb_deviceTiming p; pb_timings := pb_timings p;
     pb_graph := pb_graph p; pb_deviceData := pb_deviceData p; pb_spiceData
     := pb_spiceData p |}.
Definition set_pb_deviceTiming v (p : Playback) : Playback :=
  {| pb_state := pb_state p; pb_volumeChannels := pb_volumeChannels p;
     pb_volume := pb_volume p; pb_mute := pb_mute p; pb_channels :=
     pb_channels p; pb_sampleRate := pb_sampleRate p; pb_stride := pb_stride
     p; pb_deviceMaxPeriodFrames := pb_deviceMaxPeriodFrames p; pb_buffer :=
     pb_buffer p; pb_deviceTiming := v; pb_timings := pb_timings p; pb_graph
     := pb_graph p; pb_deviceData := pb_deviceData p; pb_spiceData :=
     pb_spiceData p |}.
Definition set_pb_timings v (p : Playback) : Playback :=
  {| pb_state := pb_state p; pb_volumeChannels := pb_volumeChannels p;
     pb_volume := pb_volume p; pb_mute := pb_mute p; pb_channels :=
     pb_channels p; pb_sampleRate := pb_sampleRate p; pb_stride := pb_stride
     p; pb_deviceMaxPeriodFrames := pb_deviceMaxPeriodFrames p; pb_buffer :=
     pb_buffer p; pb_deviceTiming := pb_deviceTiming p; pb_timings := v;
     pb_graph := pb_graph p; pb_deviceData := pb_deviceData p; pb_spiceData
     := pb_spiceData p |}.
Definition set_pb_graph v (p : Playback) : Playback :=
  {| pb_state := pb_state p; pb_volumeChannels := pb_volumeChannels p;
     pb_volume := pb_volume p; pb_mute := pb_mute p; pb_channels :=
     pb_channels p; pb_sampleRate := pb_sampleRate p; pb_stride := pb_stride
     p; pb_deviceMaxPeriodFrames := pb_deviceMaxPeriodFrames p; pb_buffer :=
     pb_buffer p; pb_deviceTiming := pb_deviceTiming p; pb_timings :=
     pb_timings p; pb_graph := v; pb_deviceData := pb_deviceData p;
     pb_spiceData := pb_spiceData p |}.
Definition set_pb_deviceData v (p : Playback) : Playback :=
  {| pb_state := pb_state p; pb_volumeChannels := pb_volumeChannels p;
     pb_volume := pb_volume p; pb_mute := pb_mute p; pb_channels :=
     pb_channels p; pb_sampleRate := pb_sampleRate p; pb_stride := pb_stride
     p; pb_deviceMaxPeriodFrames := pb_deviceMaxPeriodFrames p; pb_buffer :=
     pb_buffer p; pb_deviceTiming := pb_deviceTiming p; pb_timings :=
     pb_timings p; pb_graph := pb_graph p; pb_deviceData := v; pb_spiceData
     := pb_spiceData p |}.
Definition set_pb_spiceData v (p : Playback) : Playback :=
  {| pb_state := pb_state p; pb_volumeChannels := pb_volumeChannels p;
     pb_volume := pb_volume p; pb_mute := pb_mute p; pb_channels :=
     pb_channels p; pb_sampleRate := pb_sampleRate p; pb_stride := pb_stride
     p; pb_deviceMaxPeriodFrames := pb_deviceMaxPeriodFrames p; pb_buffer :=
     pb_buffer p; pb_deviceTiming := pb_deviceTiming p; pb_timings :=
     pb_timings p; pb_graph := pb_graph p; pb_deviceData := pb_deviceData p;
     pb_spiceData := v |}.

Definition set_rec_started v (r : RecordData) : RecordData :=
  {| rec_started := v; rec_volumeChannels := rec_volumeChannels r;
     rec_volume := rec_volume r; rec_mute := rec_mute r; rec_stride :=
     rec_stride r; rec_time := rec_time r |}.
Definition set_rec_volumeChannels v (r : RecordData) : RecordData :=
  {| rec_started := rec_started r; rec_volumeChannels := v; rec_volume :=
     rec_volume r; rec_mute := rec_mute r; rec_stride := rec_stride r;
     rec_time := rec_time r |}.
Definition set_rec_volume v (r : RecordData) : RecordData :=
  {| rec_started := rec_started r; rec_volumeChannels := rec_volumeChannels
     r; rec_volume := v; rec_mute := rec_mute r; rec_stride := rec_stride r;
     rec_time := rec_time r |}.
Definition set_rec_mute v (r : RecordData) : RecordData :=
  {| rec_started := rec_started r; rec_volumeChannels := rec_volumeChannels
     r; rec_volume := rec_volume r; rec_mute := v; rec_stride := rec_stride
     r; rec_time := rec_time r |}.
Definition set_rec_stride v (r : RecordData) : RecordData :=
  {| rec_started := rec_started r; rec_volumeChannels := rec_volumeChannels
     r; rec_volume := rec_volume r; rec_mute := rec_mute r; rec_stride := v;
     rec_time := rec_time r |}.

Definition set_audioDev v (a : AudioState) : AudioState :=
  {| audioDev := v; playback := playback a; record := record a; lastChannels
     := lastChannels a; lastSampleRate := lastSampleRate a; calls := calls a
     |}.
Definition set_playback v (a : AudioState) : AudioState :=
  {| audioDev := audioDev a; playback := v; record := record a; lastChannels
     := lastChannels a; lastSampleRate := lastSampleRate a; calls := calls a
     |}.
Definition set_record v (a : AudioState) : AudioState :=
  {| audioDev := audioDev a; playback := playback a; record := v;
     lastChannels := lastChannels a; lastSampleRate := lastSampleRate a;
     calls := calls a |}.
Definition set_lastChannels v (a : AudioState) : AudioState :=
  {| audioDev := audioDev a; playback := playback a; record := record a;
     lastChannels := v; lastSampleRate := lastSampleRate a; calls := calls a
     |}.
Definition set_lastSampleRate v (a : AudioState) : AudioState :=
  {| audioDev := audioDev a; playback := playback a; record := record a;
     lastChannels := lastChannels a; lastSampleRate := v; calls := calls a
     |}.
Definition set_calls v (a : AudioState) : AudioState :=
  {| audioDev := audioDev a; playback := playback a; record := record a;
     lastChannels := lastChannels a; lastSampleRate := lastSampleRate a;
     calls := v |}.
(** ** The monad of the embedding *)

(** A function of [audio.c] either returns, or (in the embedding only)
    exhausts the fuel that bounds the resampler loop, or dereferences a
    [NULL] ring buffer or backend. *)
Inductive Res (A : Type) : Type :=
| Ok (a : A) (w : AudioState)
| OutOfFuel
| NullDeref.
Arguments Ok {A} a w.
Arguments OutOfFuel {A}.
Arguments NullDeref {A}.

Definition M (A : Type) : Type := AudioState -> Res A.

Definition ret {A : Type} (a : A) : M A := fun w => Ok a w.

Definition bind {A B : Type} (m : M A) (k : A -> M B) : M B :=
  fun w =>
    match m w with
    | Ok a w' => k a w'
    | OutOfFuel => OutOfFuel
    | NullDeref => NullDeref
    end.

Notation "x <- m ;; k" := (bind m (fun x => k))
  (at level 61, m at next level, right associativity).
Notation "m ;; k" := (bind m (fun _ => k))
  (at level 61, right associativity).

Definition gets {X : Type} (f : AudioState -> X) : M X :=
  fun w => Ok (f w) w.
Definition get : M AudioState := gets (fun w => w).
Definition modify (f : AudioState -> AudioState) : M unit :=
  fun w => Ok tt (f w).
Definition nullDeref {A : Type} : M A := fun _ => NullDeref.
Definition outOfFuel {A : Type} : M A := fun _ => OutOfFuel.
Definition skip : M unit := ret tt.

(** An outgoing call is put in front of the log. *)
Definition call (e : Event) : M unit :=
  modify (fun w => set_calls (e :: calls w) w).

(** A member of the backend that [audio.c] never tests for [NULL]. *)
Definition provided (ops : LG_AudioDevOps) : bool := true.
Arguments provided _ /.

(** A call through the member [member] of [audio.audioDev]: through
    [NULL] when there is no backend, or when the backend does not have
    that member. *)
Definition devCall (member : LG_AudioDevOps -> bool) (e : Event) : M unit :=
  w <- get ;;
  match audioDev w with
  | None => nullDeref
  | Some ops => if member ops then call e else nullDeref
  end.

Definition getPlayback : M Playback := gets playback.
Definition getDevice : M PlaybackDeviceData :=
  gets (fun w => pb_deviceData (playback w)).
Definition getSpice : M PlaybackSpiceData :=
  gets (fun w => pb_spiceData (playback w)).
Definition getRecord : M RecordData := gets record.

Definition modPlayback (f : Playback -> Playback) : M unit :=
  modify (fun w => set_playback (f (playback w)) w).
Definition modDevice (f : PlaybackDeviceData -> PlaybackDeviceData) : M unit :=
  modPlayback (fun p => set_pb_deviceData (f (pb_deviceData p)) p).
Definition modSpice (f : PlaybackSpiceData -> PlaybackSpiceData) : M unit :=
  modPlayback (fun p => set_pb_spiceData (f (pb_spiceData p)) p).
Definition modRecord (f : RecordData -> RecordData) : M unit :=
  modify (fun w => set_record (f (record w)) w).

(** [ringbuffer_append(audio.playback.buffer, values, count)] and
    [ringbuffer_consume(audio.playback.buffer, values, count)];
    [values_null] tells whether [values] is [NULL]. *)
Definition buffer_append (values_null : bool) (count : Z) : M unit :=
  p <- getPlayback ;;
  match pb_buffer p with
  | None => nullDeref
  | Some rb =>
      call (EvBufferAppend values_null count) ;;
      modPlayback (set_pb_buffer (Some (ringbuffer_append count rb)))
  end.

Definition buffer_consume (values_null : bool) (count : Z) : M unit :=
  p <- getPlayback ;;
  match pb_buffer p with
  | None => nullDeref
  | Some rb =>
      call (EvBufferConsume values_null count) ;;
      modPlayback (set_pb_buffer (Some (ringbuffer_consume count rb)))
  end.

(** [ringbuffer_getCount(audio.playback.buffer)]. *)
Definition buffer_getCount : M Z :=
  p <- getPlayback ;;
  match pb_buffer p with
  | None => nullDeref
  | Some rb => ret (ringbuffer_getCount rb)
  end.

(** [ringbuffer_free(&rb)]: releases the ring, if any, and clears the
    variable. *)
Definition ringbuffer_free (rb : Ring) : M unit :=
  call (EvRingFree rb) ;;
  match rb with
  | TheBuffer => modPlayback (set_pb_buffer None)
  | TheDeviceTiming => modPlayback (set_pb_deviceTiming None)
  | TheTimings => modPlayback (set_pb_timings None)
  end.

(** The block behind a pointer once it went through [free]. *)
Definition freed (p : Ptr) : Ptr :=
  match p with NULL => NULL | _ => Dangling end.

(** [free(spiceData->framesIn)] and [free(spiceData->framesOut)]. *)
Definition free_scratch (p : Scratch) : M unit :=
  call (EvFree p) ;;
  match p with
  | FramesIn => modSpice (fun s => set_sd_framesIn (freed (sd_framesIn s)) s)
  | FramesOut => modSpice (fun s => set_sd_framesOut (freed (sd_framesOut s)) s)
  end.

Definition isSome {A : Type} (o : option A) : bool :=
  match o with Some _ => true | None => false end.

(** ** [playbackStop] (audio.c:182-206) *)

Definition playbackStop : M unit :=
  p <- getPlayback ;;
  if StreamState_eqb (pb_state p) STREAM_STATE_STOP then ret tt
  else
    modPlayback (set_pb_state STREAM_STATE_STOP) ;;
    devCall provided EvPlaybackStop ;;
    ringbuffer_free TheBuffer ;;
    ringbuffer_free TheDeviceTiming ;;
    call EvSrcDelete ;;
    modSpice (set_sd_src NULL) ;;
    sd <- getSpice ;;
    (if nonnull (sd_framesIn sd) then
       free_scratch FramesIn ;;
       free_scratch FramesOut ;;
       modSpice (set_sd_framesIn NULL) ;;
       modSpice (set_sd_framesOut NULL)
     else skip) ;;
    p <- getPlayback ;;
    if isSome (pb_timings p) then
      call EvUnregisterGraph ;;
      modPlayback (fun p => set_pb_graph (freed (pb_graph p)) p) ;;
      ringbuffer_free TheTimings
    else skip.

(** ** [playbackPullFrames] (audio.c:208-288)

    [now] is the value [nanotime()] returns at line 215.  The
    [DEBUG_ASSERT(frames >= 0)] of line 210 is a debugging aid and has no
    counterpart here. *)

(** The loop coefficients, lines 242-245 (and 467-470). *)
Definition bandwidth : float := 0.05%float.
Definition omega (periodSec : float) : float :=
  (2.0 * M_PI * bandwidth * periodSec)%float.

(** Lines 220-268: measure the device clock. *)
Definition deviceClock (now frames : Z) : M unit :=
  p <- getPlayback ;;
  data <- getDevice ;;
  if negb (frames =? dd_periodFrames data) then
    let newPeriodSec := (Z2D frames / Z2D (pb_sampleRate p))%float in
    let init := dd_periodFrames data =? 0 in
    (if init then
       modDevice (set_dd_nextTime
                    (add64 now (llrint (newPeriodSec * 1.0e9)%float)))
     else
       modDevice (fun d =>
         set_dd_nextTime
           (add64 (dd_nextTime d) (llrint (dd_periodSec d * 1.0e9)%float)) d)) ;;
    modDevice (set_dd_periodFrames frames) ;;
    modDevice (set_dd_periodSec newPeriodSec) ;;
    modDevice (fun d => set_dd_nextPosition (add64 (dd_nextPosition d) frames) d) ;;
    modDevice (fun d => set_dd_b (M_SQRT2 * omega (dd_periodSec d))%float d) ;;
    modDevice (fun d =>
      set_dd_c (omega (dd_periodSec d) * omega (dd_periodSec d))%float d)
  else
    let error := (Z2D (sub64 now (dd_nextTime data)) * 1.0e-9)%float in
    if (0.2 <=? abs error)%float then
      let slewFrames := round_to_int (error * Z2D (pb_sampleRate p))%float in
      buffer_consume true slewFrames ;;
      modDevice (set_dd_periodSec (Z2D frames / Z2D (pb_sampleRate p))%float) ;;
      modDevice (fun d =>
        set_dd_nextTime (add64 now (llrint (dd_periodSec d * 1.0e9)%float)) d) ;;
      modDevice (fun d =>
        set_dd_nextPosition
          (add64 (dd_nextPosition d) (add32 slewFrames frames)) d)
    else
      modDevice (fun d =>
        set_dd_nextTime
          (add64 (dd_nextTime d)
             (llrint ((dd_b d * error + dd_periodSec d) * 1.0e9)%float)) d) ;;
      modDevice (fun d =>
        set_dd_periodSec (dd_periodSec d + dd_c d * error)%float d) ;;
      modDevice (fun d => set_dd_nextPosition (add64 (dd_nextPosition d) frames) d).

(** Lines 270-276: post the tick to the Spice thread. *)
Definition postTick : M unit :=
  data <- getDevice ;;
  p <- getPlayback ;;
  match pb_deviceTiming p with
  | None => nullDeref
  | Some q =>
      let tick := {| tick_periodFrames := dd_periodFrames data;
                     tick_nextTime     := dd_nextTime data;
                     tick_nextPosition := dd_nextPosition data |} in
      modPlayback (set_pb_deviceTiming (Some (tickQueue_append tick q)))
  end.

(** Lines 214-281: everything between the guard on [frames] and the
    drain check; yields the value of [frames] at line 283. *)
Definition pullBody (now : Z) (frames : Z) : M Z :=
  p <- getPlayback ;;
  if isSome (pb_buffer p) then
    deviceClock now frames ;;
    postTick ;;
    buffer_consume false frames ;;
    ret frames
  else ret 0.

(** Lines 283-285: stop the stream once it has drained. *)
Definition drainCheck : M unit :=
  p <- getPlayback ;;
  if StreamState_eqb (pb_state p) STREAM_STATE_DRAIN then
    count <- buffer_getCount ;;
    if count <=? 0 then playbackStop else skip
  else skip.

Definition playbackPullFrames (now : Z) (frames : Z) : M Z :=
  if frames =? 0 then ret frames
  else
    frames <- pullBody now frames ;;
    drainCheck ;;
    ret frames.

(** ** [audio_init], [audio_free], [audio_supportsPlayback]
       (audio.c:140-170) *)

(** [chosen] is the first backend of [LG_AudioDevs] whose [init()]
    succeeds, if there is one. *)
Definition audio_init (chosen : option LG_AudioDevOps) : M unit :=
  match chosen with
  | Some ops => modify (set_audioDev (Some ops))
  | None => skip
  end.

Definition audio_supportsPlayback : M bool :=
  w <- get ;;
  ret (match audioDev w with
       | Some ops => ops_playback_start ops
       | None => false
       end).

(** ** [audio_playbackStart] (audio.c:290-355)

    [src_new_ok] tells whether [src_new] returns a resampler, and
    [maxPeriodFrames] is what the backend's [setup] stores through its
    third argument.  The arguments [format] and [time] are not used by the
    source. *)
Definition audio_playbackStart (src_new_ok : bool) (maxPeriodFrames : Z)
    (channels sampleRate : Z) : M unit :=
  w <- get ;;
  if negb (isSome (audioDev w)) then ret tt
  else
    (if negb (StreamState_eqb (pb_state (playback w)) STREAM_STATE_STOP)
     then playbackStop else skip) ;;
    call (EvSrcNew channels) ;;
    modSpice (set_sd_src (if src_new_ok then Live else NULL)) ;;
    if negb src_new_ok then call EvDebugError
    else
      call (EvRingNew TheBuffer) ;;
      modPlayback (set_pb_buffer (Some ringbuffer_newUnbounded)) ;;
      call (EvRingNew TheDeviceTiming) ;;
      modPlayback (set_pb_deviceTiming (Some [])) ;;
      modPlayback (set_pb_channels channels) ;;
      modPlayback (set_pb_sampleRate sampleRate) ;;
      modPlayback (set_pb_stride (mul32 channels 4)) ;;
      modPlayback (set_pb_state STREAM_STATE_SETUP) ;;
      modDevice (set_dd_periodFrames 0) ;;
      modDevice (set_dd_nextPosition 0) ;;
      modSpice (set_sd_periodFrames 0) ;;
      modSpice (set_sd_nextPosition 0) ;;
      modSpice (set_sd_devLastTime INT64_MIN) ;;
      modSpice (set_sd_devNextTime INT64_MIN) ;;
      modSpice (set_sd_offsetError 0.0%float) ;;
      modSpice (set_sd_offsetErrorIntegral 0.0%float) ;;
      modSpice (set_sd_ratioIntegral 0.0%float) ;;
      modPlayback (set_pb_deviceMaxPeriodFrames 0) ;;
      devCall provided (EvPlaybackSetup channels sampleRate) ;;
      modPlayback (set_pb_deviceMaxPeriodFrames maxPeriodFrames) ;;
      p <- getPlayback ;;
      (if negb (pb_volumeChannels p =? 0) then
         devCall ops_playback_volume
           (EvPlaybackVolume (pb_volumeChannels p) (pb_volume p))
       else skip) ;;
      w <- get ;;
      (match audioDev w with
       | Some ops =>
           if ops_playback_mute ops
           then call (EvPlaybackMute (pb_mute (playback w)))
           else skip
       | None => nullDeref
       end) ;;
      call (EvRingNew TheTimings) ;;
      modPlayback (set_pb_timings (Some [])) ;;
      call EvRegisterGraph ;;
      modPlayback (set_pb_graph Live) ;;
      modPlayback (set_pb_state STREAM_STATE_SETUP).

(** ** [audio_playbackStop] (audio.c:357-364) *)
Definition audio_playbackStop : M unit :=
  w <- get ;;
  if negb (isSome (audioDev w))
     || StreamState_eqb (pb_state (playback w)) STREAM_STATE_STOP
  then ret tt
  else modPlayback (set_pb_state STREAM_STATE_DRAIN).

(** [memcpy(dst, src, sizeof(uint16_t) * n)] on arrays of 16-bit levels;
    an element read past the end of [src] is taken to be [0]. *)
Definition memcpy (dst src : list Z) (n : nat) : list Z :=
  firstn n (src ++ repeat 0 n) ++ skipn n dst.

Definition has_playback_start (w : AudioState) : bool :=
  match audioDev w with Some ops => ops_playback_start ops | None => false end.
Definition has_record_start (w : AudioState) : bool :=
  match audioDev w with Some ops => ops_record_start ops | None => false end.
Definition has_playback_volume (w : AudioState) : bool :=
  match audioDev w with Some ops => ops_playback_volume ops | None => false end.
Definition has_playback_mute (w : AudioState) : bool :=
  match audioDev w with Some ops => ops_playback_mute ops | None => false end.
Definition has_playback_latency (w : AudioState) : bool :=
  match audioDev w with Some ops => ops_playback_latency ops | None => false end.
Definition has_record_volume (w : AudioState) : bool :=
  match audioDev w with Some ops => ops_record_volume ops | None => false end.
Definition has_record_mute (w : AudioState) : bool :=
  match audioDev w with Some ops => ops_record_mute ops | None => false end.

(** [min(ARRAY_LENGTH(volume), channels)], with [length] the number of
    elements of the array.  [min] and [ARRAY_LENGTH] are macros of the
    common headers; [ARRAY_LENGTH] is a [size_t], so the two are compared
    as [size_t], where a negative [int] is a value above every array
    length: the result is [length] for a negative count and the smaller
    of the two otherwise. *)
Definition min_ARRAY_LENGTH (length channels : Z) : Z :=
  if channels <? 0 then length else Z.min length channels.

(** ** [audio_playbackVolume], [audio_playbackMute] (audio.c:366-393) *)
Definition audio_playbackVolume (channels : Z) (volume : list Z) : M unit :=
  w <- get ;;
  if negb (has_playback_volume w) then ret tt
  else
    let channels := min_ARRAY_LENGTH 8 channels in
    modPlayback (fun p =>
      set_pb_volume (memcpy (pb_volume p) volume (Z.to_nat channels)) p) ;;
    modPlayback (set_pb_volumeChannels channels) ;;
    p <- getPlayback ;;
    if negb (STREAM_ACTIVE (pb_state p)) then ret tt
    else call (EvPlaybackVolume channels volume).

Definition audio_playbackMute (mute : bool) : M unit :=
  w <- get ;;
  if negb (has_playback_mute w) then ret tt
  else
    modPlayback (set_pb_mute mute) ;;
    p <- getPlayback ;;
    if negb (STREAM_ACTIVE (pb_state p)) then ret tt
    else call (EvPlaybackMute mute).

(** ** [audio_playbackData] (audio.c:395-635) *)

(** What the collaborators answer during one call: the clock, the two
    [malloc]s of lines 420 and 430, [src_process] on its [n]-th call of
    this period, and the backend's [latency()]. *)
Record DataEnv : Type := {
  env_now             : Z;
  env_malloc_framesIn : bool;
  env_malloc_framesOut : bool;
  env_src_process     : nat -> SRC_DATA -> SRC_RESULT;
  env_latency         : Z
}.

(** The [return] through which the function is left; the last two carry
    the local [consumed] at that point. *)
Inductive DataExit : Type :=
| ExitNoData                         (* line 398 *)
| ExitInactive                       (* line 401 *)
| ExitMallocFramesIn                 (* line 425 *)
| ExitMallocFramesOut                (* line 435 *)
| ExitResampleFailed (consumed : Z)  (* line 603 *)
| ExitEnd (consumed : Z).            (* line 635 *)

(** Lines 412-437: resize the scratch buffers.  [Some e] when the
    function returns from within the block. *)
Definition resizeScratch (env : DataEnv) (frames : Z) : M (option DataExit) :=
  sd <- getSpice ;;
  (if nonnull (sd_framesIn sd) then
     free_scratch FramesIn ;;
     free_scratch FramesOut
   else skip) ;;
  modSpice (set_sd_periodFrames frames) ;;
  p <- getPlayback ;;
  call (EvMalloc FramesIn (mul32 frames (pb_stride p))) ;;
  modSpice (set_sd_framesIn (if env_malloc_framesIn env then Live else NULL)) ;;
  sd <- getSpice ;;
  if negb (nonnull (sd_framesIn sd)) then
    call EvDebugError ;;
    playbackStop ;;
    ret (Some ExitMallocFramesIn)
  else
    modSpice (set_sd_framesOutSize (round_to_int (Z2D frames * 1.1)%float)) ;;
    sd <- getSpice ;;
    call (EvMalloc FramesOut (mul32 (sd_framesOutSize sd) (pb_stride p))) ;;
    modSpice (set_sd_framesOut (if env_malloc_framesOut env then Live else NULL)) ;;
    sd <- getSpice ;;
    if negb (nonnull (sd_framesOut sd)) then
      call EvDebugError ;;
      playbackStop ;;
      ret (Some ExitMallocFramesOut)
    else ret None.

(** Lines 446-450: the body of the loop that receives the device ticks. *)
Definition receiveTick (s : PlaybackSpiceData) (deviceTick : PlaybackDeviceTick)
    : PlaybackSpiceData :=
  let s := set_sd_devPeriodFrames (tick_periodFrames deviceTick) s in
  let s := set_sd_devLastTime (sd_devNextTime s) s in
  let s := set_sd_devLastPosition (sd_devNextPosition s) s in
  let s := set_sd_devNextTime (tick_nextTime deviceTick) s in
  set_sd_devNextPosition (tick_nextPosition deviceTick) s.

(** Lines 443-451: consume ticks one at a time until the queue is empty. *)
Definition receiveTicks : M unit :=
  p <- getPlayback ;;
  match pb_deviceTiming p with
  | None => nullDeref
  | Some q =>
      modSpice (fun s => fold_left receiveTick q s) ;;
      modPlayback (set_pb_deviceTiming (Some []))
  end.

(** Lines 453-498: measure the Spice audio clock; yields
    [(curTime, curPosition)]. *)
Definition spiceClock (now frames : Z) (periodChanged init : bool)
    : M (Z * Z) :=
  p <- getPlayback ;;
  if periodChanged then
    (if init then modSpice (set_sd_nextTime now) else skip) ;;
    sd <- getSpice ;;
    let curTime := sd_nextTime sd in
    let curPosition := sd_nextPosition sd in
    modSpice (set_sd_periodSec (Z2D frames / Z2D (pb_sampleRate p))%float) ;;
    modSpice (fun s =>
      set_sd_nextTime
        (add64 (sd_nextTime s) (llrint (sd_periodSec s * 1.0e9)%float)) s) ;;
    modSpice (fun s => set_sd_b (M_SQRT2 * omega (sd_periodSec s))%float s) ;;
    modSpice (fun s =>
      set_sd_c (omega (sd_periodSec s) * omega (sd_periodSec s))%float s) ;;
    ret (curTime, curPosition)
  else
    sd <- getSpice ;;
    let error := (Z2D (sub64 now (sd_nextTime sd)) * 1.0e-9)%float in
    if (0.2 <=? abs error)%float then
      let slewFrames := round_to_int (error * Z2D (pb_sampleRate p))%float in
      buffer_append true slewFrames ;;
      let curTime := now in
      let curPosition := add64 (sd_nextPosition sd) slewFrames in
      modSpice (set_sd_periodSec (Z2D frames / Z2D (pb_sampleRate p))%float) ;;
      modSpice (fun s =>
        set_sd_nextTime (add64 now (llrint (sd_periodSec s * 1.0e9)%float)) s) ;;
      modSpice (set_sd_nextPosition curPosition) ;;
      ret (curTime, curPosition)
    else
      let curTime := sd_nextTime sd in
      let curPosition := sd_nextPosition sd in
      modSpice (fun s =>
        set_sd_nextTime
          (add64 (sd_nextTime s)
             (llrint ((sd_b s * error + sd_periodSec s) * 1.0e9)%float)) s) ;;
      modSpice (fun s =>
        set_sd_periodSec (sd_periodSec s + sd_c s * error)%float s) ;;
      ret (curTime, curPosition).

(** Lines 522-562: the target latency in frames. *)
Definition spiceJitterMs : Z := 13.

Definition targetLatencyFrames (sampleRate deviceMaxPeriodFrames
    devPeriodFrames : Z) : float :=
  let target :=
    (Z2D (mul32 spiceJitterMs sampleRate) / 1000.0
     + Z2D deviceMaxPeriodFrames * 1.1)%float in
  if devPeriodFrames <? deviceMaxPeriodFrames then
    (target + Z2D (sub32 deviceMaxPeriodFrames devPeriodFrames))%float
  else target.

(** Lines 505-571: the filtered offset error; yields [actualOffset].
    [offsetError] is the local of line 506. *)
Definition measureOffset (curTime curPosition : Z) (offsetError : float)
    : M float :=
  sd <- getSpice ;;
  p <- getPlayback ;;
  if negb (sd_devLastTime sd =? INT64_MIN) then
    let devPosition :=
      (Z2D (sd_devLastPosition sd)
       + Z2D (sub64 (sd_devNextPosition sd) (sd_devLastPosition sd))
         * (Z2D (sub64 curTime (sd_devLastTime sd))
            / Z2D (sub64 (sd_devNextTime sd) (sd_devLastTime sd))))%float in
    let target :=
      targetLatencyFrames (pb_sampleRate p) (pb_deviceMaxPeriodFrames p)
        (sd_devPeriodFrames sd) in
    let actualOffset := (Z2D curPosition - devPosition)%float in
    let actualOffsetError := (- (actualOffset - target))%float in
    let error := (actualOffsetError - offsetError)%float in
    modSpice (fun s =>
      set_sd_offsetError
        (sd_offsetError s + (sd_b s * error + sd_offsetErrorIntegral s))%float s) ;;
    modSpice (fun s =>
      set_sd_offsetErrorIntegral
        (sd_offsetErrorIntegral s + sd_c s * error)%float s) ;;
    ret actualOffset
  else ret 0.0%float.

(** Lines 575-581: the PI controller; yields [ratio]. *)
Definition kp : float := 0.5e-6%float.
Definition ki : float := 1.0e-16%float.

Definition resampleRatio (offsetError : float) : M float :=
  modSpice (fun s =>
    set_sd_ratioIntegral
      (sd_ratioIntegral s + offsetError * sd_periodSec s)%float s) ;;
  sd <- getSpice ;;
  let piOutput := (kp * offsetError + ki * sd_ratioIntegral sd)%float in
  ret (1.0 + piOutput)%float.

(** Lines 583-611: drive the resampler.  [n] counts the calls made to
    [src_process] so far; the result is [inl consumed] when the function
    returns at line 603 and [inr consumed] when the loop is left. *)
Fixpoint resampleLoop (fuel : nat) (env : DataEnv) (frames : Z)
    (ratio : float) (n : nat) (consumed : Z) : M (Z + Z) :=
  if consumed <? frames then
    match fuel with
    | O => outOfFuel
    | S fuel =>
        p <- getPlayback ;;
        sd <- getSpice ;;
        let srcData :=
          {| src_data_in       := mul32 consumed (pb_channels p);
             src_input_frames  := sub32 frames consumed;
             src_output_frames := sd_framesOutSize sd;
             src_end_of_input  := 0;
             src_ratio         := ratio |} in
        call (EvSrcProcess srcData) ;;
        let result := env_src_process env n srcData in
        if negb (src_error result =? 0) then
          call EvDebugError ;;
          ret (inl consumed)
        else
          buffer_append false (i32 (src_output_frames_gen result)) ;;
          let consumed := i32 (consumed + src_input_frames_used result) in
          modSpice (fun s =>
            set_sd_nextPosition
              (add64 (sd_nextPosition s) (src_output_frames_gen result)) s) ;;
          resampleLoop fuel env frames ratio (S n) consumed
    end
  else ret (inr consumed).

(** Lines 613-626: start the device once enough data is buffered. *)
Definition startGate : M unit :=
  p <- getPlayback ;;
  if StreamState_eqb (pb_state p) STREAM_STATE_SETUP then
    sd <- getSpice ;;
    let startFrames :=
      add32 (mul32 (sd_periodFrames sd) 2)
            (mul32 (pb_deviceMaxPeriodFrames p) 2) in
    if startFrames <=? sd_nextPosition sd then
      devCall ops_playback_start EvPlaybackStart ;;
      modPlayback (set_pb_state STREAM_STATE_RUN)
    else skip
  else skip.

(** Lines 628-634: publish the latency to the graph. *)
Definition publishLatency (env : DataEnv) (actualOffset : float) : M unit :=
  w <- get ;;
  let latencyFrames :=
    if has_playback_latency w
    then (actualOffset + Z2D (env_latency env))%float
    else actualOffset in
  let latency :=
    D2F (latencyFrames * 1000.0 / Z2D (pb_sampleRate (playback w)))%float in
  match pb_timings (playback w) with
  | None => nullDeref
  | Some q =>
      modPlayback (set_pb_timings (Some (ringbuffer_push latency q))) ;;
      call EvInvalidateGraph
  end.

(** [size] is a [size_t] and never negative; the division of line 408 is
    the one of [Z] (a stream can only be active with [channels >= 1],
    since [src_new] refuses anything less). *)
Definition audio_playbackData (fuel : nat) (env : DataEnv) (size : Z)
    : M DataExit :=
  w <- get ;;
  if negb (isSome (audioDev w)) || (size =? 0) then ret ExitNoData
  else if negb (STREAM_ACTIVE (pb_state (playback w))) then ret ExitInactive
  else
    let now := env_now env in
    p <- getPlayback ;;
    sd <- getSpice ;;
    let spiceStride := mul32 (pb_channels p) 2 in
    let frames := i32 (size / spiceStride) in
    let periodChanged := negb (frames =? sd_periodFrames sd) in
    let init := sd_periodFrames sd =? 0 in
    resized <- (if periodChanged then resizeScratch env frames else ret None) ;;
    match resized with
    | Some e => ret e
    | None =>
        call (EvShortToFloat (mul32 frames (pb_channels p))) ;;
        receiveTicks ;;
        cur <- spiceClock now frames periodChanged init ;;
        let '(curTime, curPosition) := cur in
        sd <- getSpice ;;
        let offsetError := sd_offsetError sd in
        actualOffset <- measureOffset curTime curPosition offsetError ;;
        ratio <- resampleRatio offsetError ;;
        resampled <- resampleLoop fuel env frames ratio O 0 ;;
        match resampled with
        | inl consumed => ret (ExitResampleFailed consumed)
        | inr consumed =>
            startGate ;;
            publishLatency env actualOffset ;;
            ret (ExitEnd consumed)
        end
    end.

(** ** The record surface (audio.c:637-717) *)

Definition audio_supportsRecord : M bool :=
  w <- get ;;
  ret (match audioDev w with
       | Some ops => ops_record_start ops
       | None => false
       end).

Definition recordPushFrames (frames : Z) : M unit :=
  r <- getRecord ;;
  call (EvWriteAudio (mul32 frames (rec_stride r))).

(** Lines 663-678: (re)start the backend's record stream. *)
Definition recordConfigure (channels sampleRate : Z) : M unit :=
  modify (set_lastChannels channels) ;;
  modify (set_lastSampleRate sampleRate) ;;
  modRecord (set_rec_started true) ;;
  modRecord (set_rec_stride (mul32 channels 2)) ;;
  devCall ops_record_start (EvRecordStart channels sampleRate) ;;
  w <- get ;;
  (if negb (rec_volumeChannels (record w) =? 0) then
     devCall ops_record_volume
       (EvRecordVolume (pb_volumeChannels (playback w))
                       (pb_volume (playback w)))
   else skip) ;;
  (if has_record_mute w then
     call (EvRecordMute (pb_mute (playback w)))
   else skip).

(** [format] is not used by the source. *)
Definition audio_recordStart (channels sampleRate : Z) : M unit :=
  w <- get ;;
  if negb (isSome (audioDev w)) then ret tt
  else if rec_started (record w) then
    if negb (channels =? lastChannels w)
       || negb (sampleRate =? lastSampleRate w)
    then
      devCall provided EvRecordStop ;;
      recordConfigure channels sampleRate
    else ret tt
  else recordConfigure channels sampleRate.

Definition audio_recordStop : M unit :=
  w <- get ;;
  if negb (isSome (audioDev w)) || negb (rec_started (record w)) then ret tt
  else
    devCall provided EvRecordStop ;;
    modRecord (set_rec_started false).

Definition audio_recordVolume (channels : Z) (volume : list Z) : M unit :=
  w <- get ;;
  if negb (has_record_volume w) then ret tt
  else
    let channels := min_ARRAY_LENGTH 8 channels in
    modRecord (fun r =>
      set_rec_volume (memcpy (rec_volume r) volume (Z.to_nat channels)) r) ;;
    modRecord (set_rec_volumeChannels channels) ;;
    r <- getRecord ;;
    if negb (rec_started r) then ret tt
    else call (EvRecordVolume channels volume).

Definition audio_recordMute (mute : bool) : M unit :=
  w <- get ;;
  if negb (has_record_mute w) then ret tt
  else
    modRecord (set_rec_mute mute) ;;
    r <- getRecord ;;
    if negb (rec_started r) then ret tt
    else call (EvRecordMute mute).

(** ** [audio_free] (audio.c:154-165) *)
Definition audio_free : M unit :=
  w <- get ;;
  if negb (isSome (audioDev w)) then ret tt
  else
    playbackStop ;;
    audio_recordStop ;;
    call EvAudioDevFree ;;
    modify (set_audioDev None).

(** The state of the program at start-up: [static AudioState audio = { 0 }]
    and the two zero-initialised statics of [audio_recordStart]. *)
Definition zeroDeviceData : PlaybackDeviceData :=
  {| dd_periodFrames := 0; dd_periodSec := 0.0%float; dd_nextTime := 0;
     dd_nextPosition := 0; dd_b := 0.0%float; dd_c := 0.0%float |}.

Definition zeroSpiceData : PlaybackSpiceData :=
  {| sd_framesIn := NULL; sd_framesOut := NULL; sd_framesOutSize := 0;
     sd_periodFrames := 0; sd_periodSec := 0.0%float; sd_nextTime := 0;
     sd_nextPosition := 0; sd_b := 0.0%float; sd_c := 0.0%float;
     sd_devPeriodFrames := 0; sd_devLastTime := 0; sd_devNextTime := 0;
     sd_devLastPosition := 0; sd_devNextPosition := 0;
     sd_offsetError := 0.0%float; sd_offsetErrorIntegral := 0.0%float;
     sd_ratioIntegral := 0.0%float; sd_src := NULL |}.

Definition zeroVolume : list Z := repeat 0 8.

Definition initialAudio : AudioState :=
  {| audioDev := None;
     playback :=
       {| pb_state := STREAM_STATE_STOP; pb_volumeChannels := 0;
          pb_volume := zeroVolume; pb_mute := false; pb_channels := 0;
          pb_sampleRate := 0; pb_stride := 0; pb_deviceMaxPeriodFrames := 0;
          pb_buffer := None; pb_deviceTiming := None; pb_timings := None;
          pb_graph := NULL; pb_deviceData := zeroDeviceData;
          pb_spiceData := zeroSpiceData |};
     record :=
       {| rec_started := false; rec_volumeChannels := 0;
          rec_volume := zeroVolume; rec_mute := false; rec_stride := 0;
          rec_time := 0 |};
     lastChannels := 0;
     lastSampleRate := 0;
     calls := [] |}.

(** ** Worked states

    A backend with every optional callback, a well-behaved resampler and
    a short session, used to exercise the statements below. *)

Definition demoOps : LG_AudioDevOps :=
  {| ops_playback_start := true; ops_playback_volume := true;
     ops_playback_mute := true; ops_playback_latency := true;
     ops_record_start := true; ops_record_volume := true;
     ops_record_mute := true |}.

(** A resampler that takes all the input offered and returns as many
    frames, as far as they fit the output buffer. *)
Definition passthrough (n : nat) (d : SRC_DATA) : SRC_RESULT :=
  {| src_error := 0;
     src_input_frames_used := src_input_frames d;
     src_output_frames_gen := Z.min (src_input_frames d) (src_output_frames d) |}.

Definition demoEnv (now : Z) : DataEnv :=
  {| env_now := now; env_malloc_framesIn := true;
     env_malloc_framesOut := true; env_src_process := passthrough;
     env_latency := 0 |}.

Definition exec {A : Type} (m : M A) (w : AudioState) : AudioState :=
  match m w with Ok _ w' => w' | _ => w end.

(** After [audio_init] and [audio_playbackStart(2, 48000, ...)] on a
    device whose largest period is 1024 frames. *)
Definition w_setup : AudioState :=
  Eval vm_compute in
    exec (audio_playbackStart true 1024 2 48000)
      (exec (audio_init (Some demoOps)) initialAudio).

(** Four source periods of 960 frames, 20 ms apart: 3840 frames are
    buffered and the stream is still in SETUP. *)
Definition w_primed : AudioState :=
  Eval vm_compute in
    let data t w := exec (audio_playbackData 4 (demoEnv t) 3840) w in
    data 1060000000
      (data 1040000000 (data 1020000000 (data 1000000000 w_setup))).

(** The fifth period starts the device. *)
Definition w_started : AudioState :=
  Eval vm_compute in
    exec (audio_playbackData 4 (demoEnv 1080000000) 3840) w_primed.

(** Two pulls of 1024 frames. *)
Definition w_running : AudioState :=
  Eval vm_compute in
    let pull t w := exec (playbackPullFrames t 1024) w in
    pull 1102000000 (pull 1081000000 w_started).

(** The sink pulls 1024 frames while the stream is still in SETUP. *)
Definition w_pulled_early : AudioState :=
  Eval vm_compute in exec (playbackPullFrames 1070000000 1024) w_primed.

(** One more source period, which receives the two ticks of the pulls. *)
Definition w_tracking : AudioState :=
  Eval vm_compute in
    exec (audio_playbackData 4 (demoEnv 1100000000) 3840) w_running.

(** The device pulls 256 instead of 1024 frames, and the next source
    period receives that tick. *)
Definition w_reduced : AudioState :=
  Eval vm_compute in
    exec (audio_playbackData 960 (demoEnv 1120000000) 3840)
      (exec (playbackPullFrames 1119000000 256) w_tracking).

(** [audio_playbackStop] was called while 3712 frames were buffered. *)
Definition w_draining : AudioState :=
  Eval vm_compute in exec audio_playbackStop w_tracking.


(** Three more pulls of 1024 frames leave 640 frames in the buffer. *)
Definition w_nearly_drained : AudioState :=
  Eval vm_compute in
    let pull t w := exec (playbackPullFrames t 1024) w in
    pull 1166000000 (pull 1145000000 (pull 1123000000 w_draining)).

(** The session behind C9: a record volume and a record mute are cached,
    no playback volume or mute was ever set. *)
Definition w_record_cached : AudioState :=
  Eval vm_compute in
    exec (audio_recordMute true)
      (exec (audio_recordVolume 2 [100; 200])
         (exec (audio_init (Some demoOps)) initialAudio)).

(** * Properties *)

(** ** Basic facts about the monad and the integers *)

Lemma bind_Ok_inv {A B : Type} (m : M A) (k : A -> M B) w b w'' :
  bind m k w = Ok b w'' ->
  exists a w', m w = Ok a w' /\ k a w' = Ok b w''.
Proof.
  unfold bind. destruct (m w) as [a w'| |]; try discriminate.
  intros H. exists a, w'. split; [reflexivity | exact H].
Qed.

Lemma bind_Ok {A B : Type} (m : M A) (k : A -> M B) w a w' :
  m w = Ok a w' -> bind m k w = k a w'.
Proof. unfold bind. intros ->. reflexivity. Qed.

Lemma StreamState_eqb_eq a b : StreamState_eqb a b = true <-> a = b.
Proof. destruct a, b; simpl; split; congruence. Qed.

Lemma StreamState_eqb_neq a b : StreamState_eqb a b = false <-> a <> b.
Proof. destruct a, b; simpl; split; congruence. Qed.

Lemma i32_small z : INT32_MIN <= z <= INT32_MAX -> i32 z = z.
Proof.
  unfold i32, wrap, INT32_MIN, INT32_MAX. intros H.
  rewrite Z.mod_small; lia.
Qed.

Lemma i64_small z : INT64_MIN <= z <= INT64_MAX -> i64 z = z.
Proof.
  unfold i64, wrap, INT64_MIN, INT64_MAX. intros H.
  rewrite Z.mod_small; lia.
Qed.

Lemma i64_add_l a b : i64 (i64 a + b) = i64 (a + b).
Proof.
  unfold i64, wrap.
  replace (((a + 2 ^ (64 - 1)) mod 2 ^ 64 - 2 ^ (64 - 1)) + b + 2 ^ (64 - 1))
    with ((a + 2 ^ (64 - 1)) mod 2 ^ 64 + b) by lia.
  rewrite Zplus_mod_idemp_l. f_equal. f_equal. lia.
Qed.

(** The numeric primitives stay folded during simplification. *)
Arguments Z2D : simpl never.
Arguments llrint : simpl never.
Arguments round_to_int : simpl never.
Arguments add64 : simpl never.
Arguments add32 : simpl never.
Arguments sub64 : simpl never.
Arguments sub32 : simpl never.
Arguments mul32 : simpl never.
Arguments i32 : simpl never.
Arguments i64 : simpl never.
Arguments omega : simpl never.
Arguments M_SQRT2 : simpl never.
Arguments M_PI : simpl never.
Arguments INT32_MIN : simpl never.
Arguments INT32_MAX : simpl never.
Arguments INT64_MIN : simpl never.
Arguments INT64_MAX : simpl never.
Arguments kp : simpl never.
Arguments ki : simpl never.
Arguments targetLatencyFrames : simpl never.

(** ** Reasoning rules for [M] *)

(** Partial: every return of the computation relates the state before
    to the state after by [R]. *)
Definition respects {A : Type} (R : relation AudioState) (m : M A) : Prop :=
  forall w a w', m w = Ok a w' -> R w w'.

(** The states agree on a projection. *)
Definition same {X : Type} (proj : AudioState -> X) : relation AudioState :=
  fun w w' => proj w' = proj w.

#[export] Instance same_PreOrder {X : Type} (proj : AudioState -> X) :
  PreOrder (same proj).
Proof.
  split.
  - intros w. reflexivity.
  - intros w1 w2 w3 H12 H23. unfold same in *. congruence.
Qed.

Abbreviation preserves proj := (respects (same proj)).

(** Total: from [P] the computation returns, with a value and in a state
    that satisfy [Q]. *)
Definition returns {A : Type} (P : AudioState -> Prop) (m : M A)
    (Q : A -> AudioState -> Prop) : Prop :=
  forall w, P w -> exists a w', m w = Ok a w' /\ Q a w'.

Section Rules.
Context {R : relation AudioState} `{!PreOrder R}.

Lemma respects_ret {A} (a : A) : respects R (ret a).
Proof. intros w a' w' H. inversion H. reflexivity. Qed.

Lemma respects_gets {A} (f : AudioState -> A) : respects R (gets f).
Proof. intros w a' w' H. inversion H. reflexivity. Qed.

Lemma respects_nullDeref {A} : respects R (@nullDeref A).
Proof. intros w a' w' H. discriminate. Qed.

Lemma respects_outOfFuel {A} : respects R (@outOfFuel A).
Proof. intros w a' w' H. discriminate. Qed.

Lemma respects_modify f : (forall w, R w (f w)) -> respects R (modify f).
Proof. intros Hf w a' w' H. inversion H. apply Hf. Qed.

Lemma respects_bind {A B} (m : M A) (k : A -> M B) :
  respects R m -> (forall a, respects R (k a)) -> respects R (bind m k).
Proof.
  intros Hm Hk w b w'' H. apply bind_Ok_inv in H.
  destruct H as (a & w' & H1 & H2).
  transitivity w'; [eapply Hm | eapply Hk]; eauto.
Qed.
End Rules.

Lemma returns_ret {A} (P : AudioState -> Prop) (a : A) :
  returns P (ret a) (fun _ => P).
Proof. intros w H. exists a, w. split; [reflexivity|assumption]. Qed.

Lemma returns_gets {A} (P : AudioState -> Prop) (f : AudioState -> A) :
  returns P (gets f) (fun _ => P).
Proof. intros w H. exists (f w), w. split; [reflexivity|assumption]. Qed.

Lemma returns_modify (P Q : AudioState -> Prop) f :
  (forall w, P w -> Q (f w)) -> returns P (modify f) (fun _ => Q).
Proof. intros Hf w H. exists tt, (f w). split; [reflexivity|auto]. Qed.

Lemma returns_bind {A B} (P : AudioState -> Prop)
    (R : A -> AudioState -> Prop) (Q : B -> AudioState -> Prop)
    (m : M A) (k : A -> M B) :
  returns P m R -> (forall a, returns (R a) (k a) Q) ->
  returns P (bind m k) Q.
Proof.
  intros Hm Hk w H. destruct (Hm w H) as (a & w' & H1 & H2).
  destruct (Hk a w' H2) as (b & w'' & H3 & H4).
  exists b, w''. split; [|assumption].
  rewrite (bind_Ok _ _ _ _ _ H1). exact H3.
Qed.

Lemma returns_weaken {A} (P P' : AudioState -> Prop)
    (Q Q' : A -> AudioState -> Prop) (m : M A) :
  returns P m Q -> (forall w, P' w -> P w) ->
  (forall a w, Q a w -> Q' a w) -> returns P' m Q'.
Proof.
  intros Hm HP HQ w H. destruct (Hm w (HP w H)) as (a & w' & H1 & H2). eauto.
Qed.

Create HintDb pres.
Create HintDb rets.

Ltac unfold_prims :=
  progress cbv [skip get call getPlayback getDevice getSpice getRecord
         modPlayback modDevice modSpice modRecord
         ringbuffer_free free_scratch].

(** [resp_tac side] walks through a computation; [side] proves that a
    single assignment respects the relation. *)
Ltac resp_step side :=
  first
    [ apply respects_ret | apply respects_gets
    | apply respects_nullDeref | apply respects_outOfFuel
    | solve [auto with pres nocore]
    | apply respects_bind; [| intros ?]
    | apply respects_modify; intros; side
    | match goal with |- respects _ (if ?b then _ else _) => destruct b end
    | match goal with |- respects _ (match ?x with _ => _ end) => destruct x end
    | progress cbv beta zeta
    | unfold_prims
    | progress cbv [devCall buffer_append buffer_consume buffer_getCount] ].
Ltac resp_tac side := repeat (resp_step side).
Ltac pres_tac := resp_tac ltac:(reflexivity).

(** Every ring and the backend are there. *)
Definition ready (w : AudioState) : Prop :=
  isSome (audioDev w) = true
  /\ isSome (pb_buffer (playback w)) = true
  /\ isSome (pb_deviceTiming (playback w)) = true
  /\ isSome (pb_timings (playback w)) = true.

Ltac ready_cases w H :=
  let ops := fresh "ops" in let rb := fresh "rb" in
  let q := fresh "q" in let tq := fresh "tq" in
  let Hdev := fresh "Hdev" in let Hbuf := fresh "Hbuf" in
  let Hq := fresh "Hq" in let Htq := fresh "Htq" in
  destruct H as (Hdev & Hbuf & Hq & Htq);
  destruct (audioDev w) as [ops|] eqn:?; [|discriminate Hdev];
  destruct (pb_buffer (playback w)) as [rb|] eqn:?; [|discriminate Hbuf];
  destruct (pb_deviceTiming (playback w)) as [q|] eqn:?; [|discriminate Hq];
  destruct (pb_timings (playback w)) as [tq|] eqn:?; [|discriminate Htq].

Lemma returns_devCall e : returns ready (devCall provided e) (fun _ => ready).
Proof.
  intros w H. ready_cases w H. unfold devCall, bind, get, gets. rewrite Heqo.
  eexists _, _. split; [reflexivity|]. cbn. unfold ready; cbn. rewrite Heqo, Heqo0, Heqo1, Heqo2. auto.
Qed.

Definition deviceDataOf (w : AudioState) : PlaybackDeviceData :=
  pb_deviceData (playback w).
Definition spiceDataOf (w : AudioState) : PlaybackSpiceData :=
  pb_spiceData (playback w).
Definition stateOf (w : AudioState) : StreamState := pb_state (playback w).

Ltac ready_solve :=
  unfold ready in *; cbn;
  repeat match goal with H : _ = Some _ |- _ => rewrite H end; cbn; auto.

Ltac run_prim :=
  cbv [bind ret gets get modify call devCall getPlayback getDevice getSpice
       getRecord modPlayback modDevice modSpice modRecord skip];
  cbn;
  repeat match goal with H : _ = Some _ |- _ => rewrite H; cbn end.

Lemma returns_buffer_append b n :
  returns ready (buffer_append b n) (fun _ => ready).
Proof.
  intros w H. ready_cases w H. unfold buffer_append. run_prim.
  eexists _, _. split; [reflexivity|]. ready_solve.
Qed.
Lemma returns_buffer_consume b n :
  returns ready (buffer_consume b n) (fun _ => ready).
Proof.
  intros w H. ready_cases w H. unfold buffer_consume. run_prim.
  eexists _, _. split; [reflexivity|]. ready_solve.
Qed.
Lemma returns_buffer_getCount :
  returns ready buffer_getCount (fun _ => ready).
Proof.
  intros w H. ready_cases w H. unfold buffer_getCount. run_prim.
  eexists _, _. split; [reflexivity|]. ready_solve.
Qed.
Lemma returns_postTick : returns ready postTick (fun _ => ready).
Proof.
  intros w H. ready_cases w H. unfold postTick. run_prim.
  eexists _, _. split; [reflexivity|]. ready_solve.
Qed.
#[export] Hint Resolve returns_devCall returns_buffer_append returns_buffer_consume
  returns_buffer_getCount returns_postTick : rets.

Lemma returns_modify_ready f :
  (forall w, audioDev (f w) = audioDev w) ->
  (forall w, isSome (pb_buffer (playback (f w))) = isSome (pb_buffer (playback w))) ->
  (forall w, isSome (pb_deviceTiming (playback (f w))) = isSome (pb_deviceTiming (playback w))) ->
  (forall w, isSome (pb_timings (playback (f w))) = isSome (pb_timings (playback w))) ->
  returns ready (modify f) (fun _ => ready).
Proof.
  intros H1 H2 H3 H4. apply returns_modify. unfold ready. intros w H.
  rewrite H1, H2, H3, H4. exact H.
Qed.

Ltac rets_step :=
  first
    [ apply returns_ret | apply returns_gets
    | solve [auto with rets nocore]
    | eapply returns_bind; [| intros ?; cbv beta]
    | apply returns_modify_ready; intros; reflexivity
    | match goal with |- returns _ (if ?b then _ else _) _ => destruct b end
    | progress cbv beta zeta
    | unfold_prims ].
Ltac rets_tac := repeat rets_step.

Lemma returns_deviceClock now frames :
  returns ready (deviceClock now frames) (fun _ => ready).
Proof. unfold deviceClock. rets_tac. Qed.
#[export] Hint Resolve returns_deviceClock : rets.

Definition hasDev (w : AudioState) : Prop := isSome (audioDev w) = true.

Lemma returns_playbackStop : returns hasDev playbackStop (fun _ => hasDev).
Proof.
  intros w H. unfold hasDev in *. destruct (audioDev w) as [ops|] eqn:Hdev; [|discriminate].
  unfold playbackStop. run_prim.
  destruct (StreamState_eqb _ _); [eexists _, _; split; [reflexivity|cbn; rewrite Hdev; reflexivity]|].
  run_prim. cbv [ringbuffer_free free_scratch]. run_prim.
  destruct (nonnull _); run_prim; destruct (isSome (pb_timings _)); run_prim;
   (eexists _, _; split; [reflexivity|cbn; rewrite Hdev; reflexivity]).
Qed.

Lemma ready_hasDev w : ready w -> hasDev w.
Proof. unfold ready, hasDev. tauto. Qed.

Lemma returns_drainCheck : returns ready drainCheck (fun _ => hasDev).
Proof.
  unfold drainCheck.
  eapply returns_bind; [apply returns_gets|intros p].
  destruct (StreamState_eqb _ _).
  - eapply returns_bind; [apply returns_buffer_getCount|intros n].
    destruct (n <=? 0).
    + eapply returns_weaken; [apply returns_playbackStop| apply ready_hasDev | auto].
    + eapply returns_weaken; [apply returns_ret| |]; eauto using ready_hasDev.
  - eapply returns_weaken; [apply returns_ret| |]; eauto using ready_hasDev.
Qed.

Lemma playbackStop_deviceData : preserves deviceDataOf playbackStop.
Proof. unfold playbackStop. pres_tac. Qed.
#[export] Hint Resolve playbackStop_deviceData : pres.
Lemma drainCheck_deviceData : preserves deviceDataOf drainCheck.
Proof. unfold drainCheck. pres_tac. Qed.
Lemma postTick_deviceData : preserves deviceDataOf postTick.
Proof. unfold postTick. pres_tac. Qed.
Lemma buffer_consume_deviceData b n : preserves deviceDataOf (buffer_consume b n).
Proof. unfold buffer_consume. pres_tac. Qed.

(** A pull of [frames <> 0] on a ready stream runs the device clock, and
    what follows leaves the device clock state alone. *)
Lemma pull_runs_deviceClock now frames w :
  ready w -> frames <> 0 ->
  exists w1 w',
    deviceClock now frames w = Ok tt w1
    /\ playbackPullFrames now frames w = Ok frames w'
    /\ deviceDataOf w' = deviceDataOf w1.
Proof.
  intros Hr Hf.
  destruct (returns_deviceClock now frames w Hr) as ([] & w1 & Hclk & Hr1).
  destruct (returns_postTick w1 Hr1) as ([] & w2 & Htick & Hr2).
  destruct (returns_buffer_consume false frames w2 Hr2) as ([] & w3 & Hcons & Hr3).
  destruct (returns_drainCheck w3 Hr3) as ([] & w4 & Hdrain & _).
  exists w1, w4. split; [exact Hclk|].
  assert (Hbuf : isSome (pb_buffer (playback w)) = true) by apply Hr.
  split.
  - unfold playbackPullFrames. apply Z.eqb_neq in Hf. rewrite Hf.
    unfold pullBody. 
    cbv [bind getPlayback gets]. rewrite Hbuf. rewrite Hclk, Htick, Hcons. cbv [ret]. rewrite Hdrain. reflexivity.
  - rewrite (drainCheck_deviceData _ _ _ Hdrain).
    rewrite (buffer_consume_deviceData _ _ _ _ _ Hcons).
    apply (postTick_deviceData _ _ _ Htick).
Qed.

(** ** The two clock trackers *)

(** The clock error of a tick: [(now - nextTime) * 1.0e-9]. *)
Definition clockError (now nextTime : Z) : float :=
  (Z2D (sub64 now nextTime) * 1.0e-9)%float.

Lemma deviceClock_period_change now frames w :
  frames <> dd_periodFrames (deviceDataOf w) ->
  dd_periodFrames (deviceDataOf w) <> 0 ->
  exists w',
    deviceClock now frames w = Ok tt w'
    /\ pb_buffer (playback w') = pb_buffer (playback w)
    /\ calls w' = calls w
    /\ let d := deviceDataOf w in
       let d' := deviceDataOf w' in
       let sampleRate := pb_sampleRate (playback w) in
       dd_nextTime d' = add64 (dd_nextTime d) (llrint (dd_periodSec d * 1.0e9)%float)
       /\ dd_periodFrames d' = frames
       /\ dd_periodSec d' = (Z2D frames / Z2D sampleRate)%float
       /\ dd_b d' = (M_SQRT2 * omega (dd_periodSec d'))%float
       /\ dd_c d' = (omega (dd_periodSec d') * omega (dd_periodSec d'))%float
       /\ dd_nextPosition d' = add64 (dd_nextPosition d) frames.
Proof.
  unfold deviceDataOf. intros Hp Hi. apply Z.eqb_neq in Hp, Hi.
  unfold deviceClock. run_prim. rewrite Hp, Hi. cbn.
  eexists. split; [reflexivity|]. cbn. repeat split; reflexivity.
Qed.

Lemma deviceClock_slew now frames w rb :
  pb_buffer (playback w) = Some rb ->
  frames = dd_periodFrames (deviceDataOf w) ->
  (0.2 <=? abs (clockError now (dd_nextTime (deviceDataOf w))))%float = true ->
  exists w',
    deviceClock now frames w = Ok tt w'
    /\ let d := deviceDataOf w in
       let d' := deviceDataOf w' in
       let sampleRate := pb_sampleRate (playback w) in
       let slewFrames :=
         round_to_int (clockError now (dd_nextTime d) * Z2D sampleRate)%float in
       pb_buffer (playback w') = Some (ringbuffer_consume slewFrames rb)
       /\ calls w' = EvBufferConsume true slewFrames :: calls w
       /\ dd_periodFrames d' = dd_periodFrames d
       /\ dd_periodSec d' = (Z2D frames / Z2D sampleRate)%float
       /\ dd_nextTime d' = add64 now (llrint (dd_periodSec d' * 1.0e9)%float)
       /\ dd_nextPosition d' = add64 (dd_nextPosition d) (add32 slewFrames frames).
Proof.
  unfold deviceDataOf, clockError. intros Hbuf Hp He. apply Z.eqb_eq in Hp.
  unfold deviceClock. run_prim. rewrite Hp. cbn. rewrite He.
  unfold buffer_consume. run_prim.
  eexists. split; [reflexivity|]. cbn. repeat split; reflexivity.
Qed.

Lemma spiceClock_period_change now frames w :
  exists w',
    spiceClock now frames true false w
      = Ok (sd_nextTime (spiceDataOf w), sd_nextPosition (spiceDataOf w)) w'
    /\ pb_buffer (playback w') = pb_buffer (playback w)
    /\ calls w' = calls w
    /\ let s := spiceDataOf w in
       let s' := spiceDataOf w' in
       let sampleRate := pb_sampleRate (playback w) in
       sd_periodSec s' = (Z2D frames / Z2D sampleRate)%float
       /\ sd_nextTime s' = add64 (sd_nextTime s) (llrint (sd_periodSec s' * 1.0e9)%float)
       /\ sd_b s' = (M_SQRT2 * omega (sd_periodSec s'))%float
       /\ sd_c s' = (omega (sd_periodSec s') * omega (sd_periodSec s'))%float
       /\ sd_nextPosition s' = sd_nextPosition s
       /\ sd_periodFrames s' = sd_periodFrames s.
Proof.
  unfold spiceDataOf. unfold spiceClock. run_prim.
  eexists. split; [reflexivity|]. cbn. repeat split; reflexivity.
Qed.

Lemma spiceClock_slew now frames init w rb :
  pb_buffer (playback w) = Some rb ->
  (0.2 <=? abs (clockError now (sd_nextTime (spiceDataOf w))))%float = true ->
  let s := spiceDataOf w in
  let sampleRate := pb_sampleRate (playback w) in
  let slewFrames :=
    round_to_int (clockError now (sd_nextTime s) * Z2D sampleRate)%float in
  let curPosition := add64 (sd_nextPosition s) slewFrames in
  exists w',
    spiceClock now frames false init w = Ok (now, curPosition) w'
    /\ pb_buffer (playback w') = Some (ringbuffer_append slewFrames rb)
    /\ calls w' = EvBufferAppend true slewFrames :: calls w
    /\ let s' := spiceDataOf w' in
       sd_periodSec s' = (Z2D frames / Z2D sampleRate)%float
       /\ sd_nextTime s' = add64 now (llrint (sd_periodSec s' * 1.0e9)%float)
       /\ sd_nextPosition s' = curPosition.
Proof.
  unfold spiceDataOf, clockError. intros Hbuf He.
  unfold spiceClock. run_prim. rewrite He.
  unfold buffer_append. run_prim.
  eexists. split; [reflexivity|]. cbn. repeat split; reflexivity.
Qed.

Lemma resizeScratch_ok env frames w :
  env_malloc_framesIn env = true ->
  env_malloc_framesOut env = true ->
  exists w1,
    resizeScratch env frames w = Ok None w1
    /\ let s := spiceDataOf w in
       let s1 := spiceDataOf w1 in
       sd_periodFrames s1 = frames
       /\ sd_framesIn s1 = Live /\ sd_framesOut s1 = Live
       /\ sd_framesOutSize s1 = round_to_int (Z2D frames * 1.1)%float
       /\ sd_periodSec s1 = sd_periodSec s
       /\ sd_nextTime s1 = sd_nextTime s
       /\ sd_nextPosition s1 = sd_nextPosition s
       /\ sd_b s1 = sd_b s /\ sd_c s1 = sd_c s.
Proof.
  intros Hin Hout. unfold resizeScratch, spiceDataOf. run_prim.
  rewrite Hin, Hout.
  destruct (nonnull (sd_framesIn (pb_spiceData (playback w)))); unfold free_scratch; run_prim;
    (eexists; split; [reflexivity|]; cbn; repeat split; reflexivity).
Qed.

(** ** C1: a change of period size *)

(** C1 (as amended).  On a tick whose frame count differs from the stored
    [periodFrames], the first tick apart:
    - the sink-side tracker ([playbackPullFrames]) advances [nextTime] by
      the old [periodSec], sets [periodFrames] and [periodSec] to the new
      period, recomputes [b = sqrt 2 * omega] and [c = omega^2] from the
      new [periodSec] and advances [nextPosition] by [frames];
    - the source side ([audio_playbackData]) sets [periodFrames] when it
      resizes its scratch buffers, and its tracker sets [periodSec] to the
      new period first, advances [nextTime] by that new [periodSec],
      recomputes [b] and [c] the same way and leaves [nextPosition] as it
      is (the resampler driver advances it later). *)
Theorem period_change_tracker_update :
  forall (now frames : Z) (w : AudioState),
    (ready w -> frames <> 0 ->
     frames <> dd_periodFrames (deviceDataOf w) ->
     dd_periodFrames (deviceDataOf w) <> 0 ->
     exists w',
       playbackPullFrames now frames w = Ok frames w'
       /\ let d := deviceDataOf w in
          let d' := deviceDataOf w' in
          dd_nextTime d'
            = add64 (dd_nextTime d) (llrint (dd_periodSec d * 1.0e9)%float)
          /\ dd_periodFrames d' = frames
          /\ dd_periodSec d'
             = (Z2D frames / Z2D (pb_sampleRate (playback w)))%float
          /\ dd_b d' = (M_SQRT2 * omega (dd_periodSec d'))%float
          /\ dd_c d' = (omega (dd_periodSec d') * omega (dd_periodSec d'))%float
          /\ dd_nextPosition d' = add64 (dd_nextPosition d) frames)
    /\ (forall env,
         env_malloc_framesIn env = true -> env_malloc_framesOut env = true ->
         exists w1,
           resizeScratch env frames w = Ok None w1
           /\ sd_periodFrames (spiceDataOf w1) = frames)
    /\ (exists w',
         spiceClock now frames true false w
           = Ok (sd_nextTime (spiceDataOf w), sd_nextPosition (spiceDataOf w)) w'
         /\ let s := spiceDataOf w in
            let s' := spiceDataOf w' in
            sd_periodSec s'
              = (Z2D frames / Z2D (pb_sampleRate (playback w)))%float
            /\ sd_nextTime s'
               = add64 (sd_nextTime s) (llrint (sd_periodSec s' * 1.0e9)%float)
            /\ sd_b s' = (M_SQRT2 * omega (sd_periodSec s'))%float
            /\ sd_c s' = (omega (sd_periodSec s') * omega (sd_periodSec s'))%float
            /\ sd_nextPosition s' = sd_nextPosition s).
Proof.
  intros now frames w. split; [|split].
  - intros Hr Hf Hp Hi.
    destruct (pull_runs_deviceClock now frames w Hr Hf)
      as (w1 & w' & Hclk & Hpull & Hd).
    destruct (deviceClock_period_change now frames w Hp Hi)
      as (w1' & Hclk' & _ & _ & Hfields).
    rewrite Hclk in Hclk'. injection Hclk' as <-.
    exists w'. split; [exact Hpull|]. cbv zeta. rewrite Hd. exact Hfields.
  - intros env Hin Hout.
    destruct (resizeScratch_ok env frames w Hin Hout) as (w1 & Hrun & Hpf & _).
    exists w1. split; assumption.
  - destruct (spiceClock_period_change now frames w) as (w' & Hclk & _ & _ & H).
    exists w'. split; [exact Hclk|]. cbv zeta in *. tauto.
Qed.

(** The sink of [w_running] is asked for 512 instead of 1024 frames, and
    its source side is taken through the same change. *)
Lemma period_change_tracker_update_witness :
  (exists w',
     playbackPullFrames 1120000000 512 w_running = Ok 512 w'
     /\ dd_nextTime (deviceDataOf w') = 1144996825
     /\ dd_periodFrames (deviceDataOf w') = 512
     /\ dd_nextPosition (deviceDataOf w') = 2560)
  /\ (exists w',
       spiceClock 1120000000 512 true false w_running
         = Ok (1100000000, 4800) w'
       /\ sd_nextTime (spiceDataOf w') = 1110666667
       /\ sd_nextPosition (spiceDataOf w') = 4800).
Proof.
  destruct (period_change_tracker_update 1120000000 512 w_running)
    as (Hsink & _ & Hsource).
  split.
  - destruct Hsink as (w' & Hrun & Ht & Hpf & _ & _ & _ & Hpos).
    + repeat split; reflexivity.
    + discriminate.
    + discriminate.
    + discriminate.
    + exists w'. repeat split; assumption.
  - destruct Hsource as (w' & Hrun & Hsec & Ht & _ & _ & Hpos).
    exists w'. split; [exact Hrun|]. split; [|exact Hpos].
    cbv zeta in Ht. rewrite Ht, Hsec. reflexivity.
Defined.

(** C1 as stated fails on the source side: a period of 480 frames after
    periods of 960 frames (20 ms) moves [nextTime] on by the new 10 ms,
    not by the old 20 ms. *)
Lemma period_change_source_counterexample :
  exists e w',
    audio_playbackData 4 (demoEnv 1120000000) 1920 w_running = Ok e w'
    /\ i32 (1920 / mul32 (pb_channels (playback w_running)) 2) = 480
    /\ sd_periodFrames (spiceDataOf w_running) = 960
    /\ sd_nextTime (spiceDataOf w_running) = 1100000000
    /\ llrint (sd_periodSec (spiceDataOf w_running) * 1.0e9)%float = 20000000
    /\ sd_nextTime (spiceDataOf w') = 1110000000
    /\ sd_nextTime (spiceDataOf w')
       <> add64 (sd_nextTime (spiceDataOf w_running))
                (llrint (sd_periodSec (spiceDataOf w_running) * 1.0e9)%float).
Proof.
  eexists _, _. split; [vm_compute; reflexivity|].
  vm_compute. repeat split; discriminate.
Qed.

(** ** C2: slewing on a large clock error *)

(** C2.  On a same-period tick whose clock error
    [e = (now - nextTime) * 1e-9] has [|e| >= 0.2], with
    [slewFrames = round(e * sampleRate)]:
    - the sink consumes [slewFrames] frames from the coupling buffer with
      a [NULL] destination, sets [nextTime = now + periodSec * 1e9] (for
      the reset [periodSec = frames / sampleRate]) and advances
      [nextPosition] by [slewFrames + frames];
    - the source appends [slewFrames] frames with a [NULL] source, yields
      [curTime = now] and [curPosition = nextPosition + slewFrames], resets
      [periodSec = frames / sampleRate], sets
      [nextTime = now + periodSec * 1e9] and [nextPosition = curPosition]. *)
Theorem slew_on_large_clock_error :
  forall (now frames : Z) (w : AudioState) (rb : RingBuffer),
    pb_buffer (playback w) = Some rb ->
    let sampleRate := pb_sampleRate (playback w) in
    (let d := deviceDataOf w in
     let e := clockError now (dd_nextTime d) in
     let slewFrames := round_to_int (e * Z2D sampleRate)%float in
     ready w -> frames <> 0 ->
     frames = dd_periodFrames d ->
     (0.2 <=? abs e)%float = true ->
     exists w1 w',
       deviceClock now frames w = Ok tt w1
       /\ playbackPullFrames now frames w = Ok frames w'
       /\ pb_buffer (playback w1) = Some (ringbuffer_consume slewFrames rb)
       /\ calls w1 = EvBufferConsume true slewFrames :: calls w
       /\ let d' := deviceDataOf w' in
          dd_periodSec d' = (Z2D frames / Z2D sampleRate)%float
          /\ dd_nextTime d' = add64 now (llrint (dd_periodSec d' * 1.0e9)%float)
          /\ dd_nextPosition d'
             = add64 (dd_nextPosition d) (add32 slewFrames frames))
    /\ (let s := spiceDataOf w in
        let e := clockError now (sd_nextTime s) in
        let slewFrames := round_to_int (e * Z2D sampleRate)%float in
        let curPosition := add64 (sd_nextPosition s) slewFrames in
        forall init : bool,
        (0.2 <=? abs e)%float = true ->
        exists w',
          spiceClock now frames false init w = Ok (now, curPosition) w'
          /\ pb_buffer (playback w') = Some (ringbuffer_append slewFrames rb)
          /\ calls w' = EvBufferAppend true slewFrames :: calls w
          /\ let s' := spiceDataOf w' in
             sd_periodSec s' = (Z2D frames / Z2D sampleRate)%float
             /\ sd_nextTime s' = add64 now (llrint (sd_periodSec s' * 1.0e9)%float)
             /\ sd_nextPosition s' = curPosition).
Proof.
  intros now frames w rb Hbuf sampleRate. split.
  - intros d e slewFrames Hr Hf Hp He.
    destruct (pull_runs_deviceClock now frames w Hr Hf)
      as (w1 & w' & Hclk & Hpull & Hd).
    destruct (deviceClock_slew now frames w rb Hbuf Hp He)
      as (w1' & Hclk' & Hb & Hc & _ & Hsec & Ht & Hpos).
    rewrite Hclk in Hclk'. injection Hclk' as <-.
    exists w1, w'. cbv zeta. rewrite Hd. repeat split; assumption.
  - intros s e slewFrames curPosition init He.
    exact (spiceClock_slew now frames init w rb Hbuf He).
Qed.

(** Both clocks of [w_running] are about 0.4 s behind [now]: the sink
    discards 18064 frames, the source inserts 19200 frames of silence. *)
Lemma slew_on_large_clock_error_witness :
  (exists w1 w',
     deviceClock 1500000000 1024 w_running = Ok tt w1
     /\ playbackPullFrames 1500000000 1024 w_running = Ok 1024 w'
     /\ pb_buffer (playback w1)
        = Some {| rb_writeHead := 4800; rb_readHead := 2048 + 18064 |}
     /\ calls w1 = EvBufferConsume true 18064 :: calls w_running
     /\ dd_nextTime (deviceDataOf w') = 1521333333
     /\ dd_nextPosition (deviceDataOf w') = 2048 + 18064 + 1024)
  /\ (exists w',
       spiceClock 1500000000 960 false false w_running
         = Ok (1500000000, 4800 + 19200) w'
       /\ pb_buffer (playback w')
          = Some {| rb_writeHead := 4800 + 19200; rb_readHead := 2048 |}
       /\ calls w' = EvBufferAppend true 19200 :: calls w_running
       /\ sd_nextTime (spiceDataOf w') = 1520000000
       /\ sd_nextPosition (spiceDataOf w') = 4800 + 19200).
Proof.
  split.
  - destruct (slew_on_large_clock_error 1500000000 1024 w_running
                {| rb_writeHead := 4800; rb_readHead := 2048 |} eq_refl)
      as (Hsink & _).
    destruct Hsink as (w1 & w' & Hclk & Hpull & Hb & Hc & Hsec & Ht & Hpos).
    + repeat split; reflexivity.
    + discriminate.
    + reflexivity.
    + reflexivity.
    + exists w1, w'. repeat split; try assumption.
      cbv zeta in Ht. rewrite Ht, Hsec. reflexivity.
  - destruct (slew_on_large_clock_error 1500000000 960 w_running
                {| rb_writeHead := 4800; rb_readHead := 2048 |} eq_refl)
      as (_ & Hsource).
    destruct (Hsource false eq_refl) as (w' & Hclk & Hb & Hc & Hsec & Ht & Hpos).
    exists w'. repeat split; try assumption.
    cbv zeta in Ht. rewrite Ht, Hsec. reflexivity.
Defined.

(** ** The resampler driver as a pure conversation *)

(** The request of line 586-597 when [consumed] frames are done. *)
Definition driverRequest (frames channels framesOutSize : Z) (ratio : float)
    (consumed : Z) : SRC_DATA :=
  {| src_data_in       := mul32 consumed channels;
     src_input_frames  := sub32 frames consumed;
     src_output_frames := framesOutSize;
     src_end_of_input  := 0;
     src_ratio         := ratio |}.

(** The conversation of one source period with the resampler: the
    requests made and the replies received, in order, and how the loop is
    left ([inl] from within, on an error; [inr] at its head); [None] when
    [fuel] calls do not finish it. *)
Fixpoint driver (fuel : nat) (env : DataEnv) (frames channels framesOutSize : Z)
    (ratio : float) (n : nat) (consumed : Z)
    : option (list (SRC_DATA * SRC_RESULT) * (Z + Z)) :=
  if consumed <? frames then
    match fuel with
    | O => None
    | S fuel =>
        let request := driverRequest frames channels framesOutSize ratio consumed in
        let result := env_src_process env n request in
        if negb (src_error result =? 0) then Some ([(request, result)], inl consumed)
        else
          match driver fuel env frames channels framesOutSize ratio (S n)
                  (i32 (consumed + src_input_frames_used result)) with
          | Some (xs, r) => Some ((request, result) :: xs, r)
          | None => None
          end
    end
  else Some ([], inr consumed).

(** What one exchange with the resampler does to [audio]. *)
Definition afterExchange (w : AudioState) (x : SRC_DATA * SRC_RESULT)
    : AudioState :=
  let '(request, result) := x in
  if negb (src_error result =? 0) then
    set_calls (EvDebugError :: EvSrcProcess request :: calls w) w
  else
    let gen := src_output_frames_gen result in
    set_calls (EvBufferAppend false (i32 gen) :: EvSrcProcess request :: calls w)
      (set_playback
         (set_pb_spiceData
            (set_sd_nextPosition (add64 (sd_nextPosition (spiceDataOf w)) gen)
               (spiceDataOf w))
            (set_pb_buffer
               (option_map (ringbuffer_append (i32 gen)) (pb_buffer (playback w)))
               (playback w)))
         w).

Lemma afterExchange_invariants w x :
  pb_channels (playback (afterExchange w x)) = pb_channels (playback w)
  /\ sd_framesOutSize (spiceDataOf (afterExchange w x))
     = sd_framesOutSize (spiceDataOf w)
  /\ isSome (pb_buffer (playback (afterExchange w x)))
     = isSome (pb_buffer (playback w)).
Proof.
  destruct x as [request result]. unfold afterExchange.
  destruct (negb _); cbn; repeat split; try reflexivity.
  destruct (pb_buffer (playback w)); reflexivity.
Qed.

(** The loop of lines 583-611 is the pure conversation, played on
    [audio]. *)
Lemma resampleLoop_driver env frames ratio :
  forall fuel n consumed w,
    isSome (pb_buffer (playback w)) = true ->
    resampleLoop fuel env frames ratio n consumed w
    = match driver fuel env frames (pb_channels (playback w))
              (sd_framesOutSize (spiceDataOf w)) ratio n consumed with
      | Some (xs, r) => Ok r (fold_left afterExchange xs w)
      | None => OutOfFuel
      end.
Proof.
  induction fuel as [|fuel IH]; intros n consumed w Hbuf; cbn [resampleLoop driver].
  - destruct (consumed <? frames); reflexivity.
  - destruct (consumed <? frames); [|reflexivity].
    destruct (pb_buffer (playback w)) as [rb|] eqn:Hrb; [|discriminate].
    unfold driverRequest, spiceDataOf. run_prim.
    match goal with |- context [env_src_process env n ?req] =>
      set (request := req); set (result := env_src_process env n request)
    end.
    destruct (negb (src_error result =? 0)) eqn:Herr.
    + cbn. unfold afterExchange. rewrite Herr. reflexivity.
    + unfold buffer_append. run_prim.
      match goal with |- resampleLoop _ _ _ _ _ _ ?w1 = _ =>
        assert (Hw1 : w1 = afterExchange w (request, result))
      end.
      { unfold afterExchange. rewrite Herr, Hrb. reflexivity. }
      rewrite Hw1.
      pose proof (afterExchange_invariants w (request, result)) as (Hc & Ho & Hb).
      rewrite IH by (rewrite Hb, Hrb; reflexivity).
      unfold spiceDataOf in Ho. unfold spiceDataOf. rewrite Hc, Ho.
      destruct (driver _ _ _ _ _ _ _ _) as [[xs r]|]; reflexivity.
Qed.

(** What [audio.c] relies on from [src_process]: it never reports more
    input used than it was offered... *)
Definition src_contract (env : DataEnv) : Prop :=
  forall n d,
    0 <= src_input_frames d ->
    src_error (env_src_process env n d) = 0 ->
    0 <= src_input_frames_used (env_src_process env n d) <= src_input_frames d.

(** ... and it uses some input whenever it is offered any. *)
Definition src_progress (env : DataEnv) : Prop :=
  forall n d,
    0 < src_input_frames d ->
    src_error (env_src_process env n d) = 0 ->
    src_input_frames_used (env_src_process env n d) <> 0.

Lemma passthrough_contract now : src_contract (demoEnv now).
Proof. intros n d Hin _. cbn. lia. Qed.

Lemma passthrough_progress now : src_progress (demoEnv now).
Proof. intros n d Hin _. cbn. lia. Qed.

Definition succeeded (x : SRC_DATA * SRC_RESULT) : bool :=
  src_error (snd x) =? 0.

(** Input frames used and output frames generated over a conversation. *)
Definition framesUsed (xs : list (SRC_DATA * SRC_RESULT)) : Z :=
  fold_right (fun x acc =>
    if succeeded x then src_input_frames_used (snd x) + acc else acc) 0 xs.

Definition framesGenerated (xs : list (SRC_DATA * SRC_RESULT)) : Z :=
  fold_right (fun x acc =>
    if succeeded x then src_output_frames_gen (snd x) + acc else acc) 0 xs.

(** The frames handed to [ringbuffer_append], whose count is an [int]. *)
Definition framesAppended (xs : list (SRC_DATA * SRC_RESULT)) : Z :=
  fold_right (fun x acc =>
    if succeeded x then i32 (src_output_frames_gen (snd x)) + acc else acc) 0 xs.

Lemma framesUsed_cons x xs :
  framesUsed (x :: xs)
  = if succeeded x then src_input_frames_used (snd x) + framesUsed xs
    else framesUsed xs.
Proof. reflexivity. Qed.

Definition consumedAt (r : Z + Z) : Z :=
  match r with inl c => c | inr c => c end.

Lemma driver_sound env frames channels framesOutSize ratio :
  src_contract env ->
  frames <= INT32_MAX ->
  forall fuel n consumed xs r,
    0 <= consumed <= frames ->
    driver fuel env frames channels framesOutSize ratio n consumed = Some (xs, r) ->
    consumedAt r = consumed + framesUsed xs
    /\ match r with
       | inl c => c < frames
       | inr c => c = frames
       end.
Proof.
  intros Hcontract Hmax.
  induction fuel as [|fuel IH]; intros n consumed xs r Hc; cbn [driver].
  - destruct (consumed <? frames) eqn:Hlt; [discriminate|].
    intros H. injection H as <- <-. apply Z.ltb_ge in Hlt. cbn. lia.
  - destruct (consumed <? frames) eqn:Hlt.
    2:{ intros H. injection H as <- <-. apply Z.ltb_ge in Hlt. cbn. lia. }
    apply Z.ltb_lt in Hlt.
    set (request := driverRequest frames channels framesOutSize ratio consumed).
    set (result := env_src_process env n request).
    assert (Hin : src_input_frames request = frames - consumed).
    { cbn. unfold sub32. apply i32_small. unfold INT32_MIN, INT32_MAX in *. lia. }
    destruct (negb (src_error result =? 0)) eqn:Herr.
    + intros H. injection H as <- <-.
      rewrite framesUsed_cons. unfold succeeded. cbn [snd consumedAt].
      apply negb_true_iff in Herr. rewrite Herr. cbn. lia.
    + apply negb_false_iff, Z.eqb_eq in Herr.
      destruct (Hcontract n request) as [Hu1 Hu2]; [lia | exact Herr |].
      fold result in Hu1, Hu2. rewrite Hin in Hu2.
      assert (Hnext : i32 (consumed + src_input_frames_used result)
                      = consumed + src_input_frames_used result).
      { apply i32_small. unfold INT32_MIN, INT32_MAX in *. lia. }
      rewrite Hnext.
      destruct (driver fuel _ _ _ _ _ _ _) as [[xs' r']|] eqn:Hrec; [|discriminate].
      intros H. injection H as <- <-.
      assert (Hc' : 0 <= consumed + src_input_frames_used result <= frames)
        by lia.
      destruct (IH _ _ _ _ Hc' Hrec) as [Hsum Hres].
      split; [|exact Hres].
      rewrite Hsum, framesUsed_cons. unfold succeeded. cbn [snd].
      rewrite (proj2 (Z.eqb_eq _ _) Herr). lia.
Qed.

Lemma driver_terminates env frames channels framesOutSize ratio :
  src_contract env -> src_progress env ->
  frames <= INT32_MAX ->
  forall fuel n consumed,
    0 <= consumed ->
    (Z.to_nat (frames - consumed) <= fuel)%nat ->
    exists xs r,
      driver fuel env frames channels framesOutSize ratio n consumed
      = Some (xs, r).
Proof.
  intros Hcontract Hprogress Hmax.
  induction fuel as [|fuel IH]; intros n consumed Hc Hfuel; cbn [driver].
  - destruct (consumed <? frames) eqn:Hlt.
    + apply Z.ltb_lt in Hlt. lia.
    + eexists _, _. reflexivity.
  - destruct (consumed <? frames) eqn:Hlt; [|eexists _, _; reflexivity].
    apply Z.ltb_lt in Hlt.
    set (request := driverRequest frames channels framesOutSize ratio consumed).
    set (result := env_src_process env n request).
    assert (Hin : src_input_frames request = frames - consumed).
    { cbn. unfold sub32. apply i32_small. unfold INT32_MIN, INT32_MAX in *. lia. }
    destruct (negb (src_error result =? 0)) eqn:Herr; [eexists _, _; reflexivity|].
    apply negb_false_iff, Z.eqb_eq in Herr.
    destruct (Hcontract n request) as [Hu1 Hu2]; [lia | exact Herr |].
    assert (Hu3 := Hprogress n request ltac:(lia) Herr).
    fold result in Hu1, Hu2, Hu3. rewrite Hin in Hu2.
    assert (Hnext : i32 (consumed + src_input_frames_used result)
                    = consumed + src_input_frames_used result).
    { apply i32_small. unfold INT32_MIN, INT32_MAX in *. lia. }
    rewrite Hnext.
    destruct (IH (S n) (consumed + src_input_frames_used result)) as (xs & r & Hrec);
      [lia | lia |].
    rewrite Hrec. eexists _, _. reflexivity.
Qed.


(** ** The resampler loop and the whole of [audio_playbackData] *)

(** [audio] with the three things the resampler loop writes replaced. *)
Definition loopTouch (rb : option RingBuffer) (np : Z) (cs : list Event)
    (w : AudioState) : AudioState :=
  set_calls cs
    (set_playback
       (set_pb_spiceData (set_sd_nextPosition np (spiceDataOf w))
          (set_pb_buffer rb (playback w)))
       w).

Lemma loopTouch_id w :
  loopTouch (pb_buffer (playback w)) (sd_nextPosition (spiceDataOf w))
    (calls w) w = w.
Proof.
  destruct w as [dev [st vc v m ch sr stride dm buf dt tm g dd sd] r lc ls cs].
  destruct sd. reflexivity.
Qed.

(** The calls the loop makes. *)
Definition loopEvent (ratio : float) (ev : Event) : Prop :=
  match ev with
  | EvSrcProcess request => src_ratio request = ratio
  | EvBufferAppend false _ => True
  | EvDebugError => True
  | _ => False
  end.

Lemma set_calls_loopTouch cs w :
  set_calls cs w
  = loopTouch (pb_buffer (playback w)) (sd_nextPosition (spiceDataOf w)) cs w.
Proof.
  destruct w as [dev [st vc v m ch sr stride dm buf dt tm g dd sd] r lc ls cs0].
  destruct sd. reflexivity.
Qed.

Lemma resampleLoop_footprint env frames ratio :
  forall fuel n consumed w r w',
    resampleLoop fuel env frames ratio n consumed w = Ok r w' ->
    exists rb np evs,
      w' = loopTouch rb np (evs ++ calls w) w
      /\ Forall (loopEvent ratio) evs.
Proof.
  induction fuel as [|fuel IH]; intros n consumed w r w'; cbn [resampleLoop].
  - destruct (consumed <? frames); [discriminate|].
    intros H. injection H as <- <-.
    exists (pb_buffer (playback w)), (sd_nextPosition (spiceDataOf w)), [].
    split; [symmetry; apply loopTouch_id | constructor].
  - destruct (consumed <? frames).
    2:{ intros H. injection H as <- <-.
        exists (pb_buffer (playback w)), (sd_nextPosition (spiceDataOf w)), [].
        split; [symmetry; apply loopTouch_id | constructor]. }
    run_prim.
    match goal with |- context [env_src_process env n ?req] =>
      set (request := req); set (result := env_src_process env n request)
    end.
    destruct (negb (src_error result =? 0)).
    + cbn. intros H. injection H as <- <-.
      exists (pb_buffer (playback w)), (sd_nextPosition (spiceDataOf w)),
        [EvDebugError; EvSrcProcess request].
      split; [|repeat constructor].
      rewrite <- set_calls_loopTouch. reflexivity.
    + unfold buffer_append. run_prim.
      destruct (pb_buffer (playback w)) as [rb|] eqn:Hrb; [|discriminate].
      cbn. intros H. apply IH in H. destruct H as (rb' & np' & evs & -> & Hevs).
      exists rb', np',
        (evs ++ [EvBufferAppend false (i32 (src_output_frames_gen result));
                 EvSrcProcess request]).
      split.
      * cbn. rewrite <- app_assoc. reflexivity.
      * apply Forall_app. split; [exact Hevs | repeat constructor].
Qed.

Lemma returns_call e : returns ready (call e) (fun _ => ready).
Proof. unfold call. apply returns_modify_ready; intros; reflexivity. Qed.

Lemma returns_receiveTicks : returns ready receiveTicks (fun _ => ready).
Proof.
  intros w H. ready_cases w H. unfold receiveTicks. run_prim.
  eexists _, _. split; [reflexivity|]. ready_solve.
Qed.

Lemma returns_publishLatency env off :
  returns ready (publishLatency env off) (fun _ => ready).
Proof.
  intros w H. ready_cases w H. unfold publishLatency. run_prim.
  eexists _, _. split; [reflexivity|]. ready_solve.
Qed.
#[export] Hint Resolve returns_call returns_receiveTicks returns_publishLatency : rets.

Lemma returns_spiceClock now frames pc init :
  returns ready (spiceClock now frames pc init) (fun _ => ready).
Proof. unfold spiceClock. rets_tac. Qed.

Lemma returns_measureOffset curTime curPosition offsetError :
  returns ready (measureOffset curTime curPosition offsetError) (fun _ => ready).
Proof. unfold measureOffset. rets_tac. Qed.

Lemma returns_resampleRatio offsetError :
  returns ready (resampleRatio offsetError) (fun _ => ready).
Proof. unfold resampleRatio. rets_tac. Qed.

(** The start gate calls [playback.start] without testing it: it returns
    on a backend that has the member. *)
Lemma returns_startGate :
  returns (fun w => ready w /\ has_playback_start w = true) startGate
    (fun _ => ready).
Proof.
  intros w [H Hs]. ready_cases w H.
  unfold has_playback_start in Hs. rewrite Heqo in Hs.
  unfold startGate. run_prim.
  destruct (StreamState_eqb _ _);
    [|eexists _, _; split; [reflexivity | ready_solve]].
  destruct (_ <=? _); [|eexists _, _; split; [reflexivity | ready_solve]].
  run_prim. rewrite Hs. run_prim.
  eexists _, _. split; [reflexivity | ready_solve].
Qed.

(** None of the blocks of [audio_playbackData] replaces the backend. *)
Lemma playbackStop_audioDev : preserves audioDev playbackStop.
Proof. unfold playbackStop. pres_tac. Qed.
#[export] Hint Resolve playbackStop_audioDev : pres.
Lemma resizeScratch_audioDev env frames :
  preserves audioDev (resizeScratch env frames).
Proof. unfold resizeScratch. pres_tac. Qed.
Lemma call_audioDev e : preserves audioDev (call e).
Proof. pres_tac. Qed.
Lemma receiveTicks_audioDev : preserves audioDev receiveTicks.
Proof. unfold receiveTicks. pres_tac. Qed.
Lemma spiceClock_audioDev now frames pc init :
  preserves audioDev (spiceClock now frames pc init).
Proof. unfold spiceClock. pres_tac. Qed.
Lemma measureOffset_audioDev curTime curPosition offsetError :
  preserves audioDev (measureOffset curTime curPosition offsetError).
Proof. unfold measureOffset. pres_tac. Qed.
Lemma resampleRatio_audioDev offsetError :
  preserves audioDev (resampleRatio offsetError).
Proof. unfold resampleRatio. pres_tac. Qed.
Lemma resampleLoop_audioDev fuel env frames ratio n consumed :
  preserves audioDev (resampleLoop fuel env frames ratio n consumed).
Proof.
  intros w r w' H. apply resampleLoop_footprint in H.
  destruct H as (rb & np & evs & -> & _). reflexivity.
Qed.

Lemma returns_resizeScratch env frames :
  returns ready (resizeScratch env frames) (fun r w' => r = None -> ready w').
Proof.
  assert (Hstop : forall e : DataExit,
    returns ready (call EvDebugError ;; playbackStop ;; ret (Some e))
      (fun r w' => r = None -> ready w')).
  { intros e w H.
    destruct (returns_call EvDebugError w H) as ([] & w1 & H1 & Hr1).
    destruct (returns_playbackStop w1 (ready_hasDev _ Hr1)) as ([] & w2 & H2 & _).
    exists (Some e), w2. split; [|discriminate].
    cbv [bind]. rewrite H1, H2. reflexivity. }
  unfold resizeScratch.
  eapply returns_bind; [apply returns_gets|intros sd0; cbv beta].
  eapply returns_bind with (R := fun _ => ready); [rets_tac|intros ?; cbv beta].
  eapply returns_bind; [rets_tac|intros ?; cbv beta].
  eapply returns_bind; [rets_tac|intros ?; cbv beta].
  eapply returns_bind; [rets_tac|intros ?; cbv beta].
  eapply returns_bind; [rets_tac|intros ?; cbv beta].
  eapply returns_bind; [rets_tac|intros ?; cbv beta].
  destruct (negb _); [apply Hstop|].
  eapply returns_bind; [rets_tac|intros ?; cbv beta].
  eapply returns_bind; [rets_tac|intros ?; cbv beta].
  eapply returns_bind; [rets_tac|intros ?; cbv beta].
  eapply returns_bind; [rets_tac|intros ?; cbv beta].
  eapply returns_bind; [rets_tac|intros ?; cbv beta].
  destruct (negb _); [apply Hstop|].
  intros w H. exists None, w. split; [reflexivity|auto].
Qed.

Lemma afterExchange_ready w x : ready w -> ready (afterExchange w x).
Proof.
  intros H. ready_cases w H. destruct x as [request result].
  unfold afterExchange. destruct (negb _); ready_solve.
Qed.

Lemma afterExchanges_ready xs : forall w, ready w -> ready (fold_left afterExchange xs w).
Proof.
  induction xs as [|x xs IH]; intros w H; [exact H|].
  cbn [fold_left]. apply IH, afterExchange_ready, H.
Qed.

Lemma returns_resampleLoop fuel env frames ratio :
  src_contract env -> src_progress env ->
  0 <= frames <= INT32_MAX ->
  (Z.to_nat frames <= fuel)%nat ->
  returns ready (resampleLoop fuel env frames ratio 0 0) (fun _ => ready).
Proof.
  intros Hc Hp Hf Hfuel w H.
  rewrite resampleLoop_driver by apply H.
  destruct (driver_terminates env frames (pb_channels (playback w))
              (sd_framesOutSize (spiceDataOf w)) ratio Hc Hp (proj2 Hf)
              fuel O 0 (Z.le_refl 0)) as (xs & r & Hd).
  { rewrite Z.sub_0_r. exact Hfuel. }
  rewrite Hd. exists r, (fold_left afterExchange xs w).
  split; [reflexivity | apply afterExchanges_ready, H].
Qed.

(** The frame count of line 408. *)
Definition dataFrames (size : Z) (w : AudioState) : Z :=
  i32 (size / mul32 (pb_channels (playback w)) 2).

(** A call of [audio_playbackData] that finds a ready, active stream on a
    backend that supports playback ([audio_supportsPlayback]: line 623
    calls its [playback.start] without a test), a period of data whose
    frame count fits an [int], a resampler that honours its contract, and
    fuel for as many resampler calls as there are frames. *)
Definition serviceable (fuel : nat) (env : DataEnv) (size : Z)
    (w : AudioState) : Prop :=
  ready w
  /\ has_playback_start w = true
  /\ STREAM_ACTIVE (stateOf w) = true
  /\ size <> 0
  /\ 0 <= size / mul32 (pb_channels (playback w)) 2 <= INT32_MAX
  /\ src_contract env
  /\ src_progress env
  /\ (Z.to_nat (dataFrames size w) <= fuel)%nat.

(** The worlds a serviced call goes through: after the scratch buffers
    are resized, after the ticks are received, after the clock tracker,
    after the offset filter, after the rate controller and after the
    resampler loop, with the values handed from block to block. *)
Record DataTrace : Type := {
  at_resized    : AudioState;
  at_received   : AudioState;
  cur           : Z * Z;
  at_clocked    : AudioState;
  actualOffset  : float;
  at_measured   : AudioState;
  ratio         : float;
  at_controlled : AudioState;
  loopExit      : Z + Z;
  at_resampled  : AudioState
}.

Definition traces (fuel : nat) (env : DataEnv) (size : Z) (w : AudioState)
    (t : DataTrace) : Prop :=
  let frames := dataFrames size w in
  let periodChanged := negb (frames =? sd_periodFrames (spiceDataOf w)) in
  let init := sd_periodFrames (spiceDataOf w) =? 0 in
  let offsetError := sd_offsetError (spiceDataOf (at_clocked t)) in
  (if periodChanged
   then resizeScratch env frames w = Ok None (at_resized t)
   else at_resized t = w)
  /\ (call (EvShortToFloat (mul32 frames (pb_channels (playback w)))) ;;
      receiveTicks) (at_resized t) = Ok tt (at_received t)
  /\ spiceClock (env_now env) frames periodChanged init (at_received t)
     = Ok (cur t) (at_clocked t)
  /\ measureOffset (fst (cur t)) (snd (cur t)) offsetError (at_clocked t)
     = Ok (actualOffset t) (at_measured t)
  /\ resampleRatio offsetError (at_measured t)
     = Ok (ratio t) (at_controlled t)
  /\ resampleLoop fuel env frames (ratio t) O 0 (at_controlled t)
     = Ok (loopExit t) (at_resampled t).

(** How a serviced call ends: at one of the two failed [malloc]s, at the
    resampler error, or at the end of the function. *)
Definition finishes (fuel : nat) (env : DataEnv) (size : Z) (w : AudioState)
    (e : DataExit) (w' : AudioState) : Prop :=
  let frames := dataFrames size w in
  (frames <> sd_periodFrames (spiceDataOf w)
   /\ (e = ExitMallocFramesIn \/ e = ExitMallocFramesOut)
   /\ resizeScratch env frames w = Ok (Some e) w')
  \/ exists t,
       traces fuel env size w t
       /\ match loopExit t with
          | inl consumed =>
              e = ExitResampleFailed consumed /\ w' = at_resampled t
          | inr consumed =>
              e = ExitEnd consumed
              /\ exists w7,
                   startGate (at_resampled t) = Ok tt w7
                   /\ publishLatency env (actualOffset t) w7 = Ok tt w'
          end.

Lemma resizeScratch_exits env frames w e w' :
  resizeScratch env frames w = Ok (Some e) w' ->
  e = ExitMallocFramesIn \/ e = ExitMallocFramesOut.
Proof.
  unfold resizeScratch. intros H.
  repeat (apply bind_Ok_inv in H; destruct H as (? & ? & _ & H)).
  destruct (negb _).
  - repeat (apply bind_Ok_inv in H; destruct H as (? & ? & _ & H)).
    injection H as <- _. now left.
  - repeat (apply bind_Ok_inv in H; destruct H as (? & ? & _ & H)).
    destruct (negb _).
    + repeat (apply bind_Ok_inv in H; destruct H as (? & ? & _ & H)).
      injection H as <- _. now right.
    + discriminate.
Qed.

(** Every way out of [audio_playbackData]. *)
Lemma playbackData_inv fuel env size w e w' :
  audio_playbackData fuel env size w = Ok e w' ->
  ((e = ExitNoData \/ e = ExitInactive) /\ w' = w)
  \/ (STREAM_ACTIVE (stateOf w) = true /\ finishes fuel env size w e w').
Proof.
  unfold audio_playbackData, finishes, traces.
  cbv [bind get gets getPlayback getSpice].
  destruct (negb (isSome (audioDev w)) || (size =? 0)).
  { intros H. injection H as <- <-. left. auto. }
  unfold stateOf.
  destruct (STREAM_ACTIVE (pb_state (playback w))) eqn:Hact; cbn [negb].
  2:{ intros H. injection H as <- <-. left. auto. }
  intros H. right. split; [reflexivity|].
  unfold spiceDataOf. fold (dataFrames size w) in *.
  set (frames := dataFrames size w) in *.
  set (pc := negb (frames =? sd_periodFrames (pb_spiceData (playback w)))) in *.
  set (init := sd_periodFrames (pb_spiceData (playback w)) =? 0) in *.
  destruct ((if pc then resizeScratch env frames else ret None) w)
    as [r w1| |] eqn:Hres; try discriminate.
  destruct r as [ex|].
  { injection H as <- <-. left.
    destruct pc eqn:Hpc; [|discriminate].
    unfold pc in Hpc. apply negb_true_iff, Z.eqb_neq in Hpc.
    split; [exact Hpc|]. split; [eapply resizeScratch_exits; eauto | exact Hres]. }
  cbv beta iota in H.
  destruct (call _ w1) as [[] w1'| |] eqn:Hcall; try discriminate.
  destruct (receiveTicks w1') as [[] w2| |] eqn:Hticks; try discriminate.
  destruct (spiceClock _ _ _ _ w2) as [[curTime curPosition] w3| |] eqn:Hclk;
    try discriminate.
  cbv beta iota in H.
  destruct (measureOffset _ _ _ w3) as [off w4| |] eqn:Hoff; try discriminate.
  destruct (resampleRatio _ w4) as [rt w5| |] eqn:Hratio; try discriminate.
  destruct (resampleLoop _ _ _ _ _ _ w5) as [lr w6| |] eqn:Hloop; try discriminate.
  right.
  exists {| at_resized := w1; at_received := w2; cur := (curTime, curPosition);
            at_clocked := w3; actualOffset := off; at_measured := w4;
            ratio := rt; at_controlled := w5; loopExit := lr;
            at_resampled := w6 |}.
  cbn [at_resized at_received cur at_clocked actualOffset at_measured ratio
       at_controlled loopExit at_resampled fst snd].
  split.
  - split; [destruct pc; [exact Hres | now injection Hres]|].
    split; [cbv [bind]; rewrite Hcall; exact Hticks|].
    repeat (split; [assumption|]). assumption.
  - destruct lr as [consumed|consumed].
    + injection H as <- <-. auto.
    + destruct (startGate w6) as [[] w7| |] eqn:Hgate; try discriminate.
      destruct (publishLatency env off w7) as [[] w8| |] eqn:Hpub; try discriminate.
      injection H as <- <-. split; [reflexivity|]. exists w7. auto.
Qed.

(** A serviceable call returns, and not through one of the guards. *)
Lemma playbackData_returns fuel env size w :
  serviceable fuel env size w ->
  exists e w',
    audio_playbackData fuel env size w = Ok e w'
    /\ finishes fuel env size w e w'.
Proof.
  intros (Hr & Hstart & Hact & Hsize & Hframes & Hc & Hp & Hfuel).
  assert (Hfr : dataFrames size w = size / mul32 (pb_channels (playback w)) 2).
  { unfold dataFrames. apply i32_small. unfold INT32_MIN. lia. }
  assert (Hex : exists e w', audio_playbackData fuel env size w = Ok e w'
                             /\ e <> ExitNoData /\ e <> ExitInactive).
  { assert (Hdev : isSome (audioDev w) = true) by apply Hr.
    apply Z.eqb_neq in Hsize.
    unfold audio_playbackData.
    cbv [bind get gets getPlayback getSpice]. rewrite Hdev, Hsize. cbn [negb orb].
    unfold stateOf in Hact. rewrite Hact. cbn [negb].
    fold (dataFrames size w).
    set (frames := dataFrames size w) in *.
    set (pc := negb (frames =? sd_periodFrames (pb_spiceData (playback w)))).
    set (init := sd_periodFrames (pb_spiceData (playback w)) =? 0).
    assert (Hres : exists r w1,
      (if pc then resizeScratch env frames else ret None) w = Ok r w1
      /\ (r = None -> ready w1)
      /\ (forall ex, r = Some ex -> ex <> ExitNoData /\ ex <> ExitInactive)).
    { destruct pc.
      - destruct (returns_resizeScratch env frames w Hr) as (r & w1 & H1 & H2).
        exists r, w1. split; [exact H1|]. split; [exact H2|].
        intros ex ->. apply resizeScratch_exits in H1.
        destruct H1 as [-> | ->]; split; discriminate.
      - exists None, w. split; [reflexivity|]. split; [auto | discriminate]. }
    destruct Hres as (r & w1 & Hres & Hr1 & Hex). rewrite Hres.
    destruct r as [ex|].
    { exists ex, w1. split; [reflexivity | apply Hex; reflexivity]. }
    specialize (Hr1 eq_refl).
    destruct (returns_call (EvShortToFloat (mul32 frames (pb_channels (playback w))))
                w1 Hr1) as ([] & w1' & Hcall & Hr1').
    destruct (returns_receiveTicks w1' Hr1') as ([] & w2 & Hticks & Hr2).
    destruct (returns_spiceClock (env_now env) frames pc init w2 Hr2)
      as (c & w3 & Hclk & Hr3).
    destruct (returns_measureOffset (fst c) (snd c)
                (sd_offsetError (pb_spiceData (playback w3))) w3 Hr3)
      as (off & w4 & Hoff & Hr4).
    destruct (returns_resampleRatio (sd_offsetError (pb_spiceData (playback w3)))
                w4 Hr4) as (rt & w5 & Hratio & Hr5).
    destruct (returns_resampleLoop fuel env frames rt Hc Hp
                ltac:(rewrite Hfr; exact Hframes) Hfuel w5 Hr5)
      as (lr & w6 & Hloop & Hr6).
    cbv beta iota. rewrite Hcall, Hticks, Hclk. destruct c as [curTime curPosition].
    cbn [fst snd] in Hoff. cbv beta iota. rewrite Hoff, Hratio, Hloop.
    destruct lr as [consumed|consumed].
    - eexists _, _. split; [reflexivity | split; discriminate].
    - assert (Hdev6 : audioDev w6 = audioDev w).
      { rewrite (resampleLoop_audioDev _ _ _ _ _ _ _ _ _ Hloop).
        rewrite (resampleRatio_audioDev _ _ _ _ Hratio).
        rewrite (measureOffset_audioDev _ _ _ _ _ _ Hoff).
        rewrite (spiceClock_audioDev _ _ _ _ _ _ _ Hclk).
        rewrite (receiveTicks_audioDev _ _ _ Hticks).
        rewrite (call_audioDev _ _ _ _ Hcall).
        destruct pc; [exact (resizeScratch_audioDev _ _ _ _ _ Hres)
                     | now injection Hres as <-]. }
      assert (Hstart6 : has_playback_start w6 = true).
      { unfold has_playback_start in *. rewrite Hdev6. exact Hstart. }
      destruct (returns_startGate w6 (conj Hr6 Hstart6))
        as ([] & w7 & Hgate & Hr7).
      destruct (returns_publishLatency env off w7 Hr7) as ([] & w8 & Hpub & _).
      rewrite Hgate, Hpub.
      eexists _, _. split; [reflexivity | split; discriminate]. }
  destruct Hex as (e & w' & Hrun & Hn1 & Hn2).
  exists e, w'. split; [exact Hrun|].
  destruct (playbackData_inv _ _ _ _ _ _ Hrun) as [[[-> | ->] _] | [_ H]];
    [contradiction | contradiction | exact H].
Qed.

Lemma resampleLoop_driver_inv env frames ratio fuel n consumed w r w' :
  resampleLoop fuel env frames ratio n consumed w = Ok r w' ->
  exists xs,
    driver fuel env frames (pb_channels (playback w))
      (sd_framesOutSize (spiceDataOf w)) ratio n consumed = Some (xs, r)
    /\ w' = fold_left afterExchange xs w.
Proof.
  destruct (pb_buffer (playback w)) as [rb|] eqn:Hrb.
  - rewrite resampleLoop_driver by (rewrite Hrb; reflexivity).
    destruct (driver _ _ _ _ _ _ _ _) as [[xs r0]|]; [|discriminate].
    intros H. injection H as <- <-. exists xs. auto.
  - destruct fuel as [|fuel]; cbn [resampleLoop driver].
    + destruct (consumed <? frames); [discriminate|].
      intros H. injection H as <- <-. exists []. auto.
    + destruct (consumed <? frames).
      2:{ intros H. injection H as <- <-. exists []. auto. }
      unfold driverRequest, spiceDataOf. run_prim.
      match goal with |- context [env_src_process env n ?req] =>
        set (request := req); set (result := env_src_process env n request)
      end.
      destruct (negb (src_error result =? 0)) eqn:Herr.
      * cbn. intros H. injection H as <- <-. exists [(request, result)].
        split; [reflexivity|]. cbn. unfold afterExchange. rewrite Herr. reflexivity.
      * unfold buffer_append. run_prim. rewrite Hrb. discriminate.
Qed.

Lemma ringbuffer_append_append a b rb :
  ringbuffer_append b (ringbuffer_append a rb) = ringbuffer_append (a + b) rb.
Proof. unfold ringbuffer_append. cbn. f_equal. lia. Qed.

Lemma framesAppended_cons x xs :
  framesAppended (x :: xs)
  = if succeeded x then i32 (src_output_frames_gen (snd x)) + framesAppended xs
    else framesAppended xs.
Proof. reflexivity. Qed.

Lemma framesGenerated_cons x xs :
  framesGenerated (x :: xs)
  = if succeeded x then src_output_frames_gen (snd x) + framesGenerated xs
    else framesGenerated xs.
Proof. reflexivity. Qed.

Lemma afterExchange_accounts w rb x :
  pb_buffer (playback w) = Some rb ->
  pb_buffer (playback (afterExchange w x))
  = Some (if succeeded x
          then ringbuffer_append (i32 (src_output_frames_gen (snd x))) rb
          else rb)
  /\ sd_nextPosition (spiceDataOf (afterExchange w x))
     = if succeeded x
       then add64 (sd_nextPosition (spiceDataOf w)) (src_output_frames_gen (snd x))
       else sd_nextPosition (spiceDataOf w).
Proof.
  intros Hrb. destruct x as [request result]. unfold afterExchange, succeeded.
  cbn [snd]. destruct (src_error result =? 0); cbn; rewrite Hrb; auto.
Qed.

(** What a conversation leaves in the coupling buffer and in
    [nextPosition]. *)
Lemma afterExchanges_accounts xs :
  forall w rb,
    pb_buffer (playback w) = Some rb ->
    pb_buffer (playback (fold_left afterExchange xs w))
    = Some (ringbuffer_append (framesAppended xs) rb)
    /\ i64 (sd_nextPosition (spiceDataOf (fold_left afterExchange xs w)))
       = i64 (sd_nextPosition (spiceDataOf w) + framesGenerated xs).
Proof.
  induction xs as [|x xs IH]; intros w rb Hrb; cbn [fold_left].
  - rewrite Hrb. unfold ringbuffer_append. cbn. rewrite !Z.add_0_r.
    destruct rb; auto.
  - rewrite framesAppended_cons, framesGenerated_cons.
    destruct (afterExchange_accounts w rb x Hrb) as [Hb1 Hn1].
    destruct (IH _ _ Hb1) as [Hb Hn]. rewrite Hb, Hn, Hn1.
    destruct (succeeded x).
    + rewrite ringbuffer_append_append. split; [reflexivity|].
      unfold add64. rewrite i64_add_l. f_equal. lia.
    + split; reflexivity.
Qed.

(** ** C3: when the device is started *)

(** The entry points of [audio.c], with what their collaborators answer. *)
Inductive Call : Type :=
| CallInit (chosen : option LG_AudioDevOps)
| CallFree
| CallPlaybackStart (src_new_ok : bool) (maxPeriodFrames channels sampleRate : Z)
| CallPlaybackStop
| CallPlaybackVolume (channels : Z) (volume : list Z)
| CallPlaybackMute (mute : bool)
| CallPlaybackData (fuel : nat) (env : DataEnv) (size : Z)
| CallPullFrames (now frames : Z)
| CallRecordStart (channels sampleRate : Z)
| CallRecordStop
| CallRecordVolume (channels : Z) (volume : list Z)
| CallRecordMute (mute : bool)
| CallRecordPush (frames : Z).

Definition step (c : Call) : M unit :=
  match c with
  | CallInit chosen => audio_init chosen
  | CallFree => audio_free
  | CallPlaybackStart src_new_ok maxPeriodFrames channels sampleRate =>
      audio_playbackStart src_new_ok maxPeriodFrames channels sampleRate
  | CallPlaybackStop => audio_playbackStop
  | CallPlaybackVolume channels volume => audio_playbackVolume channels volume
  | CallPlaybackMute mute => audio_playbackMute mute
  | CallPlaybackData fuel env size => audio_playbackData fuel env size ;; ret tt
  | CallPullFrames now frames => playbackPullFrames now frames ;; ret tt
  | CallRecordStart channels sampleRate => audio_recordStart channels sampleRate
  | CallRecordStop => audio_recordStop
  | CallRecordVolume channels volume => audio_recordVolume channels volume
  | CallRecordMute mute => audio_recordMute mute
  | CallRecordPush frames => recordPushFrames frames
  end.

Definition isStart (e : Event) : bool :=
  match e with EvPlaybackStart => true | _ => false end.

(** How often the backend's [playback.start()] has been called. *)
Definition starts (w : AudioState) : nat := length (filter isStart (calls w)).

(** [startFrames] of line 620. *)
Definition startFrames (w : AudioState) : Z :=
  add32 (mul32 (sd_periodFrames (spiceDataOf w)) 2)
        (mul32 (pb_deviceMaxPeriodFrames (playback w)) 2).

(** No call of [playback.start()], and the stream does not get to RUN. *)
Definition quiet : relation AudioState :=
  fun w w' =>
    starts w' = starts w
    /\ (stateOf w' = STREAM_STATE_RUN -> stateOf w = STREAM_STATE_RUN).

(** No call of [playback.start()], and the stream keeps its state or
    stops. *)
Definition calm : relation AudioState :=
  fun w w' =>
    starts w' = starts w
    /\ (stateOf w' = stateOf w \/ stateOf w' = STREAM_STATE_STOP).

#[export] Instance quiet_PreOrder : PreOrder quiet.
Proof.
  split.
  - intros w. split; auto.
  - intros w1 w2 w3 [H1 H2] [H3 H4]. split; [congruence | auto].
Qed.

#[export] Instance calm_PreOrder : PreOrder calm.
Proof.
  split.
  - intros w. split; auto.
  - intros w1 w2 w3 [H1 H2] [H3 H4]. split; [congruence|].
    destruct H4 as [H4 | H4]; [rewrite H4; exact H2 | now right].
Qed.

Lemma calm_quiet w w' : calm w w' -> quiet w w'.
Proof.
  intros [H1 H2]. split; [exact H1|].
  intros Hrun. destruct H2 as [H2 | H2]; congruence.
Qed.

Ltac quiet_side :=
  unfold quiet, starts, stateOf; cbn;
  split; [reflexivity | intros; first [assumption | discriminate]].

Ltac calm_side :=
  unfold calm, starts, stateOf; cbn;
  split; [reflexivity | first [left; reflexivity | right; reflexivity]].

Lemma playbackStop_calm : respects calm playbackStop.
Proof. unfold playbackStop. resp_tac calm_side. Qed.

Lemma playbackStop_quiet : respects quiet playbackStop.
Proof. intros w a w' H. apply calm_quiet. exact (playbackStop_calm w a w' H). Qed.
#[export] Hint Resolve playbackStop_calm playbackStop_quiet : pres.

Lemma resizeScratch_calm env frames : respects calm (resizeScratch env frames).
Proof. unfold resizeScratch. resp_tac calm_side. Qed.

Lemma feed_calm e :
  isStart e = false -> respects calm (call e ;; receiveTicks).
Proof.
  intros He. apply respects_bind.
  - unfold call. apply respects_modify. intros w.
    unfold calm, starts, stateOf. cbn. rewrite He. auto.
  - intros _. unfold receiveTicks. resp_tac calm_side.
Qed.

Lemma spiceClock_calm now frames pc init :
  respects calm (spiceClock now frames pc init).
Proof. unfold spiceClock. resp_tac calm_side. Qed.

Lemma measureOffset_calm curTime curPosition offsetError :
  respects calm (measureOffset curTime curPosition offsetError).
Proof. unfold measureOffset. resp_tac calm_side. Qed.

Lemma resampleRatio_calm offsetError : respects calm (resampleRatio offsetError).
Proof. unfold resampleRatio. resp_tac calm_side. Qed.

Lemma loopEvent_not_start ratio e : loopEvent ratio e -> isStart e = false.
Proof. destruct e; cbn; try contradiction; reflexivity. Qed.

Lemma resampleLoop_calm fuel env frames ratio n consumed :
  respects calm (resampleLoop fuel env frames ratio n consumed).
Proof.
  intros w r w' H. apply resampleLoop_footprint in H.
  destruct H as (rb & np & evs & -> & Hevs).
  split; [|left; reflexivity].
  unfold starts. cbn. rewrite filter_app.
  replace (filter isStart evs) with (@nil Event); [reflexivity|].
  symmetry. induction Hevs as [|e evs He _ IH]; [reflexivity|].
  cbn. rewrite (loopEvent_not_start _ _ He). exact IH.
Qed.

(** The view of [audio] that the start gate reads and writes. *)
Definition gateView (w : AudioState) : nat * StreamState * Z * Z :=
  (starts w, stateOf w, startFrames w, sd_nextPosition (spiceDataOf w)).

Lemma publishLatency_gateView env off :
  preserves gateView (publishLatency env off).
Proof. unfold publishLatency. pres_tac. Qed.

Lemma startGate_cases w w' :
  startGate w = Ok tt w' ->
  (w' = w
   /\ ~ (stateOf w = STREAM_STATE_SETUP
         /\ startFrames w <= sd_nextPosition (spiceDataOf w)))
  \/ (stateOf w = STREAM_STATE_SETUP
      /\ startFrames w <= sd_nextPosition (spiceDataOf w)
      /\ gateView w'
         = (S (starts w), STREAM_STATE_RUN, startFrames w,
            sd_nextPosition (spiceDataOf w))).
Proof.
  unfold startGate, startFrames, stateOf, spiceDataOf. run_prim.
  destruct (pb_state (playback w)) eqn:Hst; cbn;
    try (intros H; injection H as <-; left; split;
         [reflexivity | intros [? _]; discriminate]).
  destruct (_ <=? _) eqn:Hle.
  - unfold devCall. run_prim. destruct (audioDev w) as [ops|]; [|discriminate].
    destruct (ops_playback_start ops); [|discriminate].
    cbn. intros H. injection H as <-. right. apply Z.leb_le in Hle.
    split; [reflexivity|]. split; [exact Hle|].
    unfold gateView, starts, stateOf, startFrames, spiceDataOf. cbn. reflexivity.
  - intros H. injection H as <-. left. split; [reflexivity|].
    apply Z.leb_gt in Hle. intros [_ H]. lia.
Qed.

Lemma audio_init_quiet chosen : respects quiet (audio_init chosen).
Proof. unfold audio_init. resp_tac quiet_side. Qed.

Lemma audio_recordStop_quiet : respects quiet audio_recordStop.
Proof. unfold audio_recordStop. resp_tac quiet_side. Qed.
#[export] Hint Resolve audio_recordStop_quiet : pres.

Lemma audio_free_quiet : respects quiet audio_free.
Proof. unfold audio_free. resp_tac quiet_side. Qed.

Lemma audio_playbackStart_quiet ok maxPeriodFrames channels sampleRate :
  respects quiet (audio_playbackStart ok maxPeriodFrames channels sampleRate).
Proof. unfold audio_playbackStart. resp_tac quiet_side. Qed.

Lemma audio_playbackStop_quiet : respects quiet audio_playbackStop.
Proof. unfold audio_playbackStop. resp_tac quiet_side. Qed.

Lemma audio_playbackVolume_quiet channels volume :
  respects quiet (audio_playbackVolume channels volume).
Proof. unfold audio_playbackVolume. resp_tac quiet_side. Qed.

Lemma audio_playbackMute_quiet mute : respects quiet (audio_playbackMute mute).
Proof. unfold audio_playbackMute. resp_tac quiet_side. Qed.

Lemma playbackPullFrames_quiet now frames :
  respects quiet (playbackPullFrames now frames).
Proof.
  unfold playbackPullFrames, pullBody, deviceClock, postTick, drainCheck.
  resp_tac quiet_side.
Qed.

Lemma audio_recordStart_quiet channels sampleRate :
  respects quiet (audio_recordStart channels sampleRate).
Proof. unfold audio_recordStart, recordConfigure. resp_tac quiet_side. Qed.

Lemma audio_recordVolume_quiet channels volume :
  respects quiet (audio_recordVolume channels volume).
Proof. unfold audio_recordVolume. resp_tac quiet_side. Qed.

Lemma audio_recordMute_quiet mute : respects quiet (audio_recordMute mute).
Proof. unfold audio_recordMute. resp_tac quiet_side. Qed.

Lemma recordPushFrames_quiet frames : respects quiet (recordPushFrames frames).
Proof. unfold recordPushFrames. resp_tac quiet_side. Qed.

(** What [audio_playbackData] does to the start gate. *)
Lemma playbackData_gate fuel env size w e w' :
  audio_playbackData fuel env size w = Ok e w' ->
  quiet w w'
  \/ (starts w' = S (starts w)
      /\ stateOf w = STREAM_STATE_SETUP
      /\ stateOf w' = STREAM_STATE_RUN
      /\ startFrames w' <= sd_nextPosition (spiceDataOf w')).
Proof.
  intros Hrun.
  destruct (playbackData_inv _ _ _ _ _ _ Hrun) as [[_ ->] | [_ Hfin]];
    [left; reflexivity|].
  destruct Hfin as [(_ & _ & Hres) | (t & Ht & Hexit)].
  { left. apply calm_quiet. exact (resizeScratch_calm _ _ _ _ _ Hres). }
  destruct Ht as (Hres & Hfeed & Hclk & Hoff & Hratio & Hloop).
  assert (Hcalm : calm w (at_resampled t)).
  { transitivity (at_resized t).
    { destruct (negb _); [exact (resizeScratch_calm _ _ _ _ _ Hres)
                         | rewrite Hres; reflexivity]. }
    transitivity (at_received t); [exact (feed_calm (EvShortToFloat _) eq_refl _ _ _ Hfeed)|].
    transitivity (at_clocked t); [exact (spiceClock_calm _ _ _ _ _ _ _ Hclk)|].
    transitivity (at_measured t); [exact (measureOffset_calm _ _ _ _ _ _ Hoff)|].
    transitivity (at_controlled t); [exact (resampleRatio_calm _ _ _ _ Hratio)|].
    exact (resampleLoop_calm _ _ _ _ _ _ _ _ _ Hloop). }
  destruct (loopExit t) as [consumed|consumed].
  { destruct Hexit as [_ ->]. left. apply calm_quiet, Hcalm. }
  destruct Hexit as (_ & w7 & Hgate & Hpub).
  pose proof (publishLatency_gateView _ _ _ _ _ Hpub) as Hview.
  unfold same, gateView in Hview. injection Hview as Hs Hst Hsf Hnp.
  destruct (startGate_cases _ _ Hgate) as [[-> _] | (Hsetup & Hle & Hview7)].
  - left. apply calm_quiet. destruct Hcalm as [Hc1 Hc2].
    split; [congruence|]. rewrite Hst. exact Hc2.
  - right. unfold gateView in Hview7. injection Hview7 as Hs7 Hst7 Hsf7 Hnp7.
    destruct Hcalm as [Hc1 Hc2].
    split; [congruence|]. split; [|split; [congruence|]].
    + destruct Hc2 as [Hc2 | Hc2]; congruence.
    + rewrite Hsf, Hnp, Hsf7, Hnp7. exact Hle.
Qed.

(** C3 (as amended).  Whatever entry point is called, the backend's
    [playback.start()] is called exactly when the stream goes from SETUP
    to RUN (once, and otherwise not at all); that only happens in
    [audio_playbackData], and only once the source write position
    [nextPosition] has reached
    [2 * periodFrames + 2 * deviceMaxPeriodFrames]. *)
Theorem device_start_gate :
  forall (c : Call) (w w' : AudioState),
    step c w = Ok tt w' ->
    (starts w' = starts w
     /\ ~ (stateOf w = STREAM_STATE_SETUP /\ stateOf w' = STREAM_STATE_RUN))
    \/ (starts w' = S (starts w)
        /\ stateOf w = STREAM_STATE_SETUP
        /\ stateOf w' = STREAM_STATE_RUN
        /\ (exists fuel env size, c = CallPlaybackData fuel env size)
        /\ startFrames w' <= sd_nextPosition (spiceDataOf w')).
Proof.
  intros c w w' Hstep.
  assert (Hquiet : forall v v', quiet v v' ->
    starts v' = starts v
    /\ ~ (stateOf v = STREAM_STATE_SETUP /\ stateOf v' = STREAM_STATE_RUN)).
  { intros v v' [H1 H2]. split; [exact H1|]. intros [H3 H4].
    rewrite (H2 H4) in H3. discriminate. }
  destruct c; cbn [step] in Hstep;
    try (left; apply Hquiet;
         first [ exact (audio_init_quiet _ _ _ _ Hstep)
               | exact (audio_free_quiet _ _ _ Hstep)
               | exact (audio_playbackStart_quiet _ _ _ _ _ _ _ Hstep)
               | exact (audio_playbackStop_quiet _ _ _ Hstep)
               | exact (audio_playbackVolume_quiet _ _ _ _ _ Hstep)
               | exact (audio_playbackMute_quiet _ _ _ _ Hstep)
               | exact (audio_recordStart_quiet _ _ _ _ _ Hstep)
               | exact (audio_recordStop_quiet _ _ _ Hstep)
               | exact (audio_recordVolume_quiet _ _ _ _ _ Hstep)
               | exact (audio_recordMute_quiet _ _ _ _ Hstep)
               | exact (recordPushFrames_quiet _ _ _ _ Hstep) ]).
  - apply bind_Ok_inv in Hstep. destruct Hstep as (e & w1 & Hrun & Hret).
    injection Hret as <-.
    destruct (playbackData_gate _ _ _ _ _ _ Hrun) as [Hq | (H1 & H2 & H3 & H4)].
    + left. apply Hquiet, Hq.
    + right. repeat (split; [assumption|]). split; [eauto | exact H4].
  - apply bind_Ok_inv in Hstep. destruct Hstep as (n & w1 & Hrun & Hret).
    injection Hret as <-.
    left. apply Hquiet. exact (playbackPullFrames_quiet _ _ _ _ _ Hrun).
Qed.

(** The fifth source period of the session starts the device. *)
Lemma device_start_gate_witness :
  (starts w_started = starts w_primed
   /\ ~ (stateOf w_primed = STREAM_STATE_SETUP
         /\ stateOf w_started = STREAM_STATE_RUN))
  \/ (starts w_started = S (starts w_primed)
      /\ stateOf w_primed = STREAM_STATE_SETUP
      /\ stateOf w_started = STREAM_STATE_RUN
      /\ (exists fuel env size,
            CallPlaybackData 4 (demoEnv 1080000000) 3840
            = CallPlaybackData fuel env size)
      /\ startFrames w_started <= sd_nextPosition (spiceDataOf w_started)).
Proof.
  apply (device_start_gate (CallPlaybackData 4 (demoEnv 1080000000) 3840)
           w_primed w_started).
  vm_compute. reflexivity.
Defined.

(** C3 as stated fails when the sink pulls before it is started: the
    gate opens on the 4800 frames written, of which 3776 are resident,
    fewer than the 3968 frames of two source and two sink periods. *)
Lemma start_gate_counterexample :
  exists w' rb,
    step (CallPlaybackData 4 (demoEnv 1080000000) 3840) w_pulled_early
      = Ok tt w'
    /\ stateOf w_pulled_early = STREAM_STATE_SETUP
    /\ stateOf w' = STREAM_STATE_RUN
    /\ starts w' = S (starts w_pulled_early)
    /\ pb_buffer (playback w') = Some rb
    /\ ringbuffer_getCount rb = 3776
    /\ 2 * sd_periodFrames (spiceDataOf w')
       + 2 * pb_deviceMaxPeriodFrames (playback w') = 3968
    /\ sd_nextPosition (spiceDataOf w') = 4800.
Proof.
  eexists _, _. split; [vm_compute; reflexivity|].
  vm_compute. repeat split; reflexivity.
Qed.

(** ** What each block of [audio_playbackData] leaves alone *)

(** The state of the offset filter and of the rate controller. *)
Definition controlOf (w : AudioState) : float * float * float :=
  let s := spiceDataOf w in
  (sd_offsetError s, sd_offsetErrorIntegral s, sd_ratioIntegral s).

(** The source side with its write position blanked: what the resampler
    loop does not touch. *)
Definition spiceSansPosition (w : AudioState) : PlaybackSpiceData :=
  set_sd_nextPosition 0 (spiceDataOf w).

(** Every [src_process] request logged in between carries [ratio]. *)
Definition requestsCarry (ratio : float) : relation AudioState :=
  fun w w' =>
    forall request,
      In (EvSrcProcess request) (calls w') ->
      In (EvSrcProcess request) (calls w) \/ src_ratio request = ratio.

#[export] Instance requestsCarry_PreOrder ratio : PreOrder (requestsCarry ratio).
Proof.
  split.
  - intros w request H. now left.
  - intros w1 w2 w3 H12 H23 request H.
    destruct (H23 request H) as [H2 | H2]; [apply H12, H2 | now right].
Qed.

Ltac carry_side :=
  unfold requestsCarry; cbn;
  first [ intros ? [? | ?]; [discriminate | now left]
        | intros ? ?; now left ].

Lemma playbackStop_control : preserves controlOf playbackStop.
Proof. unfold playbackStop. pres_tac. Qed.
Lemma playbackStop_carry ratio : respects (requestsCarry ratio) playbackStop.
Proof. unfold playbackStop. resp_tac carry_side. Qed.
#[export] Hint Resolve playbackStop_control playbackStop_carry : pres.

Lemma resizeScratch_control env frames :
  preserves controlOf (resizeScratch env frames).
Proof. unfold resizeScratch. pres_tac. Qed.
Lemma resizeScratch_carry ratio env frames :
  respects (requestsCarry ratio) (resizeScratch env frames).
Proof. unfold resizeScratch. resp_tac carry_side. Qed.

(** Receiving ticks writes the five [dev...] members and nothing else. *)
Definition sansTicks (s : PlaybackSpiceData) : PlaybackSpiceData :=
  set_sd_devPeriodFrames 0
    (set_sd_devLastTime 0
       (set_sd_devNextTime 0
          (set_sd_devLastPosition 0 (set_sd_devNextPosition 0 s)))).

Lemma receiveTick_sansTicks q :
  forall s, sansTicks (fold_left receiveTick q s) = sansTicks s.
Proof.
  induction q as [|tick q IH]; intros s; [reflexivity|].
  cbn [fold_left]. rewrite IH. reflexivity.
Qed.

Lemma receiveTicks_sansTicks :
  preserves (fun w => sansTicks (spiceDataOf w)) receiveTicks.
Proof.
  unfold receiveTicks. pres_tac.
  apply respects_modify. intros w. unfold same, spiceDataOf. cbn.
  apply receiveTick_sansTicks.
Qed.

Lemma sansTicks_control w w' :
  sansTicks (spiceDataOf w') = sansTicks (spiceDataOf w) ->
  controlOf w' = controlOf w.
Proof.
  unfold controlOf. intros H.
  apply (f_equal (fun s => (sd_offsetError s, sd_offsetErrorIntegral s,
                            sd_ratioIntegral s))) in H.
  exact H.
Qed.

Lemma receiveTicks_control : preserves controlOf receiveTicks.
Proof.
  intros w a w' H. apply sansTicks_control.
  exact (receiveTicks_sansTicks w a w' H).
Qed.

Lemma receiveTicks_carry ratio : respects (requestsCarry ratio) receiveTicks.
Proof. unfold receiveTicks. resp_tac carry_side. Qed.

Lemma spiceClock_control now frames pc init :
  preserves controlOf (spiceClock now frames pc init).
Proof. unfold spiceClock. pres_tac. Qed.

Lemma spiceClock_carry ratio now frames pc init :
  respects (requestsCarry ratio) (spiceClock now frames pc init).
Proof. unfold spiceClock. resp_tac carry_side. Qed.

(** What the offset filter leaves alone. *)
Definition sansFilter (w : AudioState) : PlaybackSpiceData :=
  set_sd_offsetError 0%float (set_sd_offsetErrorIntegral 0%float (spiceDataOf w)).

Lemma measureOffset_sansFilter curTime curPosition offsetError :
  preserves sansFilter (measureOffset curTime curPosition offsetError).
Proof. unfold measureOffset. pres_tac. Qed.

Lemma measureOffset_carry ratio curTime curPosition offsetError :
  respects (requestsCarry ratio) (measureOffset curTime curPosition offsetError).
Proof. unfold measureOffset. resp_tac carry_side. Qed.

(** What the rate controller leaves alone. *)
Definition sansIntegral (w : AudioState) : PlaybackSpiceData :=
  set_sd_ratioIntegral 0%float (spiceDataOf w).

Lemma resampleRatio_sansIntegral offsetError :
  preserves sansIntegral (resampleRatio offsetError).
Proof. unfold resampleRatio. pres_tac. Qed.

Lemma resampleRatio_carry ratio offsetError :
  respects (requestsCarry ratio) (resampleRatio offsetError).
Proof. unfold resampleRatio. resp_tac carry_side. Qed.



Lemma resampleLoop_sansPosition fuel env frames ratio n consumed :
  preserves spiceSansPosition (resampleLoop fuel env frames ratio n consumed).
Proof.
  intros w r w' H. apply resampleLoop_footprint in H.
  destruct H as (rb & np & evs & -> & _). reflexivity.
Qed.

Lemma resampleLoop_carry fuel env frames ratio n consumed :
  respects (requestsCarry ratio) (resampleLoop fuel env frames ratio n consumed).
Proof.
  intros w r w' H. apply resampleLoop_footprint in H.
  destruct H as (rb & np & evs & -> & Hevs). intros request Hin.
  cbn in Hin. apply in_app_or in Hin. destruct Hin as [Hin | Hin]; [|now left].
  right. rewrite Forall_forall in Hevs. exact (Hevs _ Hin).
Qed.

Lemma startGate_spice : preserves spiceDataOf startGate.
Proof. unfold startGate. pres_tac. Qed.

Lemma startGate_carry ratio : respects (requestsCarry ratio) startGate.
Proof. unfold startGate. resp_tac carry_side. Qed.

Lemma publishLatency_spice env off : preserves spiceDataOf (publishLatency env off).
Proof. unfold publishLatency. pres_tac. Qed.

Lemma publishLatency_carry ratio env off :
  respects (requestsCarry ratio) (publishLatency env off).
Proof. unfold publishLatency. resp_tac carry_side. Qed.

Lemma feed_control e : preserves controlOf (call e ;; receiveTicks).
Proof.
  apply respects_bind; [unfold call; pres_tac | intros _; apply receiveTicks_control].
Qed.

Lemma feed_carry ratio samples :
  respects (requestsCarry ratio) (call (EvShortToFloat samples) ;; receiveTicks).
Proof.
  apply respects_bind; [unfold call; resp_tac carry_side
                       | intros _; apply receiveTicks_carry].
Qed.

(** Along the trace of a serviced call: what the blocks before the rate
    controller leave of the filter and controller state, and what the
    blocks after it leave of the source side. *)
Lemma traces_control fuel env size w t :
  traces fuel env size w t ->
  controlOf (at_clocked t) = controlOf w
  /\ sansFilter (at_measured t) = sansFilter (at_clocked t)
  /\ sansIntegral (at_controlled t) = sansIntegral (at_measured t)
  /\ spiceSansPosition (at_resampled t) = spiceSansPosition (at_controlled t)
  /\ requestsCarry (ratio t) w (at_resampled t).
Proof.
  intros (Hres & Hfeed & Hclk & Hoff & Hratio & Hloop).
  assert (H1 : controlOf (at_resized t) = controlOf w
               /\ requestsCarry (ratio t) w (at_resized t)).
  { destruct (negb _).
    - split; [exact (resizeScratch_control _ _ _ _ _ Hres)
             | exact (resizeScratch_carry _ _ _ _ _ _ Hres)].
    - rewrite Hres. split; reflexivity. }
  destruct H1 as [Hc1 Hr1].
  pose proof (feed_control _ _ _ _ Hfeed) as Hc2.
  pose proof (feed_carry (ratio t) _ _ _ _ Hfeed) as Hr2.
  pose proof (spiceClock_control _ _ _ _ _ _ _ Hclk) as Hc3.
  pose proof (spiceClock_carry (ratio t) _ _ _ _ _ _ _ Hclk) as Hr3.
  pose proof (measureOffset_sansFilter _ _ _ _ _ _ Hoff) as Hc4.
  pose proof (measureOffset_carry (ratio t) _ _ _ _ _ _ Hoff) as Hr4.
  pose proof (resampleRatio_sansIntegral _ _ _ _ Hratio) as Hc5.
  pose proof (resampleRatio_carry (ratio t) _ _ _ _ Hratio) as Hr5.
  pose proof (resampleLoop_sansPosition _ _ _ _ _ _ _ _ _ Hloop) as Hc6.
  pose proof (resampleLoop_carry _ _ _ _ _ _ _ _ _ Hloop) as Hr6.
  unfold same in *.
  split; [congruence|]. split; [exact Hc4|]. split; [exact Hc5|].
  split; [exact Hc6|].
  repeat (etransitivity; [eassumption|]). reflexivity.
Qed.

(** ** C4: the target latency *)

(** C4.  When a pair of sink ticks has been observed
    ([devLastTime != INT64_MIN]), the offset filter of
    [audio_playbackData] is driven against the target latency
    [13 * sampleRate / 1000 + deviceMaxPeriodFrames * 1.1] frames, to which
    [deviceMaxPeriodFrames - devPeriodFrames] is added whenever the most
    recent sink period is below the maximum. *)
Theorem target_latency_policy :
  forall (curTime curPosition : Z) (offsetError : float) (w : AudioState),
    let s := spiceDataOf w in
    let sampleRate := pb_sampleRate (playback w) in
    let deviceMaxPeriodFrames := pb_deviceMaxPeriodFrames (playback w) in
    let devPeriodFrames := sd_devPeriodFrames s in
    let base :=
      (Z2D (mul32 13 sampleRate) / 1000.0 + Z2D deviceMaxPeriodFrames * 1.1)%float in
    let devPosition :=
      (Z2D (sd_devLastPosition s)
       + Z2D (sub64 (sd_devNextPosition s) (sd_devLastPosition s))
         * (Z2D (sub64 curTime (sd_devLastTime s))
            / Z2D (sub64 (sd_devNextTime s) (sd_devLastTime s))))%float in
    sd_devLastTime s <> INT64_MIN ->
    exists target w',
      measureOffset curTime curPosition offsetError w
        = Ok (Z2D curPosition - devPosition)%float w'
      /\ (deviceMaxPeriodFrames <= devPeriodFrames -> target = base)
      /\ (devPeriodFrames < deviceMaxPeriodFrames ->
          target
          = (base + Z2D (sub32 deviceMaxPeriodFrames devPeriodFrames))%float)
      /\ let error :=
           (- ((Z2D curPosition - devPosition) - target) - offsetError)%float in
         let s' := spiceDataOf w' in
         sd_offsetError s'
         = (sd_offsetError s + (sd_b s * error + sd_offsetErrorIntegral s))%float
         /\ sd_offsetErrorIntegral s'
            = (sd_offsetErrorIntegral s + sd_c s * error)%float.
Proof.
  intros curTime curPosition offsetError w s sampleRate deviceMaxPeriodFrames
    devPeriodFrames base devPosition Hlast.
  exists (targetLatencyFrames sampleRate deviceMaxPeriodFrames devPeriodFrames).
  unfold measureOffset. run_prim.
  apply Z.eqb_neq in Hlast. unfold s, spiceDataOf in Hlast. rewrite Hlast.
  cbn [negb]. eexists. split; [reflexivity|].
  split; [|split].
  - intros Hle. unfold targetLatencyFrames.
    apply Z.ltb_ge in Hle. rewrite Hle. reflexivity.
  - intros Hlt. unfold targetLatencyFrames.
    apply Z.ltb_lt in Hlt. rewrite Hlt. reflexivity.
  - cbn. split; reflexivity.
Qed.

(** [w_reduced] sees a sink period of 256 frames against a maximum of
    1024. *)
Lemma target_latency_policy_witness :
  exists target w',
    measureOffset 1140000000 6720 (sd_offsetError (spiceDataOf w_reduced)) w_reduced
      = Ok 4475.9619430976472%float w'
    /\ (1024 <= 256 ->
        target = (Z2D (mul32 13 48000) / 1000.0 + Z2D 1024 * 1.1)%float)
    /\ (256 < 1024 ->
        target
        = (Z2D (mul32 13 48000) / 1000.0 + Z2D 1024 * 1.1
           + Z2D (sub32 1024 256))%float)
    /\ let error :=
         (- (4475.9619430976472 - target)
          - sd_offsetError (spiceDataOf w_reduced))%float in
       sd_offsetError (spiceDataOf w')
       = (sd_offsetError (spiceDataOf w_reduced)
          + (sd_b (spiceDataOf w_reduced) * error
             + sd_offsetErrorIntegral (spiceDataOf w_reduced)))%float.
Proof.
  destruct (target_latency_policy 1140000000 6720
              (sd_offsetError (spiceDataOf w_reduced)) w_reduced)
    as (target & w' & Hrun & Hbase & Hmore & Hfilter & _).
  - discriminate.
  - exists target, w'. repeat split; assumption.
Defined.

(** Scenario S4 of the specification: at 48 kHz with a largest period of
    1024 frames the target is 1750.4 frames, and 768 frames more while the
    device runs at 256 frames. *)
Example target_latency_S4 :
  targetLatencyFrames 48000 1024 1024 = 1750.4%float
  /\ targetLatencyFrames 48000 1024 256 = 2518.4%float.
Proof. split; reflexivity. Qed.

(** ** C8: draining and stopping *)

(** The calls [playbackStop] makes, most recent first, given whether
    scratch buffers were allocated. *)
Definition stopCalls (haveScratch : bool) : list Event :=
  [EvRingFree TheTimings; EvUnregisterGraph]
  ++ (if haveScratch then [EvFree FramesOut; EvFree FramesIn] else [])
  ++ [EvSrcDelete; EvRingFree TheDeviceTiming; EvRingFree TheBuffer;
      EvPlaybackStop].

(** The scratch buffers are either both allocated, or [framesIn] is
    [NULL] and [framesOut] does not point to a live block. *)
Definition scratchOk (s : PlaybackSpiceData) : Prop :=
  (sd_framesIn s = Live /\ sd_framesOut s = Live)
  \/ (sd_framesIn s = NULL /\ sd_framesOut s <> Live).

(** [w'] is [w] torn down by [playbackStop]. *)
Definition stopped (w w' : AudioState) : Prop :=
  let s := spiceDataOf w in
  let s' := spiceDataOf w' in
  stateOf w' = STREAM_STATE_STOP
  /\ calls w' = stopCalls (nonnull (sd_framesIn s)) ++ calls w
  /\ pb_buffer (playback w') = None
  /\ pb_deviceTiming (playback w') = None
  /\ pb_timings (playback w') = None
  /\ sd_src s' = NULL
  /\ sd_framesIn s' = NULL
  /\ (scratchOk s -> sd_framesOut s' <> Live).

Lemma playbackStop_stops w :
  ready w -> stateOf w <> STREAM_STATE_STOP ->
  exists w', playbackStop w = Ok tt w' /\ stopped w w'.
Proof.
  intros Hr Hst. ready_cases w Hr. apply StreamState_eqb_neq in Hst.
  destruct w as [dev [st vc v m ch sr stride dm buf dt tm g dd sd] r lc ls cs].
  destruct sd as [fin fout fos pf ps nt np b c dpf dlt dnt dlp dnp oe oei ri src].
  cbn in *. subst.
  unfold playbackStop, stopped, stopCalls, scratchOk, spiceDataOf, stateOf.
  destruct st; try discriminate; destruct fin;
    (eexists; split; [vm_compute; reflexivity|]; cbn;
     repeat (split; [reflexivity|]));
    try (intros _; discriminate);
    (intros [[Hl _] | [_ Hout]]; [discriminate | exact Hout]).
Qed.

Lemma playbackStop_idempotent w :
  stateOf w = STREAM_STATE_STOP -> playbackStop w = Ok tt w.
Proof.
  unfold stateOf. intros H. unfold playbackStop. run_prim. rewrite H. reflexivity.
Qed.

Lemma deviceClock_state now frames : preserves stateOf (deviceClock now frames).
Proof. unfold deviceClock. pres_tac. Qed.
Lemma postTick_state : preserves stateOf postTick.
Proof. unfold postTick. pres_tac. Qed.
Lemma buffer_consume_state b n : preserves stateOf (buffer_consume b n).
Proof. unfold buffer_consume. pres_tac. Qed.

(** On a ready stream the body of a pull returns the frames asked for and
    leaves the stream ready and in its state. *)
Lemma pullBody_ready now frames w :
  ready w ->
  exists w1 rb1,
    pullBody now frames w = Ok frames w1
    /\ ready w1
    /\ pb_buffer (playback w1) = Some rb1
    /\ stateOf w1 = stateOf w.
Proof.
  intros Hr.
  destruct (returns_deviceClock now frames w Hr) as ([] & wa & Hclk & Hra).
  destruct (returns_postTick wa Hra) as ([] & wb & Htick & Hrb).
  destruct (returns_buffer_consume false frames wb Hrb) as ([] & w1 & Hcons & Hr1).
  assert (Hbuf : isSome (pb_buffer (playback w)) = true) by apply Hr.
  assert (Hbuf1 : isSome (pb_buffer (playback w1)) = true) by apply Hr1.
  destruct (pb_buffer (playback w1)) as [rb1|] eqn:Hrb1; [|discriminate].
  exists w1, rb1. split.
  - unfold pullBody. cbv [bind getPlayback gets]. rewrite Hbuf.
    rewrite Hclk, Htick, Hcons. reflexivity.
  - split; [exact Hr1|]. split; [exact Hrb1|].
    rewrite (buffer_consume_state _ _ _ _ _ Hcons).
    rewrite (postTick_state _ _ _ Htick).
    exact (deviceClock_state _ _ _ _ _ Hclk).
Qed.

(** C8.  In DRAIN, a pull of [frames <> 0] on a ready stream consumes
    its frames and then looks at the coupling buffer: while frames remain
    the stream stays in DRAIN; the pull that finds a count of at most 0
    runs [playbackStop], after which the state is STOP, the backend's
    [playback.stop()] has been called, the coupling buffer, the tick queue
    and the latency ring are freed, the resampler is deleted, the scratch
    buffers (if any were allocated) are freed and the graph is
    unregistered.  [playbackStop] in STOP changes nothing, so stopping
    again is harmless. *)
Theorem drained_pull_stops_stream :
  forall (now frames : Z) (w : AudioState),
    (ready w -> stateOf w = STREAM_STATE_DRAIN -> frames <> 0 ->
     exists w1 rb1,
       pullBody now frames w = Ok frames w1
       /\ pb_buffer (playback w1) = Some rb1
       /\ (0 < ringbuffer_getCount rb1 ->
           playbackPullFrames now frames w = Ok frames w1
           /\ stateOf w1 = STREAM_STATE_DRAIN)
       /\ (ringbuffer_getCount rb1 <= 0 ->
           exists w',
             playbackPullFrames now frames w = Ok frames w'
             /\ stopped w1 w'
             /\ playbackStop w' = Ok tt w'))
    /\ (stateOf w = STREAM_STATE_STOP -> playbackStop w = Ok tt w).
Proof.
  intros now frames w. split; [|apply playbackStop_idempotent].
  intros Hr Hdrain Hf.
  destruct (pullBody_ready now frames w Hr) as (w1 & rb1 & Hbody & Hr1 & Hrb1 & Hst1).
  rewrite Hdrain in Hst1.
  exists w1, rb1. split; [exact Hbody|]. split; [exact Hrb1|].
  apply Z.eqb_neq in Hf.
  assert (Hpull : forall w',
    (if ringbuffer_getCount rb1 <=? 0 then playbackStop w1 else Ok tt w1)
    = Ok tt w' ->
    playbackPullFrames now frames w = Ok frames w').
  { intros w' Hcheck. unfold playbackPullFrames. rewrite Hf.
    cbv [bind]. rewrite Hbody. unfold drainCheck, buffer_getCount.
    cbv [bind getPlayback gets]. unfold stateOf in Hst1. rewrite Hst1.
    cbn [StreamState_eqb]. cbv beta. rewrite Hrb1. cbv [ret skip].
    destruct (ringbuffer_getCount rb1 <=? 0); cbv beta.
    - rewrite Hcheck. reflexivity.
    - injection Hcheck as <-. reflexivity. }
  split.
  - intros Hpos. apply Z.leb_gt in Hpos. split; [|exact Hst1].
    apply Hpull. rewrite Hpos. reflexivity.
  - intros Hle. apply Z.leb_le in Hle.
    destruct (playbackStop_stops w1 Hr1) as (w' & Hstop & Hstopped).
    { rewrite Hst1. discriminate. }
    exists w'. split; [apply Hpull; rewrite Hle; exact Hstop|].
    split; [exact Hstopped|].
    apply playbackStop_idempotent. apply Hstopped.
Qed.

(** The pull that empties [w_nearly_drained], and [playbackStop] on the
    initial state. *)
Lemma drained_pull_stops_stream_witness :
  (exists w1 rb1,
     pullBody 1187000000 1024 w_nearly_drained = Ok 1024 w1
     /\ pb_buffer (playback w1) = Some rb1
     /\ (0 < ringbuffer_getCount rb1 ->
         playbackPullFrames 1187000000 1024 w_nearly_drained = Ok 1024 w1
         /\ stateOf w1 = STREAM_STATE_DRAIN)
     /\ (ringbuffer_getCount rb1 <= 0 ->
         exists w',
           playbackPullFrames 1187000000 1024 w_nearly_drained = Ok 1024 w'
           /\ stopped w1 w'
           /\ playbackStop w' = Ok tt w'))
  /\ playbackStop initialAudio = Ok tt initialAudio.
Proof.
  split.
  - apply (drained_pull_stops_stream 1187000000 1024 w_nearly_drained).
    + repeat split; reflexivity.
    + reflexivity.
    + discriminate.
  - apply (drained_pull_stops_stream 0 0 initialAudio). reflexivity.
Defined.

(** Scenario S5 of the specification, on [w_nearly_drained]: the pull
    that empties the buffer stops the stream. *)
Example drain_S5 :
  exists w',
    playbackPullFrames 1187000000 1024 w_nearly_drained = Ok 1024 w'
    /\ stateOf w_nearly_drained = STREAM_STATE_DRAIN
    /\ pb_buffer (playback w_nearly_drained)
       = Some {| rb_writeHead := 5760; rb_readHead := 5120 |}
    /\ stateOf w' = STREAM_STATE_STOP
    /\ firstn 9 (calls w')
       = stopCalls true ++ [EvBufferConsume false 1024]
    /\ sd_framesIn (spiceDataOf w') = NULL
    /\ sd_framesOut (spiceDataOf w') = NULL
    /\ sd_src (spiceDataOf w') = NULL.
Proof. eexists. split; [vm_compute; reflexivity|]. vm_compute. repeat split. Qed.


(** ** C9: what [audio_recordStart] reapplies *)

(** Restarting a started record stream with the format it already has
    does nothing. *)
Lemma recordStart_same_format_is_noop channels sampleRate w :
  isSome (audioDev w) = true ->
  rec_started (record w) = true ->
  channels = lastChannels w -> sampleRate = lastSampleRate w ->
  audio_recordStart channels sampleRate w = Ok tt w.
Proof.
  intros Hdev Hstarted -> ->. unfold audio_recordStart. run_prim.
  rewrite Hdev, Hstarted, !Z.eqb_refl. reflexivity.
Qed.

(** C9 (what the code does instead).  [audio_recordStart] tests the cached
    record volume but hands the cached playback volume and the cached
    playback mute flag to the backend's record callbacks: with a record
    volume of two channels (100, 200) and a record mute of [true] cached,
    the backend receives [record.volume(0, {0, ...})] and
    [record.mute(false)]. *)
Theorem recordStart_applies_playback_cache :
  rec_volumeChannels (record w_record_cached) = 2
  /\ rec_volume (record w_record_cached) = [100; 200; 0; 0; 0; 0; 0; 0]
  /\ rec_mute (record w_record_cached) = true
  /\ exists w',
       audio_recordStart 2 48000 w_record_cached = Ok tt w'
       /\ calls w'
          = [EvRecordMute false;
             EvRecordVolume 0 [0; 0; 0; 0; 0; 0; 0; 0];
             EvRecordStart 2 48000].
Proof.
  repeat split; try reflexivity. eexists. split; vm_compute; reflexivity.
Qed.

(** ** C10: a pull of zero frames *)

(** C10. [playbackPullFrames] called with [frames == 0] returns [0] and
    leaves the whole of [audio] as it was: nothing is consumed from the
    coupling buffer, no tick is queued, the device clock state is
    untouched, no call leaves the module, and the drain check is not
    reached, whatever the stream state. *)
Theorem pull_zero_frames_is_noop :
  forall (now : Z) (w : AudioState),
    playbackPullFrames now 0 w = Ok 0 w.
Proof. intros now w. reflexivity. Qed.

(** ** C7: data submitted while the stream is not active *)

(** C7. When the stream state is STOP or DRAIN, [audio_playbackData]
    returns through one of its two guards and [audio] is unchanged as a
    whole: state, coupling buffer, tick queue, both clock trackers, the
    offset filter, the rate controller and the log of outgoing calls. *)
Theorem playbackData_inactive_is_dropped :
  forall (fuel : nat) (env : DataEnv) (size : Z) (w : AudioState),
    pb_state (playback w) = STREAM_STATE_STOP
    \/ pb_state (playback w) = STREAM_STATE_DRAIN ->
    exists e,
      audio_playbackData fuel env size w = Ok e w
      /\ (e = ExitNoData \/ e = ExitInactive).
Proof.
  intros fuel env size w Hstate.
  unfold audio_playbackData, bind, get, gets.
  destruct (negb (isSome (audioDev w)) || (size =? 0)).
  - exists ExitNoData. split; [reflexivity | now left].
  - assert (Hact : STREAM_ACTIVE (pb_state (playback w)) = false)
      by (destruct Hstate as [-> | ->]; reflexivity).
    rewrite Hact. exists ExitInactive. split; [reflexivity | now right].
Qed.

(** Data submitted to the draining stream [w_draining]. *)
Lemma playbackData_inactive_is_dropped_witness :
  exists e,
    audio_playbackData 4 (demoEnv 1200000000) 3840 w_draining = Ok e w_draining
    /\ (e = ExitNoData \/ e = ExitInactive).
Proof.
  apply (playbackData_inactive_is_dropped 4 (demoEnv 1200000000) 3840 w_draining).
  right. reflexivity.
Defined.

(** * The rest of [audio.c]: life cycle, resources and the backend protocol *)

(** ** Running a function on a symbolic state *)

(** Every return of the computation from [w] satisfies [Q]. *)
Definition wp {A : Type} (m : M A) (Q : A -> AudioState -> Prop)
    (w : AudioState) : Prop :=
  forall a w', m w = Ok a w' -> Q a w'.

(** The computation returns from [w], with a value and in a state that
    satisfy [Q]. *)
Definition yields {A : Type} (m : M A) (Q : A -> AudioState -> Prop)
    (w : AudioState) : Prop :=
  exists a w', m w = Ok a w' /\ Q a w'.

Lemma wp_ret {A} (a : A) Q w : Q a w -> wp (ret a) Q w.
Proof. intros H a' w' E. injection E as <- <-. exact H. Qed.

Lemma wp_gets {A} (f : AudioState -> A) Q w : Q (f w) w -> wp (gets f) Q w.
Proof. intros H a' w' E. injection E as <- <-. exact H. Qed.

Lemma wp_modify f Q w : Q tt (f w) -> wp (modify f) Q w.
Proof. intros H [] w' E. injection E as <-. exact H. Qed.

Lemma wp_nullDeref {A} Q w : wp (@nullDeref A) Q w.
Proof. intros a' w' E. discriminate. Qed.

Lemma wp_outOfFuel {A} Q w : wp (@outOfFuel A) Q w.
Proof. intros a' w' E. discriminate. Qed.

Lemma wp_bind {A B} (m : M A) (k : A -> M B) Q w :
  wp m (fun a w' => wp (k a) Q w') w -> wp (bind m k) Q w.
Proof.
  intros H b w'' E. apply bind_Ok_inv in E. destruct E as (a & w' & E1 & E2).
  exact (H a w' E1 b w'' E2).
Qed.

Lemma yields_ret {A} (a : A) Q w : Q a w -> yields (ret a) Q w.
Proof. intros H. exists a, w. split; [reflexivity | exact H]. Qed.

Lemma yields_gets {A} (f : AudioState -> A) Q w :
  Q (f w) w -> yields (gets f) Q w.
Proof. intros H. exists (f w), w. split; [reflexivity | exact H]. Qed.

Lemma yields_modify f Q w : Q tt (f w) -> yields (modify f) Q w.
Proof. intros H. exists tt, (f w). split; [reflexivity | exact H]. Qed.

Lemma yields_bind {A B} (m : M A) (k : A -> M B) Q w :
  yields m (fun a w' => yields (k a) Q w') w -> yields (bind m k) Q w.
Proof.
  intros (a & w' & E1 & b & w'' & E2 & H). exists b, w''.
  split; [|exact H]. rewrite (bind_Ok _ _ _ _ _ E1). exact E2.
Qed.

Lemma yields_unit (m : M unit) (Q : AudioState -> Prop) w :
  yields m (fun _ => Q) w -> exists w', m w = Ok tt w' /\ Q w'.
Proof. intros ([] & w' & E & H). exists w'. auto. Qed.

Lemma yields_wp {A} (m : M A) Q w : yields m Q w -> wp m Q w.
Proof.
  intros (a & w' & E & H) a' w'' E'. rewrite E in E'. injection E' as <- <-.
  exact H.
Qed.

Lemma yields_weaken {A} (m : M A) (Q Q' : A -> AudioState -> Prop) w :
  yields m Q w -> (forall a w', Q a w' -> Q' a w') -> yields m Q' w.
Proof. intros (a & w' & E & H) HQ. exists a, w'. auto. Qed.

Lemma wp_weaken {A} (m : M A) (Q Q' : A -> AudioState -> Prop) w :
  wp m Q w -> (forall a w', Q a w' -> Q' a w') -> wp m Q' w.
Proof. intros H HQ a w' E. apply HQ, H, E. Qed.

Ltac head_of t := lazymatch t with ?f _ => head_of f | _ => t end.

(** A test that the state or a hypothesis decides is followed; any other
    splits the goal. *)
Ltac run_case x :=
  let x' := eval cbn in x in
  let h := head_of x' in
  tryif is_constructor h
  then (change x with x'; cbv beta iota)
  else
    (change x with x';
     first [ match goal with
             | H : x' = _ |- _ => rewrite H; cbv beta iota
             end
           | destruct x' eqn:? ]).

(** The state after an assignment, as a record of its members. *)
Ltac assigned t :=
  let t1 := eval cbv beta delta
      [set_dd_periodFrames set_dd_periodSec set_dd_nextTime
       set_dd_nextPosition set_dd_b set_dd_c set_sd_framesIn
       set_sd_framesOut set_sd_framesOutSize set_sd_periodFrames
       set_sd_periodSec set_sd_nextTime set_sd_nextPosition
       set_sd_b set_sd_c set_sd_devPeriodFrames set_sd_devLastTime
       set_sd_devNextTime set_sd_devLastPosition
       set_sd_devNextPosition set_sd_offsetError
       set_sd_offsetErrorIntegral set_sd_ratioIntegral set_sd_src
       set_pb_state set_pb_volumeChannels set_pb_volume
       set_pb_mute set_pb_channels set_pb_sampleRate set_pb_stride
       set_pb_deviceMaxPeriodFrames set_pb_buffer
       set_pb_deviceTiming set_pb_timings set_pb_graph
       set_pb_deviceData set_pb_spiceData set_rec_started
       set_rec_volumeChannels set_rec_volume set_rec_mute
       set_rec_stride set_audioDev set_playback set_record
       set_lastChannels set_lastSampleRate set_calls] in t in
  eval cbn in t1.

(** One statement of the computation, on the symbolic state. *)
Ltac run_step :=
  lazymatch goal with
  | |- ?T (bind _ _) _ _ => first [apply wp_bind | apply yields_bind]
  | |- ?T (ret _) _ _ => first [apply wp_ret | apply yields_ret]; cbv beta
  | |- ?T (gets ?f) ?Q ?w =>
      let a := eval cbn in (f w) in
      first [apply wp_gets | apply yields_gets]; change (Q a w); cbv beta
  | |- ?T (modify ?f) ?Q ?w =>
      let w' := assigned (f w) in
      first [apply wp_modify | apply yields_modify]; change (Q tt w'); cbv beta
  | |- wp nullDeref _ _ => apply wp_nullDeref
  | |- wp outOfFuel _ _ => apply wp_outOfFuel
  | |- ?T (if ?b then _ else _) _ _ => run_case b
  | |- ?T (match ?x with _ => _ end) _ _ => run_case x
  | |- ?T ?m ?Q ?w =>
      let m' := eval cbv beta zeta delta
                  [skip get call devCall getPlayback getDevice getSpice
                   getRecord modPlayback modDevice modSpice modRecord
                   buffer_append buffer_consume buffer_getCount
                   ringbuffer_free free_scratch] in m in
      progress change (T m' Q w)
  end.
Ltac run_tac := repeat run_step.

(** A computation that never runs out of fuel: anything without the
    resampler loop. *)
Definition fuelFree {A : Type} (m : M A) : Prop :=
  forall w, m w <> OutOfFuel.

Lemma fuelFree_ret {A} (a : A) : fuelFree (ret a).
Proof. intros w. discriminate. Qed.

Lemma fuelFree_gets {A} (f : AudioState -> A) : fuelFree (gets f).
Proof. intros w. discriminate. Qed.

Lemma fuelFree_modify f : fuelFree (modify f).
Proof. intros w. discriminate. Qed.

Lemma fuelFree_nullDeref {A} : fuelFree (@nullDeref A).
Proof. intros w. discriminate. Qed.

Lemma fuelFree_bind {A B} (m : M A) (k : A -> M B) :
  fuelFree m -> (forall a, fuelFree (k a)) -> fuelFree (bind m k).
Proof.
  intros Hm Hk w. unfold bind. specialize (Hm w).
  destruct (m w) as [a w'| |]; [apply Hk | contradiction | discriminate].
Qed.

Ltac fuel_step :=
  first
    [ apply fuelFree_ret | apply fuelFree_gets | apply fuelFree_modify
    | apply fuelFree_nullDeref
    | apply fuelFree_bind; [| intros ?]
    | match goal with |- fuelFree (if ?b then _ else _) => destruct b end
    | match goal with |- fuelFree (match ?x with _ => _ end) => destruct x end
    | progress cbv beta zeta
    | unfold_prims
    | progress cbv [devCall buffer_append buffer_consume buffer_getCount] ].
Ltac fuel_tac := repeat fuel_step.

(** A computation without the resampler loop that cannot return goes
    through a [NULL] pointer. *)
Lemma through_NULL {A} (m : M A) w :
  fuelFree m -> wp m (fun _ _ => False) w -> m w = NullDeref.
Proof.
  intros Hf Hw. specialize (Hf w). specialize (Hw).
  destruct (m w) as [a w'| |] eqn:E;
    [destruct (Hw a w' E) | contradiction | reflexivity].
Qed.

(** ** What holds between any two calls *)

(** Nothing of a stream is left: no ring, no resampler, no input scratch
    buffer. *)
Definition released (w : AudioState) : Prop :=
  pb_buffer (playback w) = None
  /\ pb_deviceTiming (playback w) = None
  /\ pb_timings (playback w) = None
  /\ sd_src (spiceDataOf w) = NULL
  /\ sd_framesIn (spiceDataOf w) = NULL.

(** A stream that is not stopped has its backend, its three rings and its
    resampler; a stopped stream has released them; and the scratch
    buffers are in order. *)
Definition streamOk (w : AudioState) : Prop :=
  (stateOf w <> STREAM_STATE_STOP ->
   ready w /\ sd_src (spiceDataOf w) = Live)
  /\ (stateOf w = STREAM_STATE_STOP -> released w)
  /\ scratchOk (spiceDataOf w).

(** Splits a state that is [streamOk] into the cases of its stream state,
    of its backend and of its scratch buffers. *)
Ltac open_streamOk w H :=
  let sd := fresh "sd" in
  let Hlive := fresh "Hlive" in
  let Hstop := fresh "Hstop" in
  let Hout := fresh "Hout" in
  destruct w as [?dev [?st ?vc ?v ?m ?ch ?sr ?stride ?dm ?buf ?dt ?tm ?g ?dd sd]
                 ?r ?lc ?ls ?cs];
  destruct sd as [?fin ?fout ?fos ?pf ?ps ?nt ?np ?b ?c ?dpf ?dlt ?dnt ?dlp
                  ?dnp ?oe ?oei ?ri ?src];
  unfold streamOk, released, ready, scratchOk, stateOf, spiceDataOf in H;
  cbn in H;
  destruct H as (Hlive & Hstop & [[-> ->] | [-> Hout]]);
  match type of Hlive with
  | ?s <> _ -> _ =>
      destruct s;
      [ clear Hlive;
        destruct (Hstop eq_refl) as (-> & -> & -> & -> & ?Hin);
        try discriminate; clear Hstop; destruct dev
      | clear Hstop;
        destruct Hlive as ((?Hdev & ?Hbuf & ?Hdt & ?Htm) & ->);
        [discriminate|]..]
  end;
  repeat match goal with
         | H : isSome ?o = true |- _ =>
             destruct o; [clear H | discriminate H]
         | H : NULL = NULL |- _ => clear H
         end.

Ltac streamOk_solve :=
  unfold streamOk, released, ready, scratchOk, stateOf, spiceDataOf; cbn;
  repeat match goal with
         | |- _ /\ _ => split
         | |- _ -> _ => intro
         end;
  first [ reflexivity | discriminate | assumption | contradiction
        | congruence
        | left; split; reflexivity
        | right; split; [reflexivity | first [discriminate | assumption]] ].

Lemma playbackStop_streamOk w :
  streamOk w -> yields playbackStop (fun _ => streamOk) w.
Proof.
  intros Hs. open_streamOk w Hs; unfold playbackStop.
  all: run_tac; streamOk_solve.
Qed.

Lemma audio_init_streamOk chosen w :
  streamOk w -> yields (audio_init chosen) (fun _ => streamOk) w.
Proof.
  intros Hs. open_streamOk w Hs; unfold audio_init; destruct chosen.
  all: run_tac; streamOk_solve.
Qed.

Lemma audio_free_streamOk w :
  streamOk w -> yields audio_free (fun _ => streamOk) w.
Proof.
  intros Hs.
  open_streamOk w Hs; unfold audio_free, playbackStop, audio_recordStop.
  all: run_tac; streamOk_solve.
Qed.

Lemma audio_playbackStart_streamOk ok maxPeriodFrames channels sampleRate w :
  streamOk w ->
  wp (audio_playbackStart ok maxPeriodFrames channels sampleRate)
    (fun _ => streamOk) w.
Proof.
  intros Hs. open_streamOk w Hs; unfold audio_playbackStart, playbackStop.
  all: destruct ok.
  all: run_tac; streamOk_solve.
Qed.

Lemma audio_playbackStop_streamOk w :
  streamOk w -> yields audio_playbackStop (fun _ => streamOk) w.
Proof.
  intros Hs. open_streamOk w Hs; unfold audio_playbackStop.
  all: run_tac; streamOk_solve.
Qed.

Lemma audio_playbackVolume_streamOk channels volume w :
  streamOk w ->
  yields (audio_playbackVolume channels volume) (fun _ => streamOk) w.
Proof.
  intros Hs. open_streamOk w Hs; unfold audio_playbackVolume.
  all: run_tac; streamOk_solve.
Qed.

Lemma audio_playbackMute_streamOk mute w :
  streamOk w -> yields (audio_playbackMute mute) (fun _ => streamOk) w.
Proof.
  intros Hs. open_streamOk w Hs; unfold audio_playbackMute.
  all: run_tac; streamOk_solve.
Qed.

Lemma playbackPullFrames_streamOk now frames w :
  streamOk w -> yields (playbackPullFrames now frames) (fun _ => streamOk) w.
Proof.
  intros Hs. open_streamOk w Hs;
    unfold playbackPullFrames, pullBody, deviceClock, postTick, drainCheck,
      playbackStop.
  all: run_tac; streamOk_solve.
Qed.

Lemma audio_recordStart_streamOk channels sampleRate w :
  streamOk w ->
  wp (audio_recordStart channels sampleRate) (fun _ => streamOk) w.
Proof.
  intros Hs. open_streamOk w Hs; unfold audio_recordStart, recordConfigure.
  all: run_tac; streamOk_solve.
Qed.

Lemma audio_recordStop_streamOk w :
  streamOk w -> yields audio_recordStop (fun _ => streamOk) w.
Proof.
  intros Hs. open_streamOk w Hs; unfold audio_recordStop.
  all: run_tac; streamOk_solve.
Qed.

Lemma audio_recordVolume_streamOk channels volume w :
  streamOk w ->
  yields (audio_recordVolume channels volume) (fun _ => streamOk) w.
Proof.
  intros Hs. open_streamOk w Hs; unfold audio_recordVolume.
  all: run_tac; streamOk_solve.
Qed.

Lemma audio_recordMute_streamOk mute w :
  streamOk w -> yields (audio_recordMute mute) (fun _ => streamOk) w.
Proof.
  intros Hs. open_streamOk w Hs; unfold audio_recordMute.
  all: run_tac; streamOk_solve.
Qed.

Lemma recordPushFrames_streamOk frames w :
  streamOk w -> yields (recordPushFrames frames) (fun _ => streamOk) w.
Proof.
  intros Hs. open_streamOk w Hs; unfold recordPushFrames.
  all: run_tac; streamOk_solve.
Qed.

(** The blocks of [audio_playbackData] between the resize and the start
    gate keep a stopped stream stopped and a live one live, take away
    neither the backend, nor a ring, nor the resampler, and leave the
    scratch pointers alone. *)
Definition keeps : relation AudioState :=
  fun w w' =>
    (stateOf w' = STREAM_STATE_STOP <-> stateOf w = STREAM_STATE_STOP)
    /\ (isSome (audioDev w) = true -> isSome (audioDev w') = true)
    /\ (isSome (pb_buffer (playback w)) = true ->
        isSome (pb_buffer (playback w')) = true)
    /\ (isSome (pb_deviceTiming (playback w)) = true ->
        isSome (pb_deviceTiming (playback w')) = true)
    /\ (isSome (pb_timings (playback w)) = true ->
        isSome (pb_timings (playback w')) = true)
    /\ sd_src (spiceDataOf w') = sd_src (spiceDataOf w)
    /\ sd_framesIn (spiceDataOf w') = sd_framesIn (spiceDataOf w)
    /\ sd_framesOut (spiceDataOf w') = sd_framesOut (spiceDataOf w).

#[export] Instance keeps_PreOrder : PreOrder keeps.
Proof.
  split.
  - intros w. unfold keeps. tauto.
  - intros w1 w2 w3 (A1 & A2 & A3 & A4 & A5 & A6 & A7 & A8)
      (B1 & B2 & B3 & B4 & B5 & B6 & B7 & B8).
    unfold keeps. repeat split; try tauto; congruence.
Qed.

Lemma keeps_streamOk w w' :
  keeps w w' -> stateOf w <> STREAM_STATE_STOP -> streamOk w -> streamOk w'.
Proof.
  intros (K1 & K2 & K3 & K4 & K5 & K6 & K7 & K8) Hst (Hlive & _ & Hscratch).
  destruct (Hlive Hst) as ((H1 & H2 & H3 & H4) & Hsrc).
  split; [|split].
  - intros _. split; [unfold ready; auto | congruence].
  - intros E. exfalso. tauto.
  - unfold scratchOk in *. rewrite K7, K8. exact Hscratch.
Qed.

Ltac keeps_side :=
  unfold keeps, stateOf, spiceDataOf; cbn;
  repeat split; auto.

Lemma receiveTicks_keeps : respects keeps receiveTicks.
Proof.
  unfold receiveTicks. resp_tac keeps_side.
  - exact (f_equal sd_src (receiveTick_sansTicks _ _)).
  - exact (f_equal sd_framesIn (receiveTick_sansTicks _ _)).
  - exact (f_equal sd_framesOut (receiveTick_sansTicks _ _)).
Qed.

Lemma feed_keeps e : respects keeps (call e ;; receiveTicks).
Proof.
  apply respects_bind; [|intros _; apply receiveTicks_keeps].
  unfold call. resp_tac keeps_side.
Qed.

Lemma spiceClock_keeps now frames pc init :
  respects keeps (spiceClock now frames pc init).
Proof. unfold spiceClock. resp_tac keeps_side. Qed.

Lemma measureOffset_keeps curTime curPosition offsetError :
  respects keeps (measureOffset curTime curPosition offsetError).
Proof. unfold measureOffset. resp_tac keeps_side. Qed.

Lemma resampleRatio_keeps offsetError : respects keeps (resampleRatio offsetError).
Proof. unfold resampleRatio. resp_tac keeps_side. Qed.

Lemma resampleLoop_keeps env frames ratio :
  forall fuel n consumed,
    respects keeps (resampleLoop fuel env frames ratio n consumed).
Proof.
  induction fuel as [|fuel IH]; intros n consumed; cbn [resampleLoop].
  all: resp_tac keeps_side.
Qed.

Lemma publishLatency_keeps env off : respects keeps (publishLatency env off).
Proof. unfold publishLatency. resp_tac keeps_side. Qed.

Lemma resizeScratch_streamOk env frames w :
  streamOk w -> stateOf w <> STREAM_STATE_STOP ->
  yields (resizeScratch env frames)
    (fun r w' => streamOk w'
                 /\ match r with
                    | None => stateOf w' = stateOf w
                    | Some _ => stateOf w' = STREAM_STATE_STOP
                    end) w.
Proof.
  intros Hs Hst. open_streamOk w Hs; try (exfalso; apply Hst; reflexivity);
    unfold resizeScratch, playbackStop;
    destruct (env_malloc_framesIn env), (env_malloc_framesOut env).
  all: run_tac; streamOk_solve.
Qed.

Lemma startGate_streamOk w :
  streamOk w ->
  wp startGate
    (fun _ w' => streamOk w'
                 /\ (stateOf w <> STREAM_STATE_STOP ->
                     stateOf w' <> STREAM_STATE_STOP)) w.
Proof.
  intros Hs. open_streamOk w Hs; unfold startGate.
  all: run_tac; streamOk_solve.
Qed.

Lemma audio_playbackData_streamOk fuel env size w :
  streamOk w -> wp (audio_playbackData fuel env size) (fun _ => streamOk) w.
Proof.
  intros Hs e w' Hrun.
  destruct (playbackData_inv _ _ _ _ _ _ Hrun) as [[_ ->] | [Hact Hfin]];
    [exact Hs|].
  assert (Hst : stateOf w <> STREAM_STATE_STOP).
  { intros E. rewrite E in Hact. discriminate. }
  assert (Hresize : forall r w1,
    resizeScratch env (dataFrames size w) w = Ok r w1 ->
    streamOk w1 /\ (r = None -> stateOf w1 <> STREAM_STATE_STOP)).
  { intros r w1 E.
    destruct (yields_wp _ _ _ (resizeScratch_streamOk env _ w Hs Hst) _ _ E)
      as [H1 H2].
    split; [exact H1|]. intros ->. congruence. }
  destruct Hfin as [(_ & _ & Hres) | (t & Ht & Hexit)].
  { exact (proj1 (Hresize _ _ Hres)). }
  destruct Ht as (Hres & Hfeed & Hclk & Hoff & Hratio & Hloop).
  assert (H1 : streamOk (at_resized t)
               /\ stateOf (at_resized t) <> STREAM_STATE_STOP).
  { destruct (negb _).
    - destruct (Hresize _ _ Hres) as [Ha Hb]. auto.
    - rewrite Hres. auto. }
  assert (K : keeps (at_resized t) (at_resampled t)).
  { transitivity (at_received t); [exact (feed_keeps _ _ _ _ Hfeed)|].
    transitivity (at_clocked t); [exact (spiceClock_keeps _ _ _ _ _ _ _ Hclk)|].
    transitivity (at_measured t); [exact (measureOffset_keeps _ _ _ _ _ _ Hoff)|].
    transitivity (at_controlled t); [exact (resampleRatio_keeps _ _ _ _ Hratio)|].
    exact (resampleLoop_keeps _ _ _ _ _ _ _ _ _ Hloop). }
  assert (H6 : streamOk (at_resampled t)).
  { exact (keeps_streamOk _ _ K (proj2 H1) (proj1 H1)). }
  assert (Hst6 : stateOf (at_resampled t) <> STREAM_STATE_STOP).
  { intros E. apply (proj2 H1). apply (proj1 K), E. }
  destruct (loopExit t) as [consumed|consumed].
  - destruct Hexit as [_ ->]. exact H6.
  - destruct Hexit as (_ & w7 & Hgate & Hpub).
    destruct (startGate_streamOk _ H6 _ _ Hgate) as [H7 Hst7].
    exact (keeps_streamOk _ _ (publishLatency_keeps _ _ _ _ _ Hpub)
             (Hst7 Hst6) H7).
Qed.

(** Whether the backend has the members that the call may go through
    without testing them: [playback.volume] when [audio_playbackStart]
    finds a cached channel count (line 341), [playback.start] at the start
    gate of [audio_playbackData] (line 623), and [record.start] and, with
    a cached record channel count, [record.volume] in [audio_recordStart]
    (lines 668 and 672). *)
Definition provides (c : Call) (w : AudioState) : bool :=
  match audioDev w with
  | None => true
  | Some ops =>
      match c with
      | CallPlaybackStart _ _ _ _ =>
          (pb_volumeChannels (playback w) =? 0) || ops_playback_volume ops
      | CallPlaybackData _ _ _ => ops_playback_start ops
      | CallRecordStart _ _ =>
          ops_record_start ops
          && ((rec_volumeChannels (record w) =? 0) || ops_record_volume ops)
      | _ => true
      end
  end.

(** On a stream that is [streamOk] and whose backend supports playback,
    [audio_playbackData] does not dereference a [NULL] ring or backend. *)
Lemma audio_playbackData_defined fuel env size w :
  streamOk w -> provides (CallPlaybackData fuel env size) w = true ->
  audio_playbackData fuel env size w <> NullDeref.
Proof.
  intros Hs Hp. unfold audio_playbackData.
  cbv [bind get gets getPlayback getSpice].
  destruct (negb (isSome (audioDev w)) || (size =? 0)); [discriminate|].
  destruct (STREAM_ACTIVE (pb_state (playback w))) eqn:Hact; cbn [negb];
    [|discriminate].
  assert (Hr : ready w).
  { apply Hs. unfold stateOf. intros E. rewrite E in Hact. discriminate. }
  assert (Hstart : has_playback_start w = true).
  { destruct Hr as [Hdev _]. revert Hp Hdev.
    unfold provides, has_playback_start.
    destruct (audioDev w); [auto | discriminate]. }
  fold (dataFrames size w).
  set (frames := dataFrames size w).
  set (pc := negb (frames =? sd_periodFrames (pb_spiceData (playback w)))).
  set (init := sd_periodFrames (pb_spiceData (playback w)) =? 0).
  assert (Hres : exists r w1,
    (if pc then resizeScratch env frames else ret None) w = Ok r w1
    /\ (r = None -> ready w1)).
  { destruct pc.
    - exact (returns_resizeScratch env frames w Hr).
    - exists None, w. split; [reflexivity | auto]. }
  destruct Hres as (r & w1 & Hres & Hr1). rewrite Hres.
  destruct r as [ex|]; [discriminate|].
  specialize (Hr1 eq_refl).
  destruct (returns_call (EvShortToFloat (mul32 frames (pb_channels (playback w))))
              w1 Hr1) as ([] & w1' & Hcall & Hr1').
  destruct (returns_receiveTicks w1' Hr1') as ([] & w2 & Hticks & Hr2).
  destruct (returns_spiceClock (env_now env) frames pc init w2 Hr2)
    as (c & w3 & Hclk & Hr3).
  destruct (returns_measureOffset (fst c) (snd c)
              (sd_offsetError (pb_spiceData (playback w3))) w3 Hr3)
    as (off & w4 & Hoff & Hr4).
  destruct (returns_resampleRatio (sd_offsetError (pb_spiceData (playback w3)))
              w4 Hr4) as (rt & w5 & Hratio & Hr5).
  cbv beta iota. rewrite Hcall, Hticks, Hclk. destruct c as [curTime curPosition].
  cbn [fst snd] in Hoff. cbv beta iota. rewrite Hoff, Hratio.
  destruct (resampleLoop fuel env frames rt 0 0 w5) as [lr w6| |] eqn:Hloop;
    [|discriminate|].
  2:{ rewrite resampleLoop_driver in Hloop by apply Hr5.
      destruct (driver _ _ _ _ _ _ _ _) as [[xs lr]|]; discriminate. }
  assert (Hr6 : ready w6).
  { destruct (resampleLoop_driver_inv _ _ _ _ _ _ _ _ _ Hloop) as (xs & _ & ->).
    exact (afterExchanges_ready xs w5 Hr5). }
  destruct lr as [consumed|consumed]; [discriminate|].
  assert (Hdev6 : audioDev w6 = audioDev w).
  { rewrite (resampleLoop_audioDev _ _ _ _ _ _ _ _ _ Hloop).
    rewrite (resampleRatio_audioDev _ _ _ _ Hratio).
    rewrite (measureOffset_audioDev _ _ _ _ _ _ Hoff).
    rewrite (spiceClock_audioDev _ _ _ _ _ _ _ Hclk).
    rewrite (receiveTicks_audioDev _ _ _ Hticks).
    rewrite (call_audioDev _ _ _ _ Hcall).
    destruct pc; [exact (resizeScratch_audioDev _ _ _ _ _ Hres)
                 | now injection Hres as <-]. }
  assert (Hstart6 : has_playback_start w6 = true).
  { unfold has_playback_start in *. rewrite Hdev6. exact Hstart. }
  destruct (returns_startGate _ (conj Hr6 Hstart6)) as ([] & w7 & Hgate & Hr7).
  destruct (returns_publishLatency env off w7 Hr7) as ([] & w8 & Hpub & _).
  rewrite Hgate, Hpub. discriminate.
Qed.

(** ** The entry points, one call after another *)

(** The states of [audio] that calls of the entry points lead to from
    the start of the program. *)
Inductive reachable : AudioState -> Prop :=
| reachable_initial : reachable initialAudio
| reachable_step c w w' :
    reachable w -> step c w = Ok tt w' -> reachable w'.

Definition isData (c : Call) : bool :=
  match c with CallPlaybackData _ _ _ => true | _ => false end.

Lemma initialAudio_streamOk : streamOk initialAudio.
Proof.
  split; [|split].
  - intros H. exfalso. apply H. reflexivity.
  - intros _. repeat split.
  - right. split; [reflexivity | discriminate].
Qed.

Lemma audio_playbackStart_returns ok maxPeriodFrames channels sampleRate w :
  streamOk w ->
  provides (CallPlaybackStart ok maxPeriodFrames channels sampleRate) w = true ->
  yields (audio_playbackStart ok maxPeriodFrames channels sampleRate)
    (fun _ => streamOk) w.
Proof.
  intros Hs Hp. revert Hp.
  open_streamOk w Hs; unfold provides; cbn; intros Hp;
    unfold audio_playbackStart, playbackStop; destruct ok.
  all: try (apply orb_true_iff in Hp; destruct Hp as [Hp | Hp];
            [apply (f_equal negb) in Hp; cbn in Hp|]).
  all: run_tac; streamOk_solve.
Qed.

Lemma audio_recordStart_returns channels sampleRate w :
  streamOk w ->
  provides (CallRecordStart channels sampleRate) w = true ->
  yields (audio_recordStart channels sampleRate) (fun _ => streamOk) w.
Proof.
  intros Hs Hp. revert Hp.
  open_streamOk w Hs; unfold provides; cbn; intros Hp;
    unfold audio_recordStart, recordConfigure.
  all: try (apply andb_true_iff in Hp; destruct Hp as [Hstart Hp];
            apply orb_true_iff in Hp; destruct Hp as [Hp | Hp];
            [apply (f_equal negb) in Hp; cbn in Hp|]).
  all: run_tac; streamOk_solve.
Qed.

Lemma step_yields_streamOk c w :
  streamOk w -> isData c = false -> provides c w = true ->
  yields (step c) (fun _ => streamOk) w.
Proof.
  intros Hs Hc Hp. destruct c; cbn [step]; try discriminate Hc.
  - now apply audio_init_streamOk.
  - now apply audio_free_streamOk.
  - now apply audio_playbackStart_returns.
  - now apply audio_playbackStop_streamOk.
  - now apply audio_playbackVolume_streamOk.
  - now apply audio_playbackMute_streamOk.
  - apply yields_bind.
    apply (yields_weaken _ _ _ _ (playbackPullFrames_streamOk now frames w Hs)).
    intros n w1 H1. apply yields_ret. exact H1.
  - now apply audio_recordStart_returns.
  - now apply audio_recordStop_streamOk.
  - now apply audio_recordVolume_streamOk.
  - now apply audio_recordMute_streamOk.
  - now apply recordPushFrames_streamOk.
Qed.

Lemma step_streamOk c w : streamOk w -> wp (step c) (fun _ => streamOk) w.
Proof.
  intros Hs. destruct c; cbn [step].
  - now apply yields_wp, audio_init_streamOk.
  - now apply yields_wp, audio_free_streamOk.
  - now apply audio_playbackStart_streamOk.
  - now apply yields_wp, audio_playbackStop_streamOk.
  - now apply yields_wp, audio_playbackVolume_streamOk.
  - now apply yields_wp, audio_playbackMute_streamOk.
  - apply wp_bind. intros e w1 H1. apply wp_ret.
    exact (audio_playbackData_streamOk _ _ _ _ Hs _ _ H1).
  - apply wp_bind. intros n w1 H1. apply wp_ret.
    exact (yields_wp _ _ _ (playbackPullFrames_streamOk now frames w Hs) _ _ H1).
  - now apply audio_recordStart_streamOk.
  - now apply yields_wp, audio_recordStop_streamOk.
  - now apply yields_wp, audio_recordVolume_streamOk.
  - now apply yields_wp, audio_recordMute_streamOk.
  - now apply yields_wp, recordPushFrames_streamOk.
Qed.

Lemma reachable_streamOk w : reachable w -> streamOk w.
Proof.
  induction 1 as [|c w w' _ IH Hstep].
  - exact initialAudio_streamOk.
  - exact (step_streamOk c w IH tt w' Hstep).
Qed.

(** The session of the worked states, call by call. *)
Lemma w_setup_reachable : reachable w_setup.
Proof.
  apply (reachable_step (CallPlaybackStart true 1024 2 48000)
           (exec (audio_init (Some demoOps)) initialAudio)).
  - apply (reachable_step (CallInit (Some demoOps)) initialAudio).
    + exact reachable_initial.
    + reflexivity.
  - vm_compute. reflexivity.
Qed.

(** X1.  In every state that calls of the entry points lead to from the
    start of the program: a stream that is not stopped has its backend,
    its coupling buffer, its tick queue, its latency ring and its
    resampler; a stopped stream holds none of the rings, no resampler and
    no input scratch buffer; and the scratch buffers are either both
    allocated or [framesIn] is [NULL] and [framesOut] is not a live block
    (so the frees guarded by [framesIn != NULL] at lines 193-199 and
    414-418 only ever free live blocks). *)
Theorem reachable_stream_invariant :
  forall w : AudioState,
    reachable w ->
    (stateOf w <> STREAM_STATE_STOP ->
     ready w /\ sd_src (spiceDataOf w) = Live)
    /\ (stateOf w = STREAM_STATE_STOP -> released w)
    /\ scratchOk (spiceDataOf w).
Proof. intros w H. exact (reachable_streamOk w H). Qed.

Lemma reachable_stream_invariant_witness :
  (stateOf w_setup <> STREAM_STATE_STOP ->
   ready w_setup /\ sd_src (spiceDataOf w_setup) = Live)
  /\ (stateOf w_setup = STREAM_STATE_STOP -> released w_setup)
  /\ scratchOk (spiceDataOf w_setup).
Proof. exact (reachable_stream_invariant w_setup w_setup_reachable). Defined.

(** X2.  From a reachable state, a call of an entry point on a backend
    that has the members the call may go through without testing them
    ([provides]) dereferences no [NULL] backend, member, ring buffer or
    tick queue, and every entry point other than [audio_playbackData]
    (whose resampler loop depends on the resampler) returns. *)
Theorem reachable_calls_are_defined :
  forall (c : Call) (w : AudioState),
    reachable w ->
    provides c w = true ->
    step c w <> NullDeref
    /\ (isData c = false -> exists w', step c w = Ok tt w').
Proof.
  intros c w Hw Hp. pose proof (reachable_streamOk w Hw) as Hs.
  destruct (isData c) eqn:Hc.
  - split; [|discriminate].
    destruct c; try discriminate Hc. cbn [step]. cbv [bind].
    pose proof (audio_playbackData_defined fuel env size w Hs Hp) as Hd.
    destruct (audio_playbackData fuel env size w); [discriminate | discriminate | contradiction].
  - destruct (step_yields_streamOk c w Hs Hc Hp) as ([] & w' & E & _).
    split; [rewrite E; discriminate | intros _; exists w'; exact E].
Qed.

(** Starting the record stream beside the playback stream of [w_setup]. *)
Lemma reachable_calls_are_defined_witness :
  provides (CallRecordStart 2 48000) w_setup = true
  /\ step (CallRecordStart 2 48000) w_setup <> NullDeref
  /\ (isData (CallRecordStart 2 48000) = false ->
      exists w', step (CallRecordStart 2 48000) w_setup = Ok tt w').
Proof.
  split; [reflexivity|].
  apply (reachable_calls_are_defined (CallRecordStart 2 48000) w_setup
           w_setup_reachable).
  reflexivity.
Defined.

(** Where [provides] fails, the call goes through a [NULL] member: the
    start gate opens on a backend without [playback.start]. *)
Lemma startGate_through_NULL w ops :
  audioDev w = Some ops ->
  ops_playback_start ops = false ->
  stateOf w = STREAM_STATE_SETUP ->
  startFrames w <= sd_nextPosition (spiceDataOf w) ->
  startGate w = NullDeref.
Proof.
  unfold stateOf, startFrames, spiceDataOf. intros Hdev Hops Hst Hle.
  apply Z.leb_le in Hle.
  unfold startGate. run_prim. rewrite Hst. cbn. rewrite Hle.
  run_prim. rewrite Hops. reflexivity.
Qed.

(** ** How [audio_playbackData] is put together *)

Section DataBlocks.
Context (R : relation AudioState) `{!PreOrder R}.
Hypothesis feed_R :
  forall samples, respects R (call (EvShortToFloat samples) ;; receiveTicks).
Hypothesis spiceClock_R :
  forall now frames pc init, respects R (spiceClock now frames pc init).
Hypothesis measureOffset_R :
  forall curTime curPosition offsetError,
    respects R (measureOffset curTime curPosition offsetError).
Hypothesis resampleRatio_R :
  forall offsetError, respects R (resampleRatio offsetError).
Hypothesis resampleLoop_R :
  forall fuel env frames ratio n consumed,
    respects R (resampleLoop fuel env frames ratio n consumed).
Hypothesis publishLatency_R :
  forall env off, respects R (publishLatency env off).

(** A call of [audio_playbackData] is left at a guard, or within the
    resize of the scratch buffers, or it goes through the resize (if the
    period changed), the blocks up to the resampler loop, and then
    either returns on a resampler error or goes on through the start gate
    and the latency report. *)
Lemma playbackData_through fuel env size w e w' :
  audio_playbackData fuel env size w = Ok e w' ->
  w' = w
  \/ (STREAM_ACTIVE (stateOf w) = true
      /\ ((exists ex,
             resizeScratch env (dataFrames size w) w = Ok (Some ex) w'
             /\ e = ex)
          \/ exists w1 w6,
               (w1 = w \/ resizeScratch env (dataFrames size w) w = Ok None w1)
               /\ R w1 w6
               /\ ((exists consumed,
                      e = ExitResampleFailed consumed /\ w' = w6)
                   \/ exists consumed w7,
                        e = ExitEnd consumed
                        /\ startGate w6 = Ok tt w7 /\ R w7 w'))).
Proof.
  intros Hrun.
  destruct (playbackData_inv _ _ _ _ _ _ Hrun) as [[_ ->] | [Hact Hfin]];
    [left; reflexivity|].
  right. split; [exact Hact|].
  destruct Hfin as [(_ & _ & Hres) | (t & Ht & Hexit)].
  { left. exists e. split; [exact Hres | reflexivity]. }
  right. destruct Ht as (Hres & Hfeed & Hclk & Hoff & Hratio & Hloop).
  exists (at_resized t), (at_resampled t). split; [|split].
  - destruct (negb _); [right; exact Hres | left; exact Hres].
  - transitivity (at_received t); [exact (feed_R _ _ _ _ Hfeed)|].
    transitivity (at_clocked t); [exact (spiceClock_R _ _ _ _ _ _ _ Hclk)|].
    transitivity (at_measured t); [exact (measureOffset_R _ _ _ _ _ _ Hoff)|].
    transitivity (at_controlled t); [exact (resampleRatio_R _ _ _ _ Hratio)|].
    exact (resampleLoop_R _ _ _ _ _ _ _ _ _ Hloop).
  - destruct (loopExit t) as [consumed|consumed].
    + destruct Hexit as [-> ->]. left. exists consumed. auto.
    + destruct Hexit as (-> & w7 & Hgate & Hpub). right.
      exists consumed, w7. repeat split; try assumption.
      exact (publishLatency_R _ _ _ _ _ Hpub).
Qed.
End DataBlocks.

(** ** The backend's view of the calls it receives *)

(** A playback stream as the backend knows it: not set up, set up, or
    started. *)
Inductive BackendStream : Type := Closed | Opened | Started.

Record BackendState : Type := {
  be_playback  : BackendStream;
  be_recording : bool
}.

Definition isClosed (s : BackendStream) : bool :=
  match s with Closed => true | _ => false end.

(** What a call does to the backend; [None] when the backend is not in a
    state to take it: a [setup] of a stream that is open, a [start] of one
    that is not just set up, a [stop], [volume] or [mute] of one that is
    closed, a [record.start] while recording, a [record.stop],
    [record.volume] or [record.mute] while not recording, a [free] with a
    stream open or recording. *)
Definition backendStep (e : Event) (b : BackendState) : option BackendState :=
  match e with
  | EvPlaybackSetup _ _ =>
      match be_playback b with
      | Closed => Some {| be_playback := Opened; be_recording := be_recording b |}
      | _ => None
      end
  | EvPlaybackStart =>
      match be_playback b with
      | Opened => Some {| be_playback := Started; be_recording := be_recording b |}
      | _ => None
      end
  | EvPlaybackStop =>
      match be_playback b with
      | Closed => None
      | _ => Some {| be_playback := Closed; be_recording := be_recording b |}
      end
  | EvPlaybackVolume _ _ | EvPlaybackMute _ =>
      if isClosed (be_playback b) then None else Some b
  | EvRecordStart _ _ =>
      if be_recording b then None
      else Some {| be_playback := be_playback b; be_recording := true |}
  | EvRecordStop =>
      if be_recording b
      then Some {| be_playback := be_playback b; be_recording := false |}
      else None
  | EvRecordVolume _ _ | EvRecordMute _ =>
      if be_recording b then Some b else None
  | EvAudioDevFree =>
      if isClosed (be_playback b) && negb (be_recording b) then Some b else None
  | _ => Some b
  end.

(** The backend after the calls of a log (most recent first), starting
    with no stream and not recording. *)
Fixpoint backendAfter (log : list Event) : option BackendState :=
  match log with
  | [] => Some {| be_playback := Closed; be_recording := false |}
  | e :: older =>
      match backendAfter older with
      | Some b => backendStep e b
      | None => None
      end
  end.

(** The stream state of [audio] and the backend's stream go together;
    a draining stream may or may not have been started. *)
Definition agrees (state : StreamState) (s : BackendStream) : Prop :=
  match state with
  | STREAM_STATE_STOP => s = Closed
  | STREAM_STATE_SETUP => s = Opened
  | STREAM_STATE_RUN => s = Started
  | STREAM_STATE_DRAIN => s = Opened \/ s = Started
  end.

Definition conforms (w : AudioState) : Prop :=
  exists b,
    backendAfter (calls w) = Some b
    /\ agrees (stateOf w) (be_playback b)
    /\ be_recording b = rec_started (record w).

(** What [conforms] looks at. *)
Definition backendView (w : AudioState)
    : option BackendState * StreamState * bool :=
  (backendAfter (calls w), stateOf w, rec_started (record w)).

Lemma backendView_conforms w w' :
  backendView w' = backendView w -> conforms w -> conforms w'.
Proof.
  unfold backendView, conforms. intros E (b & H1 & H2 & H3).
  injection E as E1 E2 E3. exists b. rewrite E1, E2, E3. auto.
Qed.

Ltac view_side :=
  unfold same, backendView, stateOf; cbn;
  try match goal with
      | |- context [backendAfter ?l] => destruct (backendAfter l)
      end;
  reflexivity.

Lemma shortToFloat_view samples :
  preserves backendView (call (EvShortToFloat samples) ;; receiveTicks).
Proof. unfold receiveTicks. resp_tac view_side. Qed.

Lemma spiceClock_view now frames pc init :
  preserves backendView (spiceClock now frames pc init).
Proof. unfold spiceClock. resp_tac view_side. Qed.

Lemma measureOffset_view curTime curPosition offsetError :
  preserves backendView (measureOffset curTime curPosition offsetError).
Proof. unfold measureOffset. resp_tac view_side. Qed.

Lemma resampleRatio_view offsetError :
  preserves backendView (resampleRatio offsetError).
Proof. unfold resampleRatio. resp_tac view_side. Qed.

Lemma resampleLoop_view env frames ratio :
  forall fuel n consumed,
    preserves backendView (resampleLoop fuel env frames ratio n consumed).
Proof.
  induction fuel as [|fuel IH]; intros n consumed; cbn [resampleLoop].
  all: resp_tac view_side.
Qed.

Lemma publishLatency_view env off :
  preserves backendView (publishLatency env off).
Proof. unfold publishLatency. resp_tac view_side. Qed.

(** Splits a state that [conforms] into the cases of its stream state, of
    the backend's stream, of its backend and of the record stream. *)
Ltac open_conforms w H :=
  let sd := fresh "sd" in
  let r := fresh "r" in
  let b := fresh "b" in
  let Hlog := fresh "Hlog" in
  let Hag := fresh "Hag" in
  let Hrec := fresh "Hrec" in
  destruct w as [?dev [?st ?vc ?v ?m ?ch ?sr ?stride ?dm ?buf ?dt ?tm ?g ?dd sd]
                 r ?lc ?ls ?cs];
  destruct r as [?started ?rvc ?rv ?rm ?rstride ?rtime];
  unfold conforms, stateOf in H; cbn in H;
  destruct H as (b & Hlog & Hag & Hrec);
  destruct b as [?bp ?br]; cbn in Hag, Hrec; subst;
  match type of Hag with
  | agrees ?s _ => destruct s; cbn in Hag; [| | |destruct Hag as [Hag | Hag]]
  end;
  subst;
  destruct dev; destruct started.

Ltac conforms_solve :=
  unfold conforms, stateOf; cbn;
  repeat match goal with
         | H : backendAfter _ = Some _ |- _ => rewrite H; cbn
         end;
  eexists; split; [reflexivity|]; cbn; auto.

Lemma playbackStop_conforms w :
  conforms w -> wp playbackStop (fun _ => conforms) w.
Proof.
  intros Hc. open_conforms w Hc; unfold playbackStop.
  all: run_tac; conforms_solve.
Qed.

Lemma audio_init_conforms chosen w :
  conforms w -> wp (audio_init chosen) (fun _ => conforms) w.
Proof.
  intros Hc. open_conforms w Hc; unfold audio_init; destruct chosen.
  all: run_tac; conforms_solve.
Qed.

Lemma audio_free_conforms w :
  conforms w -> wp audio_free (fun _ => conforms) w.
Proof.
  intros Hc.
  open_conforms w Hc; unfold audio_free, playbackStop, audio_recordStop.
  all: run_tac; conforms_solve.
Qed.

Lemma audio_playbackStart_conforms ok maxPeriodFrames channels sampleRate w :
  conforms w ->
  wp (audio_playbackStart ok maxPeriodFrames channels sampleRate)
    (fun _ => conforms) w.
Proof.
  intros Hc. open_conforms w Hc; unfold audio_playbackStart, playbackStop.
  all: destruct ok.
  all: run_tac; conforms_solve.
Qed.

Lemma audio_playbackStop_conforms w :
  conforms w -> wp audio_playbackStop (fun _ => conforms) w.
Proof.
  intros Hc. open_conforms w Hc; unfold audio_playbackStop.
  all: run_tac; conforms_solve.
Qed.

Lemma audio_playbackVolume_conforms channels volume w :
  conforms w ->
  wp (audio_playbackVolume channels volume) (fun _ => conforms) w.
Proof.
  intros Hc. open_conforms w Hc; unfold audio_playbackVolume.
  all: run_tac; conforms_solve.
Qed.

Lemma audio_playbackMute_conforms mute w :
  conforms w -> wp (audio_playbackMute mute) (fun _ => conforms) w.
Proof.
  intros Hc. open_conforms w Hc; unfold audio_playbackMute.
  all: run_tac; conforms_solve.
Qed.

Lemma playbackPullFrames_conforms now frames w :
  conforms w -> wp (playbackPullFrames now frames) (fun _ => conforms) w.
Proof.
  intros Hc. open_conforms w Hc;
    unfold playbackPullFrames, pullBody, deviceClock, postTick, drainCheck,
      playbackStop.
  all: run_tac; conforms_solve.
Qed.

Lemma audio_recordStart_conforms channels sampleRate w :
  conforms w ->
  wp (audio_recordStart channels sampleRate) (fun _ => conforms) w.
Proof.
  intros Hc. open_conforms w Hc; unfold audio_recordStart, recordConfigure.
  all: run_tac; conforms_solve.
Qed.

Lemma audio_recordStop_conforms w :
  conforms w -> wp audio_recordStop (fun _ => conforms) w.
Proof.
  intros Hc. open_conforms w Hc; unfold audio_recordStop.
  all: run_tac; conforms_solve.
Qed.

Lemma audio_recordVolume_conforms channels volume w :
  conforms w ->
  wp (audio_recordVolume channels volume) (fun _ => conforms) w.
Proof.
  intros Hc. open_conforms w Hc; unfold audio_recordVolume.
  all: run_tac; conforms_solve.
Qed.

Lemma audio_recordMute_conforms mute w :
  conforms w -> wp (audio_recordMute mute) (fun _ => conforms) w.
Proof.
  intros Hc. open_conforms w Hc; unfold audio_recordMute.
  all: run_tac; conforms_solve.
Qed.

Lemma recordPushFrames_conforms frames w :
  conforms w -> wp (recordPushFrames frames) (fun _ => conforms) w.
Proof.
  intros Hc. open_conforms w Hc; unfold recordPushFrames.
  all: run_tac; conforms_solve.
Qed.

Lemma resizeScratch_conforms env frames w :
  conforms w -> wp (resizeScratch env frames) (fun _ => conforms) w.
Proof.
  intros Hc. open_conforms w Hc; unfold resizeScratch, playbackStop.
  all: destruct (env_malloc_framesIn env), (env_malloc_framesOut env).
  all: run_tac; conforms_solve.
Qed.

Lemma startGate_conforms w :
  conforms w -> wp startGate (fun _ => conforms) w.
Proof.
  intros Hc. open_conforms w Hc; unfold startGate.
  all: run_tac; conforms_solve.
Qed.

Lemma audio_playbackData_conforms fuel env size w :
  conforms w -> wp (audio_playbackData fuel env size) (fun _ => conforms) w.
Proof.
  intros Hc e w' Hrun.
  destruct (playbackData_through (same backendView)
              shortToFloat_view spiceClock_view measureOffset_view
              resampleRatio_view
              (fun fuel env frames ratio n consumed =>
                 resampleLoop_view env frames ratio fuel n consumed)
              publishLatency_view _ _ _ _ _ _ Hrun)
    as [-> | (_ & [(ex & Hres & _) | (w1 & w6 & H1 & H16 & Hend)])].
  - exact Hc.
  - exact (resizeScratch_conforms _ _ _ Hc _ _ Hres).
  - assert (C1 : conforms w1).
    { destruct H1 as [-> | Hres]; [exact Hc|].
      exact (resizeScratch_conforms _ _ _ Hc _ _ Hres). }
    pose proof (backendView_conforms _ _ H16 C1) as C6.
    destruct Hend as [(consumed & _ & ->) | (consumed & w7 & _ & Hgate & H78)];
      [exact C6|].
    apply (backendView_conforms _ _ H78).
    exact (startGate_conforms _ C6 _ _ Hgate).
Qed.

Lemma step_conforms c w : conforms w -> wp (step c) (fun _ => conforms) w.
Proof.
  intros Hc. destruct c; cbn [step].
  - now apply audio_init_conforms.
  - now apply audio_free_conforms.
  - now apply audio_playbackStart_conforms.
  - now apply audio_playbackStop_conforms.
  - now apply audio_playbackVolume_conforms.
  - now apply audio_playbackMute_conforms.
  - apply wp_bind. intros e w1 H1. apply wp_ret.
    exact (audio_playbackData_conforms _ _ _ _ Hc _ _ H1).
  - apply wp_bind. intros n w1 H1. apply wp_ret.
    exact (playbackPullFrames_conforms _ _ _ Hc _ _ H1).
  - now apply audio_recordStart_conforms.
  - now apply audio_recordStop_conforms.
  - now apply audio_recordVolume_conforms.
  - now apply audio_recordMute_conforms.
  - now apply recordPushFrames_conforms.
Qed.

Lemma initialAudio_conforms : conforms initialAudio.
Proof. eexists. split; [reflexivity|]. split; reflexivity. Qed.

(** X3.  The calls the backend receives over a session are always in
    order: [playback.setup] only with no stream open, [playback.start]
    only on a stream that is set up and not yet started,
    [playback.stop] only on an open stream, [playback.volume] and
    [playback.mute] only on an open stream, [record.start] only while not
    recording, [record.stop], [record.volume] and [record.mute] only
    while recording, [free] only with no stream open and not recording.
    Moreover the backend's stream is closed exactly when the state is
    STOP, just set up in SETUP, started in RUN, and the backend is
    recording exactly when [audio.record.started]. *)
Theorem backend_calls_in_order :
  forall w : AudioState,
    reachable w ->
    exists b,
      backendAfter (calls w) = Some b
      /\ agrees (stateOf w) (be_playback b)
      /\ be_recording b = rec_started (record w).
Proof.
  induction 1 as [|c w w' _ IH Hstep].
  - exact initialAudio_conforms.
  - exact (step_conforms c w IH tt w' Hstep).
Qed.

(** ** Sessions *)

(** The state after a sequence of calls, each of which returns. *)
Fixpoint session (cs : list Call) (w : AudioState) : option AudioState :=
  match cs with
  | [] => Some w
  | c :: cs =>
      match step c w with
      | Ok _ w' => session cs w'
      | _ => None
      end
  end.

Lemma session_reachable cs :
  forall w w', reachable w -> session cs w = Some w' -> reachable w'.
Proof.
  induction cs as [|c cs IH]; intros w w' Hw; cbn [session].
  - intros E. injection E as <-. exact Hw.
  - destruct (step c w) as [[] w1| |] eqn:E; try discriminate.
    apply IH. exact (reachable_step c w w1 Hw E).
Qed.

(** The calls behind [w_running]: start-up, five source periods and two
    pulls of the sink. *)
Definition demoSession : list Call :=
  [CallInit (Some demoOps);
   CallPlaybackStart true 1024 2 48000;
   CallPlaybackData 4 (demoEnv 1000000000) 3840;
   CallPlaybackData 4 (demoEnv 1020000000) 3840;
   CallPlaybackData 4 (demoEnv 1040000000) 3840;
   CallPlaybackData 4 (demoEnv 1060000000) 3840;
   CallPlaybackData 4 (demoEnv 1080000000) 3840;
   CallPullFrames 1081000000 1024;
   CallPullFrames 1102000000 1024].

Lemma w_running_reachable : reachable w_running.
Proof.
  apply (session_reachable demoSession initialAudio).
  - exact reachable_initial.
  - vm_compute. reflexivity.
Qed.

Lemma w_draining_reachable : reachable w_draining.
Proof.
  apply (session_reachable
           (demoSession ++ [CallPlaybackData 4 (demoEnv 1100000000) 3840;
                            CallPlaybackStop]) initialAudio).
  - exact reachable_initial.
  - vm_compute. reflexivity.
Qed.

(** ** The life cycle of the stream *)

Definition isPull (c : Call) : bool :=
  match c with CallPullFrames _ _ => true | _ => false end.

(** The changes of [audio.playback.state] and the calls that make
    them. *)
Definition transition (c : Call) (s s' : StreamState) : Prop :=
  s' = s
  \/ match s' with
     | STREAM_STATE_SETUP =>
         exists maxPeriodFrames channels sampleRate,
           c = CallPlaybackStart true maxPeriodFrames channels sampleRate
     | STREAM_STATE_RUN => s = STREAM_STATE_SETUP /\ isData c = true
     | STREAM_STATE_DRAIN => c = CallPlaybackStop
     | STREAM_STATE_STOP =>
         c = CallFree
         \/ (exists maxPeriodFrames channels sampleRate,
               c = CallPlaybackStart false maxPeriodFrames channels sampleRate)
         \/ (isData c = true /\ STREAM_ACTIVE s = true)
         \/ (isPull c = true /\ s = STREAM_STATE_DRAIN)
     end.

Ltac transition_solve :=
  unfold transition, stateOf; cbn;
  first [ left; reflexivity
        | right;
          first [ reflexivity
                | split; reflexivity
                | do 3 eexists; reflexivity
                | left; reflexivity
                | right; left; do 3 eexists; reflexivity
                | right; right; left; split; reflexivity
                | right; right; right; split; reflexivity ] ].

Ltac transition_tac w :=
  destruct w as [dev [st ?vc ?v ?m ?ch ?sr ?stride ?dm ?buf ?dt ?tm ?g ?dd ?sd]
                 ?r ?lc ?ls ?cs];
  destruct st; destruct dev; run_tac; transition_solve.

Lemma stateOf_feed samples :
  preserves stateOf (call (EvShortToFloat samples) ;; receiveTicks).
Proof. unfold receiveTicks. pres_tac. Qed.
Lemma stateOf_spiceClock now frames pc init :
  preserves stateOf (spiceClock now frames pc init).
Proof. unfold spiceClock. pres_tac. Qed.
Lemma stateOf_measureOffset curTime curPosition offsetError :
  preserves stateOf (measureOffset curTime curPosition offsetError).
Proof. unfold measureOffset. pres_tac. Qed.
Lemma stateOf_resampleRatio offsetError :
  preserves stateOf (resampleRatio offsetError).
Proof. unfold resampleRatio. pres_tac. Qed.
Lemma stateOf_resampleLoop fuel env frames ratio n consumed :
  preserves stateOf (resampleLoop fuel env frames ratio n consumed).
Proof.
  revert n consumed. induction fuel as [|fuel IH]; intros n consumed;
    cbn [resampleLoop]; pres_tac.
Qed.
Lemma stateOf_publishLatency env off :
  preserves stateOf (publishLatency env off).
Proof. unfold publishLatency. pres_tac. Qed.

Lemma resizeScratch_state env frames w :
  wp (resizeScratch env frames)
    (fun r w' =>
       match r with
       | None => stateOf w' = stateOf w
       | Some _ => stateOf w' = STREAM_STATE_STOP
       end) w.
Proof.
  destruct w as [dev [st vc v m ch sr stride dm buf dt tm g dd sd] r lc ls cs].
  unfold resizeScratch, playbackStop.
  destruct st; destruct (env_malloc_framesIn env), (env_malloc_framesOut env).
  all: run_tac; reflexivity.
Qed.

Lemma startGate_state w :
  wp startGate
    (fun _ w' =>
       stateOf w' = stateOf w
       \/ (stateOf w = STREAM_STATE_SETUP /\ stateOf w' = STREAM_STATE_RUN)) w.
Proof.
  destruct w as [dev [st vc v m ch sr stride dm buf dt tm g dd sd] r lc ls cs].
  unfold startGate. destruct st.
  all: run_tac; unfold stateOf; cbn; auto.
Qed.

Lemma playbackData_transition fuel env size w e w' :
  audio_playbackData fuel env size w = Ok e w' ->
  transition (CallPlaybackData fuel env size) (stateOf w) (stateOf w').
Proof.
  intros Hrun.
  destruct (playbackData_through (same stateOf)
              stateOf_feed stateOf_spiceClock stateOf_measureOffset
              stateOf_resampleRatio stateOf_resampleLoop
              stateOf_publishLatency _ _ _ _ _ _ Hrun)
    as [-> | (Hact & [(ex & Hres & _) | (w1 & w6 & H1 & H16 & Hend)])].
  - left. reflexivity.
  - pose proof (resizeScratch_state _ _ _ _ _ Hres) as H. cbv beta iota in H.
    right. rewrite H. right. right. left. split; [reflexivity | exact Hact].
  - assert (E1 : stateOf w1 = stateOf w).
    { destruct H1 as [-> | Hres]; [reflexivity|].
      exact (resizeScratch_state _ _ _ _ _ Hres). }
    unfold same in H16. rewrite E1 in H16.
    destruct Hend as [(consumed & _ & ->) | (consumed & w7 & _ & Hgate & H78)].
    + left. exact H16.
    + unfold same in H78. rewrite H78.
      destruct (startGate_state _ _ _ Hgate) as [E | [E1' E2]].
      * left. congruence.
      * right. rewrite E2. split; [congruence | reflexivity].
Qed.

Lemma step_transition :
  forall (c : Call) (w w' : AudioState),
    step c w = Ok tt w' ->
    transition c (stateOf w) (stateOf w').
Proof.
  intros c w w'. revert w'.
  assert (H : wp (step c) (fun _ w' => transition c (stateOf w) (stateOf w')) w).
  { destruct c; cbn [step].
    - unfold audio_init. destruct chosen; transition_tac w.
    - unfold audio_free, playbackStop, audio_recordStop. transition_tac w.
    - unfold audio_playbackStart, playbackStop. destruct src_new_ok;
        transition_tac w.
    - unfold audio_playbackStop. transition_tac w.
    - unfold audio_playbackVolume. transition_tac w.
    - unfold audio_playbackMute. transition_tac w.
    - apply wp_bind. intros e w1 H1. apply wp_ret.
      exact (playbackData_transition _ _ _ _ _ _ H1).
    - unfold playbackPullFrames, pullBody, deviceClock, postTick, drainCheck,
        playbackStop. transition_tac w.
    - unfold audio_recordStart, recordConfigure. transition_tac w.
    - unfold audio_recordStop. transition_tac w.
    - unfold audio_recordVolume. transition_tac w.
    - unfold audio_recordMute. transition_tac w.
    - unfold recordPushFrames. transition_tac w. }
  intros w' E. exact (H tt w' E).
Qed.


(** X4.  The stream state changes only as follows: to SETUP by an
    [audio_playbackStart] whose resampler was created; to RUN from SETUP
    within [audio_playbackData]; to DRAIN by [audio_playbackStop]; to STOP
    by [audio_free], by an [audio_playbackStart] whose resampler could not
    be created, by [audio_playbackData] on an active stream (a failed
    [malloc]) or by a pull of the sink while draining.  Every other call
    leaves the state as it is. *)
Theorem stream_state_transitions :
  forall (c : Call) (w w' : AudioState),
    step c w = Ok tt w' ->
    transition c (stateOf w) (stateOf w').
Proof. exact step_transition. Qed.

(** The fifth source period takes the stream from SETUP to RUN. *)
Lemma stream_state_transitions_witness :
  transition (CallPlaybackData 4 (demoEnv 1080000000) 3840)
    (stateOf w_primed) (stateOf w_started).
Proof.
  apply (stream_state_transitions (CallPlaybackData 4 (demoEnv 1080000000) 3840)
           w_primed w_started).
  vm_compute. reflexivity.
Defined.

Lemma backend_calls_in_order_witness :
  exists b,
    backendAfter (calls w_draining) = Some b
    /\ agrees (stateOf w_draining) (be_playback b)
    /\ be_recording b = rec_started (record w_draining).
Proof. exact (backend_calls_in_order w_draining w_draining_reachable). Defined.

(** ** [audio_playbackStart] *)

(** X5.  With a backend and a resampler, [audio_playbackStart] leaves a
    stream in SETUP with the format asked for, a stride of
    [channels * sizeof(float)], the backend's largest period, three new
    and empty rings, both positions and both period sizes at [0] (so the
    first tick of each tracker is an initial one), no tick received, and
    the offset filter and the rate controller at rest.  The cached volume
    and mute and the record side are not touched.  The one exception is a
    cached channel count on a backend without [playback.volume] (a cache
    that another backend left behind): line 341 then calls through the
    [NULL] member. *)
Theorem playbackStart_sets_up_stream :
  forall (maxPeriodFrames channels sampleRate : Z) (w : AudioState),
    isSome (audioDev w) = true ->
    if negb (pb_volumeChannels (playback w) =? 0)
       && negb (has_playback_volume w)
    then
      audio_playbackStart true maxPeriodFrames channels sampleRate w
      = NullDeref
    else
    exists w',
      audio_playbackStart true maxPeriodFrames channels sampleRate w = Ok tt w'
      /\ stateOf w' = STREAM_STATE_SETUP
      /\ pb_channels (playback w') = channels
      /\ pb_sampleRate (playback w') = sampleRate
      /\ pb_stride (playback w') = mul32 channels 4
      /\ pb_deviceMaxPeriodFrames (playback w') = maxPeriodFrames
      /\ pb_buffer (playback w') = Some ringbuffer_newUnbounded
      /\ pb_deviceTiming (playback w') = Some []
      /\ pb_timings (playback w') = Some []
      /\ sd_src (spiceDataOf w') = Live
      /\ dd_periodFrames (deviceDataOf w') = 0
      /\ dd_nextPosition (deviceDataOf w') = 0
      /\ sd_periodFrames (spiceDataOf w') = 0
      /\ sd_nextPosition (spiceDataOf w') = 0
      /\ sd_devLastTime (spiceDataOf w') = INT64_MIN
      /\ sd_devNextTime (spiceDataOf w') = INT64_MIN
      /\ controlOf w' = (0.0, 0.0, 0.0)%float
      /\ pb_volumeChannels (playback w') = pb_volumeChannels (playback w)
      /\ pb_volume (playback w') = pb_volume (playback w)
      /\ pb_mute (playback w') = pb_mute (playback w)
      /\ record w' = record w
      /\ audioDev w' = audioDev w.
Proof.
  intros maxPeriodFrames channels sampleRate w Hdev.
  destruct w as [dev [st vc v m ch sr stride dm buf dt tm g dd sd] r lc ls cs].
  destruct dev as [ops|]; [clear Hdev | discriminate Hdev].
  destruct ops as [o1 volume o3 o4 o5 o6 o7].
  unfold has_playback_volume. cbn [audioDev playback pb_volumeChannels
    ops_playback_volume].
  destruct vc as [|vc|vc], volume; cbn [Z.eqb negb andb].
  all: try (apply yields_unit; unfold audio_playbackStart, playbackStop;
            destruct st; run_tac; repeat split; reflexivity).
  all: apply through_NULL;
    [unfold audio_playbackStart, playbackStop; fuel_tac|].
  all: unfold audio_playbackStart, playbackStop; destruct st; run_tac.
Qed.

Lemma playbackStart_sets_up_stream_witness :
  exists w',
    audio_playbackStart true 512 2 44100 w_running = Ok tt w'
    /\ stateOf w' = STREAM_STATE_SETUP
    /\ pb_channels (playback w') = 2
    /\ pb_sampleRate (playback w') = 44100
    /\ pb_buffer (playback w') = Some ringbuffer_newUnbounded
    /\ sd_nextPosition (spiceDataOf w') = 0.
Proof.
  destruct (playbackStart_sets_up_stream 512 2 44100 w_running eq_refl)
    as (w' & H).
  exists w'. tauto.
Defined.

(** The calls of a successful [audio_playbackStart] after the old stream
    is stopped, most recent first: the resampler, the two rings, the
    backend's [setup], the cached volume if one was stored, the cached
    mute if the backend has a [mute] callback, the latency ring and its
    graph. *)
Definition startCalls (ops : LG_AudioDevOps) (p : Playback)
    (channels sampleRate : Z) : list Event :=
  [EvRegisterGraph; EvRingNew TheTimings]
  ++ (if ops_playback_mute ops then [EvPlaybackMute (pb_mute p)] else [])
  ++ (if negb (pb_volumeChannels p =? 0)
      then [EvPlaybackVolume (pb_volumeChannels p) (pb_volume p)] else [])
  ++ [EvPlaybackSetup channels sampleRate; EvRingNew TheDeviceTiming;
      EvRingNew TheBuffer; EvSrcNew channels].

Ltac calls_solve :=
  unfold startCalls, stopCalls; cbn;
  repeat match goal with
         | H : _ = true |- _ => rewrite H
         | H : _ = false |- _ => rewrite H
         end;
  cbn; reflexivity.

Lemma audio_playbackStart_calls ops maxPeriodFrames channels sampleRate w :
  streamOk w ->
  audioDev w = Some ops ->
  (pb_volumeChannels (playback w) =? 0) || ops_playback_volume ops = true ->
  exists w',
    audio_playbackStart true maxPeriodFrames channels sampleRate w = Ok tt w'
    /\ calls w'
       = startCalls ops (playback w) channels sampleRate
         ++ (if StreamState_eqb (stateOf w) STREAM_STATE_STOP then []
             else stopCalls (nonnull (sd_framesIn (spiceDataOf w))))
         ++ calls w.
Proof.
  intros Hs Hdev Hvol. apply yields_unit. revert Hdev Hvol.
  destruct ops as [o1 o2 pm o4 o5 o6 o7].
  open_streamOk w Hs; cbn; intros Hdev Hvol; try discriminate Hdev;
    injection Hdev as ->;
    unfold audio_playbackStart, playbackStop.
  all: apply orb_true_iff in Hvol; destruct Hvol as [Hvol | Hvol];
    [apply (f_equal negb) in Hvol; cbn in Hvol | subst o2].
  all: run_tac; calls_solve.
Qed.

(** A cached channel count on a backend without [playback.volume]: line
    341 calls through the [NULL] member. *)
Lemma audio_playbackStart_through_NULL ops maxPeriodFrames channels sampleRate w :
  audioDev w = Some ops ->
  ops_playback_volume ops = false ->
  pb_volumeChannels (playback w) <> 0 ->
  audio_playbackStart true maxPeriodFrames channels sampleRate w = NullDeref.
Proof.
  intros Hdev Hops Hvc.
  apply through_NULL; [unfold audio_playbackStart, playbackStop; fuel_tac|].
  revert Hdev Hops Hvc.
  destruct w as [dev [st vc v m ch sr stride dm buf dt tm g dd sd] r lc ls cs].
  destruct ops as [o1 volume o3 o4 o5 o6 o7]. cbn.
  intros -> -> Hvc. apply Z.eqb_neq in Hvc.
  apply (f_equal negb) in Hvc. cbn in Hvc.
  unfold audio_playbackStart, playbackStop; destruct st; run_tac.
Qed.

(** X6.  From a reachable state, a successful [audio_playbackStart] first
    tears down a stream that is not stopped (the calls of
    [playbackStop]), then creates the resampler and the two rings, calls
    the backend's [setup], hands it the cached playback volume if a
    channel count was stored and the cached playback mute if it has a
    [mute] callback, and registers the latency graph.  When a channel
    count is cached and the backend has no [playback.volume] (a cache that
    another backend left behind), the call of line 341 goes through the
    [NULL] member instead. *)
Theorem playbackStart_replays_cache :
  forall (ops : LG_AudioDevOps) (maxPeriodFrames channels sampleRate : Z)
         (w : AudioState),
    reachable w ->
    audioDev w = Some ops ->
    if negb (pb_volumeChannels (playback w) =? 0)
       && negb (ops_playback_volume ops)
    then
      audio_playbackStart true maxPeriodFrames channels sampleRate w
      = NullDeref
    else
    exists w',
      audio_playbackStart true maxPeriodFrames channels sampleRate w = Ok tt w'
      /\ calls w'
         = startCalls ops (playback w) channels sampleRate
           ++ (if StreamState_eqb (stateOf w) STREAM_STATE_STOP then []
               else stopCalls (nonnull (sd_framesIn (spiceDataOf w))))
           ++ calls w.
Proof.
  intros ops maxPeriodFrames channels sampleRate w Hw Hdev.
  destruct (pb_volumeChannels (playback w) =? 0) eqn:Hvc;
    [|destruct (ops_playback_volume ops) eqn:Hops]; cbn [negb andb].
  - apply audio_playbackStart_calls;
      [exact (reachable_streamOk w Hw) | exact Hdev | rewrite Hvc; reflexivity].
  - apply audio_playbackStart_calls;
      [exact (reachable_streamOk w Hw) | exact Hdev
      | rewrite Hvc, Hops; reflexivity].
  - apply Z.eqb_neq in Hvc.
    exact (audio_playbackStart_through_NULL ops _ _ _ w Hdev Hops Hvc).
Qed.

(** Restarting the running stream of [w_running] at 44100 Hz. *)
Lemma playbackStart_replays_cache_witness :
  exists w',
    audio_playbackStart true 512 2 44100 w_running = Ok tt w'
    /\ calls w'
       = [EvRegisterGraph; EvRingNew TheTimings; EvPlaybackMute false;
          EvPlaybackSetup 2 44100; EvRingNew TheDeviceTiming;
          EvRingNew TheBuffer; EvSrcNew 2]
         ++ stopCalls true ++ calls w_running.
Proof.
  exact (playbackStart_replays_cache demoOps 512 2 44100 w_running
           w_running_reachable eq_refl).
Defined.

(** A backend with a playback and a record stream, but without the two
    volume members. *)
Definition plainOps : LG_AudioDevOps :=
  {| ops_playback_start := true; ops_playback_volume := false;
     ops_playback_mute := true; ops_playback_latency := false;
     ops_record_start := true; ops_record_volume := false;
     ops_record_mute := true |}.

(** The volume cached under one backend meets a second backend, which
    has no [playback.volume]: the start of the stream calls through the
    [NULL] member. *)
Example playbackStart_after_backend_change :
  exists w,
    session [CallInit (Some demoOps); CallPlaybackVolume 2 [100; 200];
             CallFree; CallInit (Some plainOps)] initialAudio
    = Some w
    /\ pb_volumeChannels (playback w) = 2
    /\ audio_playbackStart true 1024 2 48000 w = NullDeref.
Proof.
  eexists. split; [vm_compute; reflexivity|].
  split; vm_compute; reflexivity.
Qed.

(** X7.  When [src_new] fails, [audio_playbackStart] from a reachable
    state leaves the stream stopped with nothing allocated: a stream that
    was not stopped is torn down, the failure is logged, and neither a
    ring is created nor the backend's [setup] called. *)
Theorem playbackStart_without_resampler :
  forall (maxPeriodFrames channels sampleRate : Z) (w : AudioState),
    reachable w ->
    isSome (audioDev w) = true ->
    exists w',
      audio_playbackStart false maxPeriodFrames channels sampleRate w = Ok tt w'
      /\ stateOf w' = STREAM_STATE_STOP
      /\ released w'
      /\ calls w'
         = [EvDebugError; EvSrcNew channels]
           ++ (if StreamState_eqb (stateOf w) STREAM_STATE_STOP then []
               else stopCalls (nonnull (sd_framesIn (spiceDataOf w))))
           ++ calls w.
Proof.
  intros maxPeriodFrames channels sampleRate w Hw.
  pose proof (reachable_streamOk w Hw) as Hs. clear Hw.
  intros Hdev. apply yields_unit. revert Hdev.
  open_streamOk w Hs; cbn; intros Hdev; try discriminate Hdev;
    unfold audio_playbackStart, playbackStop.
  all: run_tac; unfold released, stateOf, spiceDataOf; cbn;
    repeat split; reflexivity.
Qed.

Lemma playbackStart_without_resampler_witness :
  exists w',
    audio_playbackStart false 512 2 44100 w_running = Ok tt w'
    /\ stateOf w' = STREAM_STATE_STOP
    /\ released w'
    /\ calls w' = [EvDebugError; EvSrcNew 2] ++ stopCalls true ++ calls w_running.
Proof.
  exact (playbackStart_without_resampler 512 2 44100 w_running
           w_running_reachable eq_refl).
Defined.

(** ** The volume and mute caches *)


Lemma memcpy_firstn dst src n :
  (n <= length src)%nat -> firstn n (memcpy dst src n) = firstn n src.
Proof.
  intros H. unfold memcpy.
  assert (Hl : length (firstn n (src ++ repeat 0 n)) = n).
  { rewrite length_firstn, length_app, repeat_length. lia. }
  rewrite firstn_app, Hl, Nat.sub_diag, firstn_O, app_nil_r.
  rewrite firstn_firstn, Nat.min_id.
  rewrite firstn_app.
  replace (n - length src)%nat with O by lia.
  rewrite firstn_O, app_nil_r. reflexivity.
Qed.

Lemma memcpy_skipn dst src n :
  skipn n (memcpy dst src n) = skipn n dst.
Proof.
  unfold memcpy.
  assert (Hl : length (firstn n (src ++ repeat 0 n)) = n).
  { rewrite length_firstn, length_app, repeat_length. lia. }
  rewrite skipn_app, Hl, Nat.sub_diag. cbn [skipn].
  rewrite <- Hl at 1. rewrite skipn_all. reflexivity.
Qed.

Lemma min_ARRAY_LENGTH_nonneg channels :
  0 <= channels -> min_ARRAY_LENGTH 8 channels = Z.min 8 channels.
Proof.
  intros H. unfold min_ARRAY_LENGTH.
  destruct (channels <? 0) eqn:E; [apply Z.ltb_lt in E; lia | reflexivity].
Qed.



(** [audio] after [audio_playbackVolume] and [audio_playbackMute] on a
    backend that has the callback. *)
Definition playbackVolumeSet (channels : Z) (volume : list Z)
    (w : AudioState) : AudioState :=
  let n := min_ARRAY_LENGTH 8 channels in
  let p := playback w in
  set_calls
    (if STREAM_ACTIVE (pb_state p)
     then EvPlaybackVolume n volume :: calls w else calls w)
    (set_playback
       (set_pb_volumeChannels n
          (set_pb_volume (memcpy (pb_volume p) volume (Z.to_nat n)) p))
       w).

Definition playbackMuteSet (mute : bool) (w : AudioState) : AudioState :=
  set_calls
    (if STREAM_ACTIVE (pb_state (playback w))
     then EvPlaybackMute mute :: calls w else calls w)
    (set_playback (set_pb_mute mute (playback w)) w).


Definition recordMuteSet (mute : bool) (w : AudioState) : AudioState :=
  set_calls
    (if rec_started (record w) then EvRecordMute mute :: calls w else calls w)
    (set_record (set_rec_mute mute (record w)) w).

Ltac open_all w :=
  let sd := fresh "sd" in
  let r := fresh "r" in
  let dev := fresh "dev" in
  destruct w as [dev [?st ?vc ?v ?m ?ch ?sr ?stride ?dm ?buf ?dt ?tm ?g ?dd sd]
                 r ?lc ?ls ?cs];
  destruct r as [?started ?rvc ?rv ?rm ?rstride ?rtime];
  destruct sd as [?fin ?fout ?fos ?pf ?ps ?nt ?np ?b ?c ?dpf ?dlt ?dnt ?dlp
                  ?dnp ?oe ?oei ?ri ?src];
  destruct dev as [[?o1 ?o2 ?o3 ?o4 ?o5 ?o6 ?o7]|].

Lemma audio_playbackVolume_effect channels volume w :
  audio_playbackVolume channels volume w
  = Ok tt (if has_playback_volume w then playbackVolumeSet channels volume w
           else w).
Proof.
  open_all w; unfold audio_playbackVolume, has_playback_volume,
    playbackVolumeSet; run_prim; [|reflexivity].
  destruct o2; [|reflexivity]. destruct st; reflexivity.
Qed.

Lemma audio_playbackMute_effect mute w :
  audio_playbackMute mute w
  = Ok tt (if has_playback_mute w then playbackMuteSet mute w else w).
Proof.
  open_all w; unfold audio_playbackMute, has_playback_mute, playbackMuteSet;
    run_prim; [|reflexivity].
  destruct o3; [|reflexivity]. destruct st; reflexivity.
Qed.


Lemma audio_recordMute_effect mute w :
  audio_recordMute mute w
  = Ok tt (if has_record_mute w then recordMuteSet mute w else w).
Proof.
  open_all w; unfold audio_recordMute, has_record_mute, recordMuteSet;
    run_prim; [|reflexivity].
  destruct o7; [|reflexivity]. destruct started; reflexivity.
Qed.

(** X8.  A volume set while the stream is not active is not handed to
    the backend then, but the next successful [audio_playbackStart] hands
    it over right after the backend's [setup]: with the channel count
    [min(8, channels)] and an array whose first [min(8, channels)] levels
    are the ones given. *)
Theorem cached_volume_is_restored :
  forall (ops : LG_AudioDevOps) (channels : Z) (volume : list Z)
         (maxPeriodFrames streamChannels sampleRate : Z) (w : AudioState),
    reachable w ->
    audioDev w = Some ops ->
    ops_playback_volume ops = true ->
    STREAM_ACTIVE (stateOf w) = false ->
    0 < channels ->
    (Z.to_nat (Z.min 8 channels) <= length volume)%nat ->
    exists w1 w2 cached before after,
      audio_playbackVolume channels volume w = Ok tt w1
      /\ calls w1 = calls w
      /\ audio_playbackStart true maxPeriodFrames streamChannels sampleRate w1
         = Ok tt w2
      /\ calls w2
         = before
           ++ EvPlaybackVolume (Z.min 8 channels) cached
              :: EvPlaybackSetup streamChannels sampleRate :: after
      /\ firstn (Z.to_nat (Z.min 8 channels)) cached
         = firstn (Z.to_nat (Z.min 8 channels)) volume.
Proof.
  intros ops channels volume maxPeriodFrames streamChannels sampleRate w
    Hw Hdev Hvol Hact Hch Hlen.
  pose proof (audio_playbackVolume_effect channels volume w) as E1.
  assert (Hhas : has_playback_volume w = true).
  { unfold has_playback_volume. rewrite Hdev. exact Hvol. }
  rewrite Hhas in E1.
  set (w1 := playbackVolumeSet channels volume w) in *.
  assert (Hw1 : reachable w1).
  { apply (reachable_step (CallPlaybackVolume channels volume) w w1 Hw).
    exact E1. }
  assert (Hdev1 : audioDev w1 = Some ops) by exact Hdev.
  destruct (audio_playbackStart_calls ops maxPeriodFrames streamChannels
              sampleRate w1 (reachable_streamOk w1 Hw1) Hdev1)
    as (w2 & E2 & Hcalls).
  { rewrite Hvol. apply orb_true_r. }
  assert (Hmin : min_ARRAY_LENGTH 8 channels = Z.min 8 channels)
    by (apply min_ARRAY_LENGTH_nonneg; lia).
  exists w1, w2, (pb_volume (playback w1)).
  exists ([EvRegisterGraph; EvRingNew TheTimings]
          ++ (if ops_playback_mute ops
              then [EvPlaybackMute (pb_mute (playback w1))] else [])).
  eexists. split; [exact E1|]. split.
  { unfold w1, playbackVolumeSet, stateOf in *. cbn. rewrite Hact. reflexivity. }
  split; [exact E2|]. split.
  - rewrite Hcalls. unfold startCalls.
    assert (Hc1 : pb_volumeChannels (playback w1) = Z.min 8 channels).
    { unfold w1, playbackVolumeSet. cbn. exact Hmin. }
    assert (Hn : negb (pb_volumeChannels (playback w1) =? 0) = true).
    { rewrite Hc1. apply negb_true_iff, Z.eqb_neq. lia. }
    rewrite Hn, Hc1. rewrite <- !app_assoc. cbn [app]. reflexivity.
  - unfold w1, playbackVolumeSet. cbn. rewrite Hmin.
    apply memcpy_firstn. exact Hlen.
Qed.

(** Two levels are set on the stopped stream of a fresh backend, and the
    stream is then started. *)
Lemma cached_volume_is_restored_witness :
  exists w1 w2 cached before after,
    audio_playbackVolume 2 [100; 200] (exec (audio_init (Some demoOps)) initialAudio)
    = Ok tt w1
    /\ calls w1 = calls (exec (audio_init (Some demoOps)) initialAudio)
    /\ audio_playbackStart true 1024 2 48000 w1 = Ok tt w2
    /\ calls w2
       = before ++ EvPlaybackVolume (Z.min 8 2) cached
                   :: EvPlaybackSetup 2 48000 :: after
    /\ firstn (Z.to_nat (Z.min 8 2)) cached
       = firstn (Z.to_nat (Z.min 8 2)) [100; 200].
Proof.
  apply (cached_volume_is_restored demoOps 2 [100; 200] 1024 2 48000
           (exec (audio_init (Some demoOps)) initialAudio)).
  - apply (reachable_step (CallInit (Some demoOps)) initialAudio).
    + exact reachable_initial.
    + reflexivity.
  - reflexivity.
  - reflexivity.
  - reflexivity.
  - lia.
  - cbn. lia.
Defined.


Definition cacheView (w : AudioState) : list Z * Z * list Z * Z :=
  (pb_volume (playback w), pb_volumeChannels (playback w),
   rec_volume (record w), rec_volumeChannels (record w)).


Lemma cacheView_playbackStop : preserves cacheView playbackStop.
Proof. unfold playbackStop. pres_tac. Qed.
#[export] Hint Resolve cacheView_playbackStop : pres.









(** ** Without a backend, and [audio_free] *)

Definition isInit (c : Call) : bool :=
  match c with CallInit _ => true | _ => false end.
Definition isRecordPush (c : Call) : bool :=
  match c with CallRecordPush _ => true | _ => false end.

Lemma yields_same (m : M unit) w :
  yields m (fun _ w' => w' = w) w -> m w = Ok tt w.
Proof. intros ([] & w' & E & ->). exact E. Qed.

(** X10.  In a reachable state without a backend ([audio_init] found
    none, or [audio_free] has run) every entry point returns at once and
    changes nothing; a pull of the sink, were one still to come, gets
    [0] frames.  ([audio_init] and the record callback
    [recordPushFrames], which the backend itself calls, are apart.) *)
Theorem without_backend_nothing_happens :
  forall (c : Call) (w : AudioState),
    reachable w ->
    audioDev w = None ->
    isInit c = false ->
    isRecordPush c = false ->
    step c w = Ok tt w
    /\ forall now frames,
         playbackPullFrames now frames w
         = Ok (if frames =? 0 then frames else 0) w.
Proof.
  intros c w Hw. pose proof (reachable_streamOk w Hw) as Hs. clear Hw.
  intros Hdev Hinit Hpush.
  assert (Hpull : forall now frames,
            playbackPullFrames now frames w
            = Ok (if frames =? 0 then frames else 0) w).
  { intros now frames. revert Hdev.
    open_streamOk w Hs; cbn; intros Hdev; try discriminate Hdev.
    all: unfold playbackPullFrames, pullBody, drainCheck;
      destruct (frames =? 0); reflexivity. }
  split; [|exact Hpull].
  destruct c; try discriminate Hinit; try discriminate Hpush; cbn [step].
  7:{ cbv [bind]. rewrite Hpull. reflexivity. }
  all: apply yields_same; revert Hdev.
  all: open_streamOk w Hs; cbn; intros Hdev; try discriminate Hdev.
  all: unfold audio_free, audio_playbackStart, audio_playbackStop,
         audio_playbackVolume, audio_playbackMute, audio_playbackData,
         audio_recordStart, audio_recordStop, audio_recordVolume,
         audio_recordMute.
  all: run_tac; reflexivity.
Qed.

Lemma without_backend_nothing_happens_witness :
  step (CallPlaybackData 4 (demoEnv 1000000000) 3840) initialAudio
  = Ok tt initialAudio
  /\ forall now frames,
       playbackPullFrames now frames initialAudio
       = Ok (if frames =? 0 then frames else 0) initialAudio.
Proof.
  exact (without_backend_nothing_happens
           (CallPlaybackData 4 (demoEnv 1000000000) 3840) initialAudio
           reachable_initial eq_refl eq_refl eq_refl).
Defined.

(** X11.  From a reachable state with a backend, [audio_free] stops the
    playback stream if it is not stopped already (at once, without
    draining), stops the record stream if it is started, calls the
    backend's [free] last and forgets the backend: afterwards the stream
    is in STOP with everything released, nothing is being recorded, and a
    second [audio_free] does nothing. *)
Theorem audio_free_releases_everything :
  forall w : AudioState,
    reachable w ->
    isSome (audioDev w) = true ->
    exists w',
      audio_free w = Ok tt w'
      /\ audioDev w' = None
      /\ stateOf w' = STREAM_STATE_STOP
      /\ released w'
      /\ rec_started (record w') = false
      /\ calls w'
         = EvAudioDevFree
           :: (if rec_started (record w) then [EvRecordStop] else [])
           ++ (if StreamState_eqb (stateOf w) STREAM_STATE_STOP then []
               else stopCalls (nonnull (sd_framesIn (spiceDataOf w))))
           ++ calls w
      /\ audio_free w' = Ok tt w'.
Proof.
  intros w Hw. pose proof (reachable_streamOk w Hw) as Hs. clear Hw.
  intros Hdev. apply yields_unit. revert Hdev.
  open_streamOk w Hs; cbn; intros Hdev; try discriminate Hdev;
    unfold audio_free, playbackStop, audio_recordStop.
  all: match goal with r : RecordData |- _ => destruct r as [[|] ? ? ? ? ?] end.
  all: run_tac; unfold released, stateOf, spiceDataOf, stopCalls; cbn;
    repeat split; reflexivity.
Qed.

Lemma audio_free_releases_everything_witness :
  exists w',
    audio_free w_running = Ok tt w'
    /\ audioDev w' = None
    /\ stateOf w' = STREAM_STATE_STOP
    /\ released w'
    /\ rec_started (record w') = false
    /\ calls w' = EvAudioDevFree :: stopCalls true ++ calls w_running
    /\ audio_free w' = Ok tt w'.
Proof.
  exact (audio_free_releases_everything w_running w_running_reachable eq_refl).
Defined.

(** ** A failed [malloc] in [audio_playbackData] *)

(** The calls of the resize of lines 412-437 up to the failure, most
    recent first. *)
Definition failedResizeCalls (inOk : bool) (frames : Z) (p : Playback)
    : list Event :=
  EvDebugError
  :: (if inOk
      then [EvMalloc FramesOut
              (mul32 (round_to_int (Z2D frames * 1.1)%float) (pb_stride p))]
      else [])
  ++ [EvMalloc FramesIn (mul32 frames (pb_stride p))]
  ++ (if nonnull (sd_framesIn (pb_spiceData p))
      then [EvFree FramesOut; EvFree FramesIn] else []).

(** X12.  When the period size of the source changes on an active stream
    and one of the two [malloc]s fails, [audio_playbackData] logs the
    error, stops the stream and returns: the state is STOP, everything is
    released (a [framesIn] that was just allocated is freed again, so
    nothing leaks), the backend's [stop] has been called, and no sample
    was converted or resampled. *)
Theorem playbackData_malloc_failure :
  forall (fuel : nat) (env : DataEnv) (size : Z) (w : AudioState),
    reachable w ->
    STREAM_ACTIVE (stateOf w) = true ->
    size <> 0 ->
    dataFrames size w <> sd_periodFrames (spiceDataOf w) ->
    env_malloc_framesIn env = false \/ env_malloc_framesOut env = false ->
    exists w',
      audio_playbackData fuel env size w
      = Ok (if env_malloc_framesIn env
            then ExitMallocFramesOut else ExitMallocFramesIn) w'
      /\ stateOf w' = STREAM_STATE_STOP
      /\ released w'
      /\ sd_framesOut (spiceDataOf w') <> Live
      /\ calls w'
         = stopCalls (env_malloc_framesIn env)
           ++ failedResizeCalls (env_malloc_framesIn env) (dataFrames size w)
                (playback w)
           ++ calls w.
Proof.
  intros fuel env size w Hw. pose proof (reachable_streamOk w Hw) as Hs.
  clear Hw. intros Hact Hsize Hpc Hfail.
  apply Z.eqb_neq in Hsize, Hpc.
  assert (G : yields (audio_playbackData fuel env size)
                (fun e w' =>
                   e = (if env_malloc_framesIn env
                        then ExitMallocFramesOut else ExitMallocFramesIn)
                   /\ stateOf w' = STREAM_STATE_STOP
                   /\ released w'
                   /\ sd_framesOut (spiceDataOf w') <> Live
                   /\ calls w'
                      = stopCalls (env_malloc_framesIn env)
                        ++ failedResizeCalls (env_malloc_framesIn env)
                             (dataFrames size w) (playback w)
                        ++ calls w) w).
  { revert Hact Hpc.
    destruct env as [now mi mo process latency]. cbn in Hfail |- *.
    open_streamOk w Hs; unfold dataFrames; cbn; intros Hact Hpc;
      try discriminate Hact;
      apply (f_equal negb) in Hpc; cbn in Hpc;
      unfold audio_playbackData, resizeScratch, playbackStop.
    all: destruct mi;
      [destruct Hfail as [Hfail | ->]; [discriminate Hfail|] | clear Hfail].
    all: run_tac.
    all: unfold released, stateOf, spiceDataOf, stopCalls, failedResizeCalls;
      cbn; repeat split; first [reflexivity | discriminate | assumption]. }
  destruct G as (e & w' & E & -> & H). exists w'. split; [exact E | exact H].
Qed.

(** The second period of a session has a different size, and the
    allocation of [framesOut] fails. *)
Lemma playbackData_malloc_failure_witness :
  exists w',
    audio_playbackData 4
      {| env_now := 1100000000; env_malloc_framesIn := true;
         env_malloc_framesOut := false; env_src_process := passthrough;
         env_latency := 0 |} 1920 w_running
    = Ok ExitMallocFramesOut w'
    /\ stateOf w' = STREAM_STATE_STOP
    /\ released w'
    /\ sd_framesOut (spiceDataOf w') <> Live
    /\ calls w'
       = stopCalls true
         ++ [EvDebugError; EvMalloc FramesOut 4224; EvMalloc FramesIn 3840;
             EvFree FramesOut; EvFree FramesIn]
         ++ calls w_running.
Proof.
  apply (playbackData_malloc_failure 4
           {| env_now := 1100000000; env_malloc_framesIn := true;
              env_malloc_framesOut := false; env_src_process := passthrough;
              env_latency := 0 |} 1920 w_running w_running_reachable).
  - reflexivity.
  - discriminate.
  - vm_compute. discriminate.
  - right. reflexivity.
Defined.

(** ** Receiving the ticks of the sink *)

Lemma fold_left_snoc {A B} (f : A -> B -> A) l x s :
  fold_left f (l ++ [x]) s = f (fold_left f l s) x.
Proof. rewrite fold_left_app. reflexivity. Qed.

(** X13.  [audio_playbackData] empties the tick queue and keeps the two
    most recent ticks: [devNext...] is the last tick posted and
    [devLast...] the one before it (with a single tick in the queue, the
    [devNext...] of before); [devPeriodFrames] is the period of the last
    tick.  With no tick in the queue nothing changes, and in any case
    nothing else of the source side is written. *)
Theorem receiveTicks_keeps_last_two :
  forall (w : AudioState) (q : list PlaybackDeviceTick),
    pb_deviceTiming (playback w) = Some q ->
    exists w',
      receiveTicks w = Ok tt w'
      /\ pb_deviceTiming (playback w') = Some []
      /\ calls w' = calls w
      /\ sansTicks (spiceDataOf w') = sansTicks (spiceDataOf w)
      /\ let s := spiceDataOf w in
         let s' := spiceDataOf w' in
         match rev q with
         | [] => s' = s
         | last :: before =>
             sd_devPeriodFrames s' = tick_periodFrames last
             /\ sd_devNextTime s' = tick_nextTime last
             /\ sd_devNextPosition s' = tick_nextPosition last
             /\ match before with
                | [] =>
                    sd_devLastTime s' = sd_devNextTime s
                    /\ sd_devLastPosition s' = sd_devNextPosition s
                | previous :: _ =>
                    sd_devLastTime s' = tick_nextTime previous
                    /\ sd_devLastPosition s' = tick_nextPosition previous
                end
         end.
Proof.
  intros w q Hq. unfold receiveTicks. run_prim.
  eexists. split; [reflexivity|]. cbn.
  split; [reflexivity|]. split; [reflexivity|].
  unfold spiceDataOf.
  split; [apply receiveTick_sansTicks|].
  set (s := pb_spiceData (playback w)). clearbody s. clear Hq.
  remember (rev q) as rq eqn:Hrq.
  apply (f_equal (@rev _)) in Hrq. rewrite rev_involutive in Hrq. subst q.
  destruct rq as [|last [|previous older]]; cbn [rev].
  - destruct s; reflexivity.
  - cbn. repeat split; reflexivity.
  - rewrite <- app_assoc. cbn [app].
    rewrite (fold_left_app receiveTick (rev older) [previous; last] s).
    cbn. repeat split; reflexivity.
Qed.

(** The two ticks of the pulls of [w_running] reach the source side. *)
Lemma receiveTicks_keeps_last_two_witness :
  exists w',
    receiveTicks w_running = Ok tt w'
    /\ pb_deviceTiming (playback w') = Some []
    /\ sd_devLastTime (spiceDataOf w') = 1102333333
    /\ sd_devLastPosition (spiceDataOf w') = 1024
    /\ sd_devNextTime (spiceDataOf w') = dd_nextTime (deviceDataOf w_running)
    /\ sd_devNextPosition (spiceDataOf w') = 2048.
Proof.
  destruct (receiveTicks_keeps_last_two w_running
              [{| tick_periodFrames := 1024; tick_nextTime := 1102333333;
                  tick_nextPosition := 1024 |};
               {| tick_periodFrames := 1024;
                  tick_nextTime := dd_nextTime (deviceDataOf w_running);
                  tick_nextPosition := 2048 |}] eq_refl)
    as (w' & E & Hq & _ & _ & H).
  cbn in H. exists w'. tauto.
Defined.

(** ** The clock trackers: the first tick and the nominal tick *)

Lemma deviceClock_first now frames w :
  frames <> 0 ->
  dd_periodFrames (deviceDataOf w) = 0 ->
  exists w',
    deviceClock now frames w = Ok tt w'
    /\ pb_buffer (playback w') = pb_buffer (playback w)
    /\ calls w' = calls w
    /\ let d := deviceDataOf w in
       let d' := deviceDataOf w' in
       let sampleRate := pb_sampleRate (playback w) in
       dd_periodFrames d' = frames
       /\ dd_periodSec d' = (Z2D frames / Z2D sampleRate)%float
       /\ dd_nextTime d' = add64 now (llrint (dd_periodSec d' * 1.0e9)%float)
       /\ dd_nextPosition d' = add64 (dd_nextPosition d) frames
       /\ dd_b d' = (M_SQRT2 * omega (dd_periodSec d'))%float
       /\ dd_c d' = (omega (dd_periodSec d') * omega (dd_periodSec d'))%float.
Proof.
  unfold deviceDataOf. intros Hf Hi. apply Z.eqb_neq in Hf.
  unfold deviceClock. run_prim. rewrite Hi, Hf. cbn.
  eexists. split; [reflexivity|]. cbn. repeat split; reflexivity.
Qed.

Lemma deviceClock_nominal now frames w :
  frames = dd_periodFrames (deviceDataOf w) ->
  (0.2 <=? abs (clockError now (dd_nextTime (deviceDataOf w))))%float = false ->
  exists w',
    deviceClock now frames w = Ok tt w'
    /\ pb_buffer (playback w') = pb_buffer (playback w)
    /\ calls w' = calls w
    /\ let d := deviceDataOf w in
       let d' := deviceDataOf w' in
       let e := clockError now (dd_nextTime d) in
       dd_nextTime d'
       = add64 (dd_nextTime d)
           (llrint ((dd_b d * e + dd_periodSec d) * 1.0e9)%float)
       /\ dd_periodSec d' = (dd_periodSec d + dd_c d * e)%float
       /\ dd_nextPosition d' = add64 (dd_nextPosition d) frames
       /\ dd_periodFrames d' = dd_periodFrames d
       /\ dd_b d' = dd_b d
       /\ dd_c d' = dd_c d.
Proof.
  unfold deviceDataOf, clockError. intros Hp He. apply Z.eqb_eq in Hp.
  unfold deviceClock. run_prim. rewrite Hp. cbn. rewrite He.
  eexists. split; [reflexivity|]. cbn. repeat split; reflexivity.
Qed.

Lemma spiceClock_same_period now frames init :
  preserves (fun w => (sd_b (spiceDataOf w), sd_c (spiceDataOf w),
                       sd_periodFrames (spiceDataOf w)))
    (spiceClock now frames false init).
Proof. unfold spiceClock. pres_tac. Qed.

(** X14.  The first tick of a tracker (its [periodFrames] is still [0],
    as [audio_playbackStart] leaves it) with a frame count that is not
    [0].  The sink sets its period to the frames asked for, expects the
    next tick one period after [now], advances its position by [frames]
    and computes its loop coefficients.  On the source side [w] is the
    state that [audio_playbackData] finds, from which lines 409-410
    compute [periodChanged] and [init], and [w1] the state the tracker
    runs in (after the resize of the scratch buffers and the ticks): the
    tracker takes [now] as the time of this tick (it yields
    [curTime = now] and the position written so far), expects the next
    period of data one period after [now] and computes its loop
    coefficients; its position is left to the resampler loop.  With less
    than one frame of data ([frames = 0]) the period has not changed: the
    tracker then runs as on any tick of the stored period size, and
    computes no loop coefficients. *)
Theorem first_tick_starts_the_clock :
  forall (now frames : Z) (w : AudioState),
    (ready w -> frames <> 0 ->
     dd_periodFrames (deviceDataOf w) = 0 ->
     exists w',
       playbackPullFrames now frames w = Ok frames w'
       /\ let d := deviceDataOf w in
          let d' := deviceDataOf w' in
          dd_periodFrames d' = frames
          /\ dd_periodSec d'
             = (Z2D frames / Z2D (pb_sampleRate (playback w)))%float
          /\ dd_nextTime d' = add64 now (llrint (dd_periodSec d' * 1.0e9)%float)
          /\ dd_nextPosition d' = add64 (dd_nextPosition d) frames
          /\ dd_b d' = (M_SQRT2 * omega (dd_periodSec d'))%float
          /\ dd_c d' = (omega (dd_periodSec d') * omega (dd_periodSec d'))%float)
    /\ (sd_periodFrames (spiceDataOf w) = 0 ->
        let periodChanged :=
          negb (frames =? sd_periodFrames (spiceDataOf w)) in
        let init := sd_periodFrames (spiceDataOf w) =? 0 in
        forall w1 : AudioState,
          (frames <> 0 ->
           exists w',
             spiceClock now frames periodChanged init w1
             = Ok (now, sd_nextPosition (spiceDataOf w1)) w'
             /\ pb_buffer (playback w') = pb_buffer (playback w1)
             /\ calls w' = calls w1
             /\ let s := spiceDataOf w1 in
                let s' := spiceDataOf w' in
                sd_periodSec s'
                = (Z2D frames / Z2D (pb_sampleRate (playback w1)))%float
                /\ sd_nextTime s'
                   = add64 now (llrint (sd_periodSec s' * 1.0e9)%float)
                /\ sd_nextPosition s' = sd_nextPosition s
                /\ sd_b s' = (M_SQRT2 * omega (sd_periodSec s'))%float
                /\ sd_c s'
                   = (omega (sd_periodSec s') * omega (sd_periodSec s'))%float)
          /\ (frames = 0 ->
              spiceClock now frames periodChanged init w1
              = spiceClock now frames false false w1
              /\ forall cur w',
                   spiceClock now frames periodChanged init w1 = Ok cur w' ->
                   sd_b (spiceDataOf w') = sd_b (spiceDataOf w1)
                   /\ sd_c (spiceDataOf w') = sd_c (spiceDataOf w1)
                   /\ sd_periodFrames (spiceDataOf w')
                      = sd_periodFrames (spiceDataOf w1))).
Proof.
  intros now frames w. split.
  - intros Hr Hf Hi.
    destruct (pull_runs_deviceClock now frames w Hr Hf)
      as (w1 & w' & Hclk & Hpull & Hd).
    destruct (deviceClock_first now frames w Hf Hi)
      as (w1' & Hclk' & _ & _ & Hfields).
    rewrite Hclk in Hclk'. injection Hclk' as <-.
    exists w'. split; [exact Hpull|]. cbv zeta. rewrite Hd. exact Hfields.
  - intros Hi. cbv zeta. rewrite Hi. intros w1. split.
    + intros Hf. apply Z.eqb_neq in Hf. rewrite Hf. cbn [negb Z.eqb].
      unfold spiceDataOf. unfold spiceClock. run_prim.
      eexists. split; [reflexivity|]. cbn. repeat split; reflexivity.
    + intros ->. cbn [negb Z.eqb]. split; [reflexivity|].
      intros cur w' Hclk.
      pose proof (spiceClock_same_period _ _ _ _ _ _ Hclk) as E.
      unfold same in E. injection E as E1 E2 E3. auto.
Qed.

(** The first pull and the first period of data of the stream of
    [w_setup]. *)
Lemma first_tick_starts_the_clock_witness :
  (exists w',
     playbackPullFrames 1000000000 1024 w_setup = Ok 1024 w'
     /\ dd_periodFrames (deviceDataOf w') = 1024
     /\ dd_nextTime (deviceDataOf w') = 1021333333
     /\ dd_nextPosition (deviceDataOf w') = 1024)
  /\ (exists w',
        spiceClock 1000000000 960
          (negb (960 =? sd_periodFrames (spiceDataOf w_setup)))
          (sd_periodFrames (spiceDataOf w_setup) =? 0) w_setup
        = Ok (1000000000, 0) w'
        /\ sd_nextTime (spiceDataOf w') = 1020000000).
Proof.
  destruct (first_tick_starts_the_clock 1000000000 1024 w_setup)
    as (Hsink & _).
  destruct (first_tick_starts_the_clock 1000000000 960 w_setup)
    as (_ & Hsource).
  split.
  - destruct Hsink as (w' & Hrun & Hpf & Hsec & Ht & Hpos & _).
    + repeat split; reflexivity.
    + discriminate.
    + reflexivity.
    + exists w'. split; [exact Hrun|]. split; [exact Hpf|]. split; [|exact Hpos].
      cbv zeta in Ht. rewrite Ht, Hsec. reflexivity.
  - destruct (Hsource eq_refl w_setup) as [Hfirst _].
    destruct Hfirst as (w' & Hrun & _ & _ & Hsec & Ht & _); [discriminate|].
    exists w'. split; [exact Hrun|].
    cbv zeta in Ht. rewrite Ht, Hsec. reflexivity.
Defined.

(** The first period of data of the stream of [w_setup], through
    [audio_playbackData]: 960 frames at 48 kHz. *)
Example first_period_in_w_setup :
  exists w',
    audio_playbackData 960 (demoEnv 1000000000) 3840 w_setup
    = Ok (ExitEnd 960) w'
    /\ sd_periodFrames (spiceDataOf w_setup) = 0
    /\ sd_periodFrames (spiceDataOf w') = 960
    /\ sd_periodSec (spiceDataOf w') = 0.02%float
    /\ sd_nextTime (spiceDataOf w') = 1020000000
    /\ sd_nextPosition (spiceDataOf w') = 960.
Proof. eexists. split; [vm_compute; reflexivity|]. vm_compute. auto 10. Qed.

(** X15.  A tick of the stored period size whose clock error
    [e = (now - nextTime) * 1e-9] is below 0.2 s in size.  Either tracker
    moves [nextTime] on by [(b * e + periodSec) * 1e9] nanoseconds and
    then adds [c * e] to [periodSec]; period size and loop coefficients
    stay, and the tracker itself neither discards nor inserts frames.
    The sink advances its position by [frames]; the source yields the
    expected time and the position written so far, and leaves its
    position to the resampler loop. *)
Theorem nominal_tick_filters_the_clock :
  forall (now frames : Z) (w : AudioState),
    (let d := deviceDataOf w in
     let e := clockError now (dd_nextTime d) in
     ready w -> frames <> 0 ->
     frames = dd_periodFrames d ->
     (0.2 <=? abs e)%float = false ->
     exists w1 w',
       deviceClock now frames w = Ok tt w1
       /\ playbackPullFrames now frames w = Ok frames w'
       /\ pb_buffer (playback w1) = pb_buffer (playback w)
       /\ calls w1 = calls w
       /\ let d' := deviceDataOf w' in
          dd_nextTime d'
          = add64 (dd_nextTime d)
              (llrint ((dd_b d * e + dd_periodSec d) * 1.0e9)%float)
          /\ dd_periodSec d' = (dd_periodSec d + dd_c d * e)%float
          /\ dd_nextPosition d' = add64 (dd_nextPosition d) frames
          /\ dd_periodFrames d' = dd_periodFrames d
          /\ dd_b d' = dd_b d
          /\ dd_c d' = dd_c d)
    /\ (let s := spiceDataOf w in
        let e := clockError now (sd_nextTime s) in
        forall init : bool,
          (0.2 <=? abs e)%float = false ->
          exists w',
            spiceClock now frames false init w
            = Ok (sd_nextTime s, sd_nextPosition s) w'
            /\ pb_buffer (playback w') = pb_buffer (playback w)
            /\ calls w' = calls w
            /\ let s' := spiceDataOf w' in
               sd_nextTime s'
               = add64 (sd_nextTime s)
                   (llrint ((sd_b s * e + sd_periodSec s) * 1.0e9)%float)
               /\ sd_periodSec s' = (sd_periodSec s + sd_c s * e)%float
               /\ sd_nextPosition s' = sd_nextPosition s
               /\ sd_periodFrames s' = sd_periodFrames s
               /\ sd_b s' = sd_b s
               /\ sd_c s' = sd_c s).
Proof.
  intros now frames w. split.
  - intros d e Hr Hf Hp He.
    destruct (pull_runs_deviceClock now frames w Hr Hf)
      as (w1 & w' & Hclk & Hpull & Hd).
    destruct (deviceClock_nominal now frames w Hp He)
      as (w1' & Hclk' & Hb & Hc & Hfields).
    rewrite Hclk in Hclk'. injection Hclk' as <-.
    exists w1, w'. split; [exact Hclk|]. split; [exact Hpull|].
    split; [exact Hb|]. split; [exact Hc|]. cbv zeta. rewrite Hd. exact Hfields.
  - intros s e init He. subst s e. unfold spiceDataOf, clockError in *.
    unfold spiceClock. run_prim. rewrite He.
    eexists. split; [reflexivity|]. cbn. repeat split; reflexivity.
Qed.

(** The sink and the source of [w_running] are both some ten
    milliseconds off their expected times. *)
Lemma nominal_tick_filters_the_clock_witness :
  (exists w1 w',
     deviceClock 1124000000 1024 w_running = Ok tt w1
     /\ playbackPullFrames 1124000000 1024 w_running = Ok 1024 w'
     /\ calls w1 = calls w_running
     /\ dd_nextPosition (deviceDataOf w') = 3072
     /\ dd_periodFrames (deviceDataOf w') = 1024)
  /\ (exists w',
        spiceClock 1110000000 960 false false w_running
        = Ok (1100000000, 4800) w'
        /\ calls w' = calls w_running
        /\ sd_nextPosition (spiceDataOf w') = 4800).
Proof.
  destruct (nominal_tick_filters_the_clock 1124000000 1024 w_running)
    as (Hsink & _).
  destruct (nominal_tick_filters_the_clock 1110000000 960 w_running)
    as (_ & Hsource).
  split.
  - destruct Hsink as (w1 & w' & Hclk & Hpull & _ & Hc & _ & _ & Hpos & Hpf & _).
    + repeat split; reflexivity.
    + discriminate.
    + reflexivity.
    + reflexivity.
    + exists w1, w'. repeat split; assumption.
  - destruct (Hsource false eq_refl) as (w' & Hrun & _ & Hc & _ & _ & Hpos & _).
    exists w'. repeat split; assumption.
Defined.

(** ** What a pull does besides the clock, and who writes what *)

(** The tick of lines 270-275. *)
Definition tickOf (d : PlaybackDeviceData) : PlaybackDeviceTick :=
  {| tick_periodFrames := dd_periodFrames d;
     tick_nextTime     := dd_nextTime d;
     tick_nextPosition := dd_nextPosition d |}.

(** X16.  A pull of [frames <> 0] on a stream that has its coupling
    buffer and its tick queue and is not draining returns [frames], posts
    exactly one tick, which holds the period, the next time and the
    position of the sink tracker as this pull leaves them, and takes
    [frames] frames out of the coupling buffer as its last call (after
    the frames the tracker may have discarded on a slew).  The stream
    state does not change. *)
Theorem pull_posts_tick_and_consumes :
  forall (now frames : Z) (w : AudioState) (rb : RingBuffer)
         (q : list PlaybackDeviceTick),
    pb_buffer (playback w) = Some rb ->
    pb_deviceTiming (playback w) = Some q ->
    frames <> 0 ->
    stateOf w <> STREAM_STATE_DRAIN ->
    exists w',
      playbackPullFrames now frames w = Ok frames w'
      /\ pb_deviceTiming (playback w')
         = Some (tickQueue_append (tickOf (deviceDataOf w')) q)
      /\ stateOf w' = stateOf w
      /\ ((calls w' = EvBufferConsume false frames :: calls w
           /\ pb_buffer (playback w') = Some (ringbuffer_consume frames rb))
          \/ exists slewFrames,
               calls w' = EvBufferConsume false frames
                          :: EvBufferConsume true slewFrames :: calls w
               /\ pb_buffer (playback w')
                  = Some (ringbuffer_consume frames
                            (ringbuffer_consume slewFrames rb))).
Proof.
  intros now frames w rb q Hbuf Hq Hf Hst. apply Z.eqb_neq in Hf.
  assert (G : yields (playbackPullFrames now frames)
                (fun n w' =>
                   n = frames
                   /\ pb_deviceTiming (playback w')
                      = Some (tickQueue_append (tickOf (deviceDataOf w')) q)
                   /\ stateOf w' = stateOf w
                   /\ ((calls w' = EvBufferConsume false frames :: calls w
                        /\ pb_buffer (playback w')
                           = Some (ringbuffer_consume frames rb))
                       \/ exists slewFrames,
                            calls w' = EvBufferConsume false frames
                                       :: EvBufferConsume true slewFrames
                                       :: calls w
                            /\ pb_buffer (playback w')
                               = Some (ringbuffer_consume frames
                                         (ringbuffer_consume slewFrames rb)))) w).
  { destruct w as [dev [st vc v m ch sr stride dm buf dt tm g dd sd] r lc ls cs].
    cbn in Hbuf, Hq, Hst. subst buf dt. destruct dd as [dpf dps dnt dnp db dc].
    unfold playbackPullFrames, pullBody, deviceClock, postTick, drainCheck.
    destruct st; try (exfalso; apply Hst; reflexivity).
    all: run_tac.
    all: unfold stateOf, deviceDataOf, tickOf; cbn;
      repeat split; try reflexivity;
      first [ left; split; reflexivity
            | right; eexists; split; reflexivity ]. }
  destruct G as (n & w' & E & -> & H). exists w'. split; [exact E | exact H].
Qed.

Lemma pull_posts_tick_and_consumes_witness :
  exists w',
    playbackPullFrames 1124000000 1024 w_running = Ok 1024 w'
    /\ pb_deviceTiming (playback w')
       = Some (tickQueue_append (tickOf (deviceDataOf w'))
                 [{| tick_periodFrames := 1024; tick_nextTime := 1102333333;
                     tick_nextPosition := 1024 |};
                  {| tick_periodFrames := 1024;
                     tick_nextTime := dd_nextTime (deviceDataOf w_running);
                     tick_nextPosition := 2048 |}])
    /\ stateOf w' = stateOf w_running.
Proof.
  destruct (pull_posts_tick_and_consumes 1124000000 1024 w_running
              {| rb_writeHead := 4800; rb_readHead := 2048 |}
              [{| tick_periodFrames := 1024; tick_nextTime := 1102333333;
                  tick_nextPosition := 1024 |};
               {| tick_periodFrames := 1024;
                  tick_nextTime := dd_nextTime (deviceDataOf w_running);
                  tick_nextPosition := 2048 |}] eq_refl eq_refl)
    as (w' & E & Hq & Hst & _).
  - discriminate.
  - discriminate.
  - exists w'. repeat split; assumption.
Defined.

Lemma deviceData_feed samples :
  preserves deviceDataOf (call (EvShortToFloat samples) ;; receiveTicks).
Proof. unfold receiveTicks. pres_tac. Qed.
Lemma deviceData_spiceClock now frames pc init :
  preserves deviceDataOf (spiceClock now frames pc init).
Proof. unfold spiceClock. pres_tac. Qed.
Lemma deviceData_measureOffset curTime curPosition offsetError :
  preserves deviceDataOf (measureOffset curTime curPosition offsetError).
Proof. unfold measureOffset. pres_tac. Qed.
Lemma deviceData_resampleRatio offsetError :
  preserves deviceDataOf (resampleRatio offsetError).
Proof. unfold resampleRatio. pres_tac. Qed.
Lemma deviceData_resampleLoop fuel env frames ratio n consumed :
  preserves deviceDataOf (resampleLoop fuel env frames ratio n consumed).
Proof.
  revert n consumed. induction fuel as [|fuel IH]; intros n consumed;
    cbn [resampleLoop]; pres_tac.
Qed.
Lemma deviceData_publishLatency env off :
  preserves deviceDataOf (publishLatency env off).
Proof. unfold publishLatency. pres_tac. Qed.
Lemma deviceData_resizeScratch env frames :
  preserves deviceDataOf (resizeScratch env frames).
Proof. unfold resizeScratch, playbackStop. pres_tac. Qed.
Lemma deviceData_startGate : preserves deviceDataOf startGate.
Proof. unfold startGate. pres_tac. Qed.

(** X17.  The two threads keep to their own data.
    [audio_playbackData] never writes the sink's tracker
    ([playback.deviceData]), whichever way it returns.
    [playbackPullFrames] never writes the source side
    ([playback.spiceData]) as long as it leaves the stream state as it
    is, that is, unless it is the pull that stops a drained stream. *)
Theorem threads_keep_to_their_data :
  forall (w w' : AudioState),
    (forall fuel env size e,
       audio_playbackData fuel env size w = Ok e w' ->
       deviceDataOf w' = deviceDataOf w)
    /\ (forall now frames n,
          playbackPullFrames now frames w = Ok n w' ->
          stateOf w' = stateOf w ->
          spiceDataOf w' = spiceDataOf w).
Proof.
  intros w w'. split.
  - intros fuel env size e Hrun.
    destruct (playbackData_through (same deviceDataOf)
                deviceData_feed deviceData_spiceClock deviceData_measureOffset
                deviceData_resampleRatio deviceData_resampleLoop
                deviceData_publishLatency _ _ _ _ _ _ Hrun)
      as [-> | (_ & [(ex & Hres & _) | (w1 & w6 & H1 & H16 & Hend)])].
    + reflexivity.
    + exact (deviceData_resizeScratch _ _ _ _ _ Hres).
    + assert (E1 : same deviceDataOf w w1).
      { destruct H1 as [-> | Hres]; [reflexivity|].
        exact (deviceData_resizeScratch _ _ _ _ _ Hres). }
      change (same deviceDataOf w w').
      transitivity w1; [exact E1|]. transitivity w6; [exact H16|].
      destruct Hend as [(consumed & _ & ->) | (consumed & w7 & _ & Hgate & H78)];
        [reflexivity|].
      transitivity w7; [exact (deviceData_startGate _ _ _ Hgate) | exact H78].
  - intros now frames n. revert n w'.
    change (wp (playbackPullFrames now frames)
              (fun _ w' => stateOf w' = stateOf w ->
                           spiceDataOf w' = spiceDataOf w) w).
    destruct w as [dev [st vc v m ch sr stride dm buf dt tm g dd sd] r lc ls cs].
    unfold playbackPullFrames, pullBody, deviceClock, postTick, drainCheck,
      playbackStop.
    destruct st; run_tac; unfold stateOf, spiceDataOf; cbn;
      intros; first [reflexivity | discriminate].
Qed.

(** The sixth period of data and the third pull of the session. *)
Lemma threads_keep_to_their_data_witness :
  deviceDataOf w_tracking = deviceDataOf w_running
  /\ spiceDataOf w_running = spiceDataOf w_started.
Proof.
  split.
  - apply (proj1 (threads_keep_to_their_data w_running w_tracking)
             4%nat (demoEnv 1100000000) 3840 (ExitEnd 960)).
    vm_compute. reflexivity.
  - destruct (threads_keep_to_their_data
                (exec (playbackPullFrames 1081000000 1024) w_started)
                w_running) as [_ H2].
    rewrite (H2 1102000000 1024 1024).
    + destruct (threads_keep_to_their_data w_started
                  (exec (playbackPullFrames 1081000000 1024) w_started))
        as [_ H1].
      apply (H1 1081000000 1024 1024); vm_compute; reflexivity.
    + vm_compute. reflexivity.
    + vm_compute. reflexivity.
Defined.

(** ** The record stream *)

(** The calls of [audio_recordStart] when it (re)starts the stream, most
    recent first. *)
Definition recordStartCalls (ops : LG_AudioDevOps) (w : AudioState)
    (channels sampleRate : Z) : list Event :=
  (if ops_record_mute ops then [EvRecordMute (pb_mute (playback w))] else [])
  ++ (if negb (rec_volumeChannels (record w) =? 0)
      then [EvRecordVolume (pb_volumeChannels (playback w))
              (pb_volume (playback w))]
      else [])
  ++ EvRecordStart channels sampleRate
     :: (if rec_started (record w) then [EvRecordStop] else []).

(** X18.  [audio_recordStart] on a stream that is started with the same
    channel count and sample rate does nothing.  Otherwise it stops a
    started stream first, starts the backend's record stream with the new
    format, remembers the format and sets the stride to
    [channels * sizeof(uint16_t)], so that every later
    [recordPushFrames(data, frames)] hands [frames * channels * 2] bytes
    to [purespice_writeAudio].  The volume it then hands to the backend
    (if a record channel count is cached) and the mute (if the backend
    has a [record.mute]) are read from the playback cache.  The playback
    side is not touched.  [record.start] and [record.volume] are called
    without a test (lines 668 and 672): on a backend without
    [record.start], or without [record.volume] while a record channel
    count is cached, the call goes through the [NULL] member. *)
Theorem recordStart_starts_or_restarts :
  forall (ops : LG_AudioDevOps) (channels sampleRate : Z) (w : AudioState),
    audioDev w = Some ops ->
    if rec_started (record w)
       && (channels =? lastChannels w) && (sampleRate =? lastSampleRate w)
    then audio_recordStart channels sampleRate w = Ok tt w
    else if negb (ops_record_start ops)
            || (negb (rec_volumeChannels (record w) =? 0)
                && negb (ops_record_volume ops))
    then audio_recordStart channels sampleRate w = NullDeref
    else
      exists w',
        audio_recordStart channels sampleRate w = Ok tt w'
        /\ rec_started (record w') = true
        /\ rec_stride (record w') = mul32 channels 2
        /\ lastChannels w' = channels
        /\ lastSampleRate w' = sampleRate
        /\ playback w' = playback w
        /\ calls w' = recordStartCalls ops w channels sampleRate ++ calls w
        /\ forall frames,
             exists w'',
               recordPushFrames frames w' = Ok tt w''
               /\ calls w''
                  = EvWriteAudio (mul32 frames (mul32 channels 2)) :: calls w'.
Proof.
  intros ops channels sampleRate w Hdev.
  destruct w as [dev p [started rvc rv rm rstride rtime] lc ls cs].
  cbn in Hdev. subst dev. destruct ops as [o1 o2 o3 o4 rstart rvolume rmute].
  cbn [audioDev record rec_started rec_volumeChannels lastChannels
       lastSampleRate ops_record_start ops_record_volume].
  assert (Hnull : forall w0 : AudioState,
    wp (audio_recordStart channels sampleRate) (fun _ _ => False) w0 ->
    audio_recordStart channels sampleRate w0 = NullDeref).
  { intros w0. apply through_NULL.
    unfold audio_recordStart, recordConfigure. fuel_tac. }
  assert (Hsame : (channels =? lc) && (sampleRate =? ls)
                  = negb (negb (channels =? lc) || negb (sampleRate =? ls)))
    by (destruct (channels =? lc), (sampleRate =? ls); reflexivity).
  rewrite <- andb_assoc, Hsame. clear Hsame.
  destruct (negb (channels =? lc) || negb (sampleRate =? ls)) eqn:Hfmt.
  all: destruct (rvc =? 0) eqn:Evc; apply (f_equal negb) in Evc;
    cbn [negb] in Evc.
  all: destruct started, rstart, rvolume; cbn [andb orb negb].
  all: lazymatch goal with
       | |- _ = NullDeref =>
           apply Hnull; unfold audio_recordStart, recordConfigure; run_tac
       | |- _ = Ok _ _ =>
           unfold audio_recordStart; cbv [bind get gets];
           cbn [audioDev isSome negb record rec_started lastChannels
                lastSampleRate];
           rewrite Hfmt; reflexivity
       | |- _ => clear Hnull; apply yields_unit;
           unfold audio_recordStart, recordConfigure;
           run_tac; unfold recordStartCalls; cbn;
           repeat match goal with H : _ = true |- _ => rewrite H
                             | H : _ = false |- _ => rewrite H end;
           repeat split; try reflexivity;
           intros frames; eexists; split; reflexivity
       end.
Qed.

(** The first start of the record stream of a fresh backend. *)
Lemma recordStart_starts_or_restarts_witness :
  exists w',
    audio_recordStart 2 48000 (exec (audio_init (Some demoOps)) initialAudio)
    = Ok tt w'
    /\ rec_started (record w') = true
    /\ rec_stride (record w') = 4
    /\ calls w' = [EvRecordMute false; EvRecordStart 2 48000]
    /\ forall frames,
         exists w'',
           recordPushFrames frames w' = Ok tt w''
           /\ calls w'' = EvWriteAudio (mul32 frames 4) :: calls w'.
Proof.
  pose proof (recordStart_starts_or_restarts demoOps 2 48000
                (exec (audio_init (Some demoOps)) initialAudio) eq_refl) as H.
  cbn in H. destruct H as (w' & E & H1 & H2 & _ & _ & _ & H6 & H7).
  exists w'. repeat split; assumption.
Defined.

(** A backend without a record stream. *)
Definition playbackOnlyOps : LG_AudioDevOps :=
  {| ops_playback_start := true; ops_playback_volume := true;
     ops_playback_mute := true; ops_playback_latency := true;
     ops_record_start := false; ops_record_volume := false;
     ops_record_mute := false |}.

(** On that backend [audio_supportsRecord] answers [false], and
    [audio_recordStart] calls through the [NULL] member [record.start]. *)
Example recordStart_without_record_stream :
  exists w,
    session [CallInit (Some playbackOnlyOps)] initialAudio = Some w
    /\ audio_supportsRecord w = Ok false w
    /\ audio_recordStart 2 48000 w = NullDeref.
Proof.
  eexists. split; [vm_compute; reflexivity|].
  split; vm_compute; reflexivity.
Qed.

(** ** A resampler error *)

Lemma driver_failed env frames channels framesOutSize ratio :
  forall fuel n consumed xs c,
    driver fuel env frames channels framesOutSize ratio n consumed
    = Some (xs, inl c) ->
    exists done result,
      xs = done ++ [(driverRequest frames channels framesOutSize ratio c, result)]
      /\ src_error result <> 0.
Proof.
  induction fuel as [|fuel IH]; intros n consumed xs c; cbn [driver].
  - destruct (consumed <? frames); discriminate.
  - destruct (consumed <? frames); [|discriminate].
    destruct (negb _) eqn:Herr.
    + intros H. injection H as <- <-.
      exists [], (env_src_process env n
                    (driverRequest frames channels framesOutSize ratio consumed)).
      split; [reflexivity|]. apply negb_true_iff, Z.eqb_neq in Herr. exact Herr.
    + destruct (driver fuel _ _ _ _ _ _ _) as [[xs' r']|] eqn:Hrec; [|discriminate].
      intros H. injection H as <- ->.
      destruct (IH _ _ _ _ Hrec) as (done & result & -> & Hres).
      exists ((driverRequest frames channels framesOutSize ratio consumed,
               env_src_process env n
                 (driverRequest frames channels framesOutSize ratio consumed))
              :: done), result.
      split; [reflexivity | exact Hres].
Qed.

(** What the start gate and the latency report would change. *)
Definition gateAndLatency (w : AudioState)
    : StreamState * nat * option (list float) :=
  (stateOf w, starts w, pb_timings (playback w)).

Lemma gateAndLatency_feed samples :
  preserves gateAndLatency (call (EvShortToFloat samples) ;; receiveTicks).
Proof. unfold receiveTicks. pres_tac. Qed.
Lemma gateAndLatency_spiceClock now frames pc init :
  preserves gateAndLatency (spiceClock now frames pc init).
Proof. unfold spiceClock. pres_tac. Qed.
Lemma gateAndLatency_measureOffset curTime curPosition offsetError :
  preserves gateAndLatency (measureOffset curTime curPosition offsetError).
Proof. unfold measureOffset. pres_tac. Qed.
Lemma gateAndLatency_resampleRatio offsetError :
  preserves gateAndLatency (resampleRatio offsetError).
Proof. unfold resampleRatio. pres_tac. Qed.
Lemma gateAndLatency_resampleLoop fuel env frames ratio n consumed :
  preserves gateAndLatency (resampleLoop fuel env frames ratio n consumed).
Proof.
  revert n consumed. induction fuel as [|fuel IH]; intros n consumed;
    cbn [resampleLoop]; pres_tac.
Qed.

Lemma gateAndLatency_resizeScratch env frames w :
  wp (resizeScratch env frames)
    (fun r w' => r = None -> gateAndLatency w' = gateAndLatency w) w.
Proof.
  destruct w as [dev [st vc v m ch sr stride dm buf dt tm g dd sd] r lc ls cs].
  unfold resizeScratch, playbackStop.
  destruct (env_malloc_framesIn env), (env_malloc_framesOut env).
  all: run_tac; intros; first [reflexivity | discriminate].
Qed.

Lemma channels_feed samples :
  preserves (fun w => pb_channels (playback w))
    (call (EvShortToFloat samples) ;; receiveTicks).
Proof. unfold receiveTicks. pres_tac. Qed.
Lemma channels_spiceClock now frames pc init :
  preserves (fun w => pb_channels (playback w)) (spiceClock now frames pc init).
Proof. unfold spiceClock. pres_tac. Qed.
Lemma channels_measureOffset curTime curPosition offsetError :
  preserves (fun w => pb_channels (playback w))
    (measureOffset curTime curPosition offsetError).
Proof. unfold measureOffset. pres_tac. Qed.
Lemma channels_resampleRatio offsetError :
  preserves (fun w => pb_channels (playback w)) (resampleRatio offsetError).
Proof. unfold resampleRatio. pres_tac. Qed.
Lemma channels_resizeScratch env frames w :
  wp (resizeScratch env frames)
    (fun r w' => r = None ->
                 pb_channels (playback w') = pb_channels (playback w)) w.
Proof.
  destruct w as [dev [st vc v m ch sr stride dm buf dt tm g dd sd] r lc ls cs].
  unfold resizeScratch, playbackStop.
  destruct (env_malloc_framesIn env), (env_malloc_framesOut env).
  all: run_tac; intros; first [reflexivity | discriminate].
Qed.

(** X19.  When [audio_playbackData] returns on a resampler error (line
    603), it returns at once: its last two calls are the failing
    [src_process], asked for the frames from [consumed] on, and the error
    message; the start gate is not looked at (the state is as on entry
    and the backend's [start] was not called) and no latency is
    reported. *)
Theorem resampler_error_abandons_period :
  forall (fuel : nat) (env : DataEnv) (size : Z) (w w' : AudioState)
         (consumed : Z),
    audio_playbackData fuel env size w = Ok (ExitResampleFailed consumed) w' ->
    stateOf w' = stateOf w
    /\ starts w' = starts w
    /\ pb_timings (playback w') = pb_timings (playback w)
    /\ exists request older,
         calls w' = EvDebugError :: EvSrcProcess request :: older
         /\ src_data_in request = mul32 consumed (pb_channels (playback w))
         /\ src_input_frames request = sub32 (dataFrames size w) consumed.
Proof.
  intros fuel env size w w' consumed Hrun.
  destruct (playbackData_inv _ _ _ _ _ _ Hrun) as [[[E | E] _] | [_ Hfin]];
    try discriminate E.
  destruct Hfin as [(_ & [E | E] & _) | (t & Ht & Hexit)]; try discriminate E.
  destruct Ht as (Hres & Hfeed & Hclk & Hoff & Hratio & Hloop).
  destruct (loopExit t) as [c|c] eqn:Hexit'.
  2:{ destruct Hexit as [E _]. discriminate E. }
  destruct Hexit as [E ->]. injection E as ->.
  assert (H1 : gateAndLatency (at_resized t) = gateAndLatency w
               /\ pb_channels (playback (at_resized t))
                  = pb_channels (playback w)).
  { destruct (negb _).
    - split; [exact (gateAndLatency_resizeScratch _ _ _ _ _ Hres eq_refl)
             | exact (channels_resizeScratch _ _ _ _ _ Hres eq_refl)].
    - rewrite Hres. split; reflexivity. }
  assert (H5 : gateAndLatency (at_controlled t) = gateAndLatency w
               /\ pb_channels (playback (at_controlled t))
                  = pb_channels (playback w)).
  { destruct H1 as [H1 H1']. split.
    - rewrite (gateAndLatency_resampleRatio _ _ _ _ Hratio).
      rewrite (gateAndLatency_measureOffset _ _ _ _ _ _ Hoff).
      rewrite (gateAndLatency_spiceClock _ _ _ _ _ _ _ Hclk).
      rewrite (gateAndLatency_feed _ _ _ _ Hfeed). exact H1.
    - rewrite (channels_resampleRatio _ _ _ _ Hratio).
      rewrite (channels_measureOffset _ _ _ _ _ _ Hoff).
      rewrite (channels_spiceClock _ _ _ _ _ _ _ Hclk).
      rewrite (channels_feed _ _ _ _ Hfeed). exact H1'. }
  pose proof (gateAndLatency_resampleLoop _ _ _ _ _ _ _ _ _ Hloop) as H6.
  unfold same in H6. rewrite (proj1 H5) in H6.
  unfold gateAndLatency in H6. injection H6 as Hst Hstarts Htm.
  split; [exact Hst|]. split; [exact Hstarts|]. split; [exact Htm|].
  destruct (resampleLoop_driver_inv _ _ _ _ _ _ _ _ _ Hloop) as (xs & Hd & Hw').
  destruct (driver_failed _ _ _ _ _ _ _ _ _ _ Hd) as (done & result & -> & Herr).
  rewrite fold_left_app in Hw'. cbn [fold_left] in Hw'.
  unfold afterExchange in Hw'.
  apply Z.eqb_neq in Herr. rewrite Herr in Hw'. cbn [negb] in Hw'.
  eexists _, _. split; [rewrite Hw'; reflexivity|].
  cbn. rewrite (proj2 H5). split; reflexivity.
Qed.

(** A resampler that takes 480 frames and then fails. *)
Definition failingSecond (n : nat) (d : SRC_DATA) : SRC_RESULT :=
  match n with
  | O => {| src_error := 0; src_input_frames_used := 480;
            src_output_frames_gen := 480 |}
  | S _ => {| src_error := 1; src_input_frames_used := 0;
              src_output_frames_gen := 0 |}
  end.

Definition failingEnv (now : Z) : DataEnv :=
  {| env_now := now; env_malloc_framesIn := true;
     env_malloc_framesOut := true; env_src_process := failingSecond;
     env_latency := 0 |}.

Lemma resampler_error_abandons_period_witness :
  let w' := exec (audio_playbackData 4 (failingEnv 1100000000) 3840) w_running in
  stateOf w' = stateOf w_running
  /\ starts w' = starts w_running
  /\ pb_timings (playback w') = pb_timings (playback w_running)
  /\ exists request older,
       calls w' = EvDebugError :: EvSrcProcess request :: older
       /\ src_data_in request = mul32 480 (pb_channels (playback w_running))
       /\ src_input_frames request = sub32 (dataFrames 3840 w_running) 480.
Proof.
  apply (resampler_error_abandons_period 4 (failingEnv 1100000000) 3840
           w_running).
  vm_compute. reflexivity.
Defined.

(** ** A stream that is not active takes no audio *)

Definition restarts (c : Call) : bool :=
  match c with CallPlaybackStart true _ _ _ => true | _ => false end.

(** The calls by which audio data is taken, resampled and queued, and
    the start of the device. *)
Definition isDataEvent (e : Event) : bool :=
  match e with
  | EvShortToFloat _ | EvSrcProcess _ | EvBufferAppend _ _ | EvPlaybackStart => true
  | _ => false
  end.

Definition dataCalls (w : AudioState) : list Event :=
  filter isDataEvent (calls w).

Lemma dataCalls_playbackStop : preserves dataCalls playbackStop.
Proof. unfold playbackStop. pres_tac. Qed.
#[export] Hint Resolve dataCalls_playbackStop : pres.

Lemma step_silent c w w' :
  STREAM_ACTIVE (stateOf w) = false ->
  restarts c = false ->
  step c w = Ok tt w' ->
  STREAM_ACTIVE (stateOf w') = false /\ dataCalls w' = dataCalls w.
Proof.
  intros Hact Hc Hstep. split.
  - destruct (step_transition c w w' Hstep) as [-> | H]; [exact Hact|].
    destruct (stateOf w') eqn:E'; try reflexivity.
    + destruct H as (mp & ch' & sr' & ->). discriminate Hc.
    + destruct H as [H _]. rewrite H in Hact. discriminate Hact.
  - revert Hstep.
    assert (Hview : forall m : M unit,
              preserves dataCalls m -> m w = Ok tt w' ->
              dataCalls w' = dataCalls w).
    { intros m Hm Em. exact (Hm w tt w' Em). }
    destruct c; cbn [step].
    + apply Hview. unfold audio_init. pres_tac.
    + apply Hview. unfold audio_free, audio_recordStop. pres_tac.
    + apply Hview. unfold audio_playbackStart. pres_tac.
    + apply Hview. unfold audio_playbackStop. pres_tac.
    + apply Hview. unfold audio_playbackVolume. pres_tac.
    + apply Hview. unfold audio_playbackMute. pres_tac.
    + intros E. apply bind_Ok_inv in E. destruct E as (e & w1 & E1 & E2).
      injection E2 as <-.
      destruct (playbackData_inv _ _ _ _ _ _ E1) as [[_ ->] | [Hact' _]];
        [reflexivity|]. rewrite Hact in Hact'. discriminate Hact'.
    + apply Hview.
      unfold playbackPullFrames, pullBody, deviceClock, postTick, drainCheck.
      pres_tac.
    + apply Hview. unfold audio_recordStart, recordConfigure. pres_tac.
    + apply Hview. unfold audio_recordStop. pres_tac.
    + apply Hview. unfold audio_recordVolume. pres_tac.
    + apply Hview. unfold audio_recordMute. pres_tac.
    + apply Hview. unfold recordPushFrames. pres_tac.
Qed.

(** X20.  Once the stream is not active (stopped, or draining after
    [audio_playbackStop]), no sequence of calls without a successful
    [audio_playbackStart] makes it active again, converts, resamples or
    queues any audio data, or starts the device. *)
Theorem inactive_stream_takes_no_audio :
  forall (cs : list Call) (w w' : AudioState),
    STREAM_ACTIVE (stateOf w) = false ->
    forallb (fun c => negb (restarts c)) cs = true ->
    session cs w = Some w' ->
    STREAM_ACTIVE (stateOf w') = false
    /\ filter isDataEvent (calls w') = filter isDataEvent (calls w).
Proof.
  induction cs as [|c cs IH]; intros w w' Hact Hcs; cbn [session].
  - intros E. injection E as <-. split; [exact Hact | reflexivity].
  - cbn [forallb] in Hcs. apply andb_true_iff in Hcs. destruct Hcs as [Hc Hcs].
    apply negb_true_iff in Hc.
    destruct (step c w) as [[] w1| |] eqn:E; try discriminate.
    intros Hs. destruct (step_silent c w w1 Hact Hc E) as [Hact1 Hd1].
    destruct (IH w1 w' Hact1 Hcs Hs) as [Hact' Hd'].
    split; [exact Hact'|]. unfold dataCalls in Hd1. rewrite Hd', Hd1. reflexivity.
Qed.

(** The draining stream of [w_draining] is sent data, pulled from and
    has its volume set. *)
Lemma inactive_stream_takes_no_audio_witness :
  exists w',
    session [CallPlaybackData 4 (demoEnv 1120000000) 3840;
             CallPullFrames 1123000000 1024;
             CallPlaybackVolume 2 [100; 200];
             CallPlaybackData 4 (demoEnv 1140000000) 3840] w_draining
    = Some w'
    /\ STREAM_ACTIVE (stateOf w') = false
    /\ filter isDataEvent (calls w') = filter isDataEvent (calls w_draining).
Proof.
  eexists. split; [vm_compute; reflexivity|].
  apply (inactive_stream_takes_no_audio
           [CallPlaybackData 4 (demoEnv 1120000000) 3840;
            CallPullFrames 1123000000 1024;
            CallPlaybackVolume 2 [100; 200];
            CallPlaybackData 4 (demoEnv 1140000000) 3840] w_draining).
  - reflexivity.
  - reflexivity.
  - vm_compute. reflexivity.
Defined.

(** ** The start gate, both ways *)

(** X21.  A call of [audio_playbackData] that finds the stream in SETUP
    and runs to its end decides the start there and then: if the source
    write position has reached
    [2 * periodFrames + 2 * deviceMaxPeriodFrames] the backend's [start]
    is called once and the stream is in RUN, and if it has not, the
    stream stays in SETUP and [start] is not called. *)
Theorem start_gate_decides_each_period :
  forall (fuel : nat) (env : DataEnv) (size : Z) (w w' : AudioState)
         (consumed : Z),
    audio_playbackData fuel env size w = Ok (ExitEnd consumed) w' ->
    stateOf w = STREAM_STATE_SETUP ->
    if startFrames w' <=? sd_nextPosition (spiceDataOf w')
    then stateOf w' = STREAM_STATE_RUN /\ starts w' = S (starts w)
    else stateOf w' = STREAM_STATE_SETUP /\ starts w' = starts w.
Proof.
  intros fuel env size w w' consumed Hrun Hsetup.
  destruct (playbackData_inv _ _ _ _ _ _ Hrun) as [[[E | E] _] | [_ Hfin]];
    try discriminate E.
  destruct Hfin as [(_ & [E | E] & _) | (t & Ht & Hexit)]; try discriminate E.
  destruct Ht as (Hres & Hfeed & Hclk & Hoff & Hratio & Hloop).
  destruct (loopExit t) as [c|c] eqn:Hexit'.
  { destruct Hexit as [E _]. discriminate E. }
  destruct Hexit as (_ & w7 & Hgate & Hpub).
  assert (H1 : gateAndLatency (at_resized t) = gateAndLatency w).
  { destruct (negb _).
    - exact (gateAndLatency_resizeScratch _ _ _ _ _ Hres eq_refl).
    - rewrite Hres. reflexivity. }
  assert (H6 : gateAndLatency (at_resampled t) = gateAndLatency w).
  { rewrite (gateAndLatency_resampleLoop _ _ _ _ _ _ _ _ _ Hloop).
    rewrite (gateAndLatency_resampleRatio _ _ _ _ Hratio).
    rewrite (gateAndLatency_measureOffset _ _ _ _ _ _ Hoff).
    rewrite (gateAndLatency_spiceClock _ _ _ _ _ _ _ Hclk).
    rewrite (gateAndLatency_feed _ _ _ _ Hfeed). exact H1. }
  unfold gateAndLatency in H6. injection H6 as Hst6 Hstarts6 _.
  pose proof (publishLatency_gateView _ _ _ _ _ Hpub) as Hview.
  unfold same, gateView in Hview. injection Hview as Hs Hst Hsf Hnp.
  rewrite Hsf, Hnp, Hst, Hs.
  destruct (startGate_cases _ _ Hgate) as [[-> Hno] | (_ & Hle & Hview7)].
  - destruct (startFrames (at_resampled t)
              <=? sd_nextPosition (spiceDataOf (at_resampled t))) eqn:Hle.
    + exfalso. apply Hno. split; [congruence | apply Z.leb_le, Hle].
    + split; congruence.
  - unfold gateView in Hview7. injection Hview7 as Hs7 Hst7 Hsf7 Hnp7.
    rewrite Hsf7, Hnp7, Hst7, Hs7.
    apply Z.leb_le in Hle. rewrite Hle. split; congruence.
Qed.

(** The fourth period of the session leaves the stream in SETUP (3840
    frames written, 3968 needed), the fifth starts the device. *)
Lemma start_gate_decides_each_period_witness :
  (stateOf w_primed = STREAM_STATE_SETUP /\ starts w_primed = starts w_setup)
  /\ (stateOf w_started = STREAM_STATE_RUN
      /\ starts w_started = S (starts w_primed)).
Proof.
  split.
  - pose proof (start_gate_decides_each_period 4 (demoEnv 1060000000) 3840
                  (exec (audio_playbackData 4 (demoEnv 1040000000) 3840)
                     (exec (audio_playbackData 4 (demoEnv 1020000000) 3840)
                        (exec (audio_playbackData 4 (demoEnv 1000000000) 3840)
                           w_setup)))
                  w_primed 960) as H.
    cbv beta in H. destruct H as [H1 H2].
    + vm_compute. reflexivity.
    + vm_compute. reflexivity.
    + split; [exact H1|]. rewrite H2. vm_compute. reflexivity.
  - exact (start_gate_decides_each_period 4 (demoEnv 1080000000) 3840
             w_primed w_started 960 eq_refl eq_refl).
Defined.

(** * The rate controller and the resampler loop of a serviced call *)

(** The requests that [src_process] has received, most recent first. *)
Definition requests (w : AudioState) : list SRC_DATA :=
  flat_map (fun e => match e with EvSrcProcess d => [d] | _ => [] end)
    (calls w).

Lemma requests_playbackStop : preserves requests playbackStop.
Proof. unfold playbackStop. pres_tac. Qed.
#[export] Hint Resolve requests_playbackStop : pres.
Lemma requests_resizeScratch env frames :
  preserves requests (resizeScratch env frames).
Proof. unfold resizeScratch. pres_tac. Qed.
Lemma requests_feed samples :
  preserves requests (call (EvShortToFloat samples) ;; receiveTicks).
Proof. unfold receiveTicks. pres_tac. Qed.
Lemma requests_spiceClock now frames pc init :
  preserves requests (spiceClock now frames pc init).
Proof. unfold spiceClock. pres_tac. Qed.
Lemma requests_measureOffset curTime curPosition offsetError :
  preserves requests (measureOffset curTime curPosition offsetError).
Proof. unfold measureOffset. pres_tac. Qed.
Lemma requests_resampleRatio offsetError :
  preserves requests (resampleRatio offsetError).
Proof. unfold resampleRatio. pres_tac. Qed.
Lemma requests_startGate : preserves requests startGate.
Proof. unfold startGate. pres_tac. Qed.
Lemma requests_publishLatency env off :
  preserves requests (publishLatency env off).
Proof. unfold publishLatency. pres_tac. Qed.

(** The requests of a conversation are logged in order. *)
Lemma requests_afterExchanges xs :
  forall w,
    requests (fold_left afterExchange xs w) = rev (map fst xs) ++ requests w.
Proof.
  induction xs as [|[request result] xs IH]; intros w; cbn [fold_left map rev].
  - reflexivity.
  - rewrite IH, <- app_assoc. f_equal.
    unfold afterExchange. destruct (negb _); reflexivity.
Qed.

Lemma buffer_startGate : preserves (fun w => pb_buffer (playback w)) startGate.
Proof. unfold startGate. pres_tac. Qed.
Lemma buffer_publishLatency env off :
  preserves (fun w => pb_buffer (playback w)) (publishLatency env off).
Proof. unfold publishLatency. pres_tac. Qed.


(** Whether the call stops at the resize of its scratch buffers: the
    period size has changed (line 409) and one of the two [malloc]s of
    lines 420 and 430 fails. *)
Definition resizeFails (env : DataEnv) (size : Z) (w : AudioState) : bool :=
  negb (dataFrames size w =? sd_periodFrames (spiceDataOf w))
  && negb (env_malloc_framesIn env && env_malloc_framesOut env).

(** The exit the resize takes then. *)
Definition resizeExit (env : DataEnv) : DataExit :=
  if env_malloc_framesIn env then ExitMallocFramesOut else ExitMallocFramesIn.

Lemma resizeScratch_outcome env frames w :
  wp (resizeScratch env frames)
    (fun r w' =>
       if env_malloc_framesIn env && env_malloc_framesOut env
       then r = None
       else r = Some (resizeExit env) /\ stateOf w' = STREAM_STATE_STOP) w.
Proof.
  destruct w as [dev [st vc v m ch sr stride dm buf dt tm g dd sd] r lc ls cs].
  unfold resizeScratch, playbackStop, resizeExit.
  destruct (env_malloc_framesIn env), (env_malloc_framesOut env);
    cbn [andb].
  all: destruct st; run_tac; first [reflexivity | split; reflexivity].
Qed.

Lemma returns_det {A} (P : AudioState -> Prop) (m : M A)
    (Q : A -> AudioState -> Prop) w a w' :
  returns P m Q -> P w -> m w = Ok a w' -> Q a w'.
Proof.
  intros Hm HP E. destruct (Hm w HP) as (a0 & w0 & E0 & HQ).
  rewrite E in E0. injection E0 as <- <-. exact HQ.
Qed.

(** Along the trace of a call on a ready stream the rings stay. *)
Lemma traces_ready fuel env size w t :
  ready w -> traces fuel env size w t -> ready (at_controlled t).
Proof.
  intros Hr (Hres & Hfeed & Hclk & Hoff & Hratio & _).
  assert (H1 : ready (at_resized t)).
  { destruct (negb _).
    - exact (returns_det _ _ _ _ _ _ (returns_resizeScratch env _) Hr Hres
               eq_refl).
    - rewrite Hres. exact Hr. }
  apply bind_Ok_inv in Hfeed. destruct Hfeed as ([] & w1' & Hcall & Hticks).
  pose proof (returns_det _ _ _ _ _ _ (returns_call _) H1 Hcall) as H1'.
  pose proof (returns_det _ _ _ _ _ _ returns_receiveTicks H1' Hticks) as H2.
  pose proof (returns_det _ _ _ _ _ _ (returns_spiceClock _ _ _ _) H2 Hclk)
    as H3.
  pose proof (returns_det _ _ _ _ _ _ (returns_measureOffset _ _ _) H3 Hoff)
    as H4.
  exact (returns_det _ _ _ _ _ _ (returns_resampleRatio _) H4 Hratio).
Qed.

(** Along the trace the stream keeps its channel count. *)
Lemma traces_channels fuel env size w t :
  traces fuel env size w t ->
  pb_channels (playback (at_controlled t)) = pb_channels (playback w).
Proof.
  intros (Hres & Hfeed & Hclk & Hoff & Hratio & _).
  rewrite (channels_resampleRatio _ _ _ _ Hratio).
  rewrite (channels_measureOffset _ _ _ _ _ _ Hoff).
  rewrite (channels_spiceClock _ _ _ _ _ _ _ Hclk).
  rewrite (channels_feed _ _ _ _ Hfeed).
  destruct (negb _).
  - exact (channels_resizeScratch _ _ _ _ _ Hres eq_refl).
  - rewrite Hres. reflexivity.
Qed.

(** Along the trace no request is made before the resampler loop. *)
Lemma traces_requests fuel env size w t :
  traces fuel env size w t -> requests (at_controlled t) = requests w.
Proof.
  intros (Hres & Hfeed & Hclk & Hoff & Hratio & _).
  rewrite (requests_resampleRatio _ _ _ _ Hratio).
  rewrite (requests_measureOffset _ _ _ _ _ _ Hoff).
  rewrite (requests_spiceClock _ _ _ _ _ _ _ Hclk).
  rewrite (requests_feed _ _ _ _ Hfeed).
  destruct (negb _).
  - exact (requests_resizeScratch _ _ _ _ _ Hres).
  - rewrite Hres. reflexivity.
Qed.

(** How a trace ends in the state the call returns in. *)
Definition ends (env : DataEnv) (t : DataTrace) (e : DataExit)
    (w' : AudioState) : Prop :=
  match loopExit t with
  | inl consumed => e = ExitResampleFailed consumed /\ w' = at_resampled t
  | inr consumed =>
      e = ExitEnd consumed
      /\ exists w7,
           startGate (at_resampled t) = Ok tt w7
           /\ publishLatency env (actualOffset t) w7 = Ok tt w'
  end.

(** What the start gate and the latency report leave as the loop left it. *)
Lemma ends_keeps env t e w' :
  ends env t e w' ->
  spiceDataOf w' = spiceDataOf (at_resampled t)
  /\ pb_buffer (playback w') = pb_buffer (playback (at_resampled t))
  /\ requests w' = requests (at_resampled t).
Proof.
  unfold ends. destruct (loopExit t) as [consumed|consumed].
  - intros [_ ->]. auto.
  - intros (_ & w7 & Hgate & Hpub).
    pose proof (startGate_spice _ _ _ Hgate) as G1.
    pose proof (publishLatency_spice _ _ _ _ _ Hpub) as P1.
    pose proof (buffer_startGate _ _ _ Hgate) as G2.
    pose proof (buffer_publishLatency _ _ _ _ _ Hpub) as P2.
    pose proof (requests_startGate _ _ _ Hgate) as G3.
    pose proof (requests_publishLatency _ _ _ _ _ Hpub) as P3.
    unfold same in *. repeat split; congruence.
Qed.

(** A serviceable call returns: at the resize of the scratch buffers when
    that fails, and else along a trace. *)
Lemma playbackData_serviced fuel env size w :
  serviceable fuel env size w ->
  exists e w',
    audio_playbackData fuel env size w = Ok e w'
    /\ if resizeFails env size w
       then e = resizeExit env
            /\ resizeScratch env (dataFrames size w) w = Ok (Some e) w'
            /\ stateOf w' = STREAM_STATE_STOP
       else exists t, traces fuel env size w t /\ ends env t e w'.
Proof.
  intros Hs.
  destruct (playbackData_returns fuel env size w Hs) as (e & w' & Hrun & Hfin).
  exists e, w'. split; [exact Hrun|].
  unfold resizeFails.
  destruct Hfin as [(Hpc & _ & Hres) | (t & Ht & Hexit)].
  - apply Z.eqb_neq in Hpc. rewrite Hpc. cbn [negb andb].
    pose proof (resizeScratch_outcome _ _ _ _ _ Hres) as Hout.
    destruct (env_malloc_framesIn env && env_malloc_framesOut env);
      [discriminate Hout|].
    destruct Hout as [E Hstop]. injection E as ->. cbn [negb]. auto.
  - assert (Hok : negb (dataFrames size w =? sd_periodFrames (spiceDataOf w))
                  && negb (env_malloc_framesIn env && env_malloc_framesOut env)
                  = false).
    { destruct Ht as (Hres & _).
      destruct (negb (dataFrames size w =? sd_periodFrames (spiceDataOf w)));
        [|reflexivity].
      pose proof (resizeScratch_outcome _ _ _ _ _ Hres) as Hout.
      destruct (env_malloc_framesIn env && env_malloc_framesOut env);
        [reflexivity|].
      destruct Hout as [E _]. discriminate E. }
    rewrite Hok. exists t. split; [exact Ht | exact Hexit].
Qed.

(** ** C5: the ratio comes from the offset error of the previous call *)




(** The ratio handed to the resampler for that period comes from the
    offset error of -18.99 frames the call found, not from the -37.90
    frames it leaves behind. *)
Example ratio_in_w_tracking :
  exists w',
    audio_playbackData 960 (demoEnv 1120000000) 3840 w_tracking
      = Ok (ExitEnd 960) w'
    /\ sd_offsetError (spiceDataOf w_tracking) = (-18.99436040060689)%float
    /\ sd_offsetError (spiceDataOf w') = (-37.903067605021093)%float
    /\ hd EvDebugError (tl (tl (calls w')))
       = EvSrcProcess
           {| src_data_in := 0; src_input_frames := 960;
              src_output_frames := 1056; src_end_of_input := 0;
              src_ratio := 0.99999050281979962%float |}.
Proof. eexists. split; [vm_compute; reflexivity|]. vm_compute. auto. Qed.

(** ** C6: every source period is resampled to the end *)

(** C6 (as amended).  A serviceable call of [audio_playbackData] returns.
    When the period size has changed and a [malloc] of the resize fails,
    it returns right there: the stream is stopped and no [src_process]
    call is made for the period.  Otherwise the call goes through the
    blocks of the function in order ([traces], [ends]) and holds the
    conversation [driver] with the resampler, whose requests are the ones
    logged for this call: [consumed] is the sum of the
    [input_frames_used] reported, every block generated is appended to the
    coupling buffer as the clock tracker left it, and [nextPosition] moves
    on by the sum of [output_frames_gen] (modulo 2^64).  The call then
    returns at the end of the function with [consumed = frames], or from
    within the loop with [consumed < frames], and that only when the last
    reply of the resampler is an error. *)
Theorem resampling_completes_each_period :
  forall (fuel : nat) (env : DataEnv) (size : Z) (w : AudioState),
    serviceable fuel env size w ->
    let frames := dataFrames size w in
    exists e w',
      audio_playbackData fuel env size w = Ok e w'
      /\ if resizeFails env size w
         then
           e = resizeExit env
           /\ stateOf w' = STREAM_STATE_STOP
           /\ requests w' = requests w
         else
           exists t xs rb,
             traces fuel env size w t
             /\ ends env t e w'
             /\ pb_buffer (playback (at_controlled t)) = Some rb
             /\ driver fuel env frames (pb_channels (playback w))
                  (sd_framesOutSize (spiceDataOf w')) (ratio t) O 0
                = Some (xs, loopExit t)
             /\ requests w' = rev (map fst xs) ++ requests w
             /\ consumedAt (loopExit t) = framesUsed xs
             /\ pb_buffer (playback w')
                = Some (ringbuffer_append (framesAppended xs) rb)
             /\ i64 (sd_nextPosition (spiceDataOf w'))
                = i64 (sd_nextPosition (spiceDataOf (at_controlled t))
                       + framesGenerated xs)
             /\ match loopExit t with
                | inr consumed => e = ExitEnd consumed /\ consumed = frames
                | inl consumed =>
                    e = ExitResampleFailed consumed
                    /\ consumed < frames
                    /\ exists done result,
                         xs = done
                              ++ [(driverRequest frames
                                     (pb_channels (playback w))
                                     (sd_framesOutSize (spiceDataOf w'))
                                     (ratio t) consumed, result)]
                         /\ src_error result <> 0
                end.
Proof.
  intros fuel env size w Hs frames.
  destruct (playbackData_serviced fuel env size w Hs) as (e & w' & Hrun & Hfin).
  exists e, w'. split; [exact Hrun|].
  destruct (resizeFails env size w).
  - destruct Hfin as (He & Hres & Hstop). split; [exact He|].
    split; [exact Hstop|].
    exact (requests_resizeScratch _ _ _ _ _ Hres).
  - destruct Hfin as (t & Ht & Hends).
    destruct Hs as (Hr & _ & _ & _ & Hframes & Hc & _ & _).
    assert (Hfr : frames = size / mul32 (pb_channels (playback w)) 2).
    { unfold frames, dataFrames. apply i32_small. unfold INT32_MIN. lia. }
    assert (Hrange : 0 <= 0 <= frames) by lia.
    assert (Hmax : frames <= INT32_MAX) by lia.
    destruct (ends_keeps _ _ _ _ Hends) as (Hspice & Hbuf & Hreq).
    pose proof (traces_ready _ _ _ _ _ Hr Ht) as Hr5.
    pose proof (traces_channels _ _ _ _ _ Ht) as Hch.
    pose proof (traces_requests _ _ _ _ _ Ht) as Hreq5.
    destruct (traces_control _ _ _ _ _ Ht) as (_ & _ & _ & Hc6 & _).
    assert (Hfos : sd_framesOutSize (spiceDataOf w')
                   = sd_framesOutSize (spiceDataOf (at_controlled t))).
    { rewrite Hspice. exact (f_equal sd_framesOutSize Hc6). }
    pose proof Ht as (_ & _ & _ & _ & _ & Hloop). fold frames in Hloop.
    destruct (resampleLoop_driver_inv _ _ _ _ _ _ _ _ _ Hloop)
      as (xs & Hd & Hw6).
    rewrite Hch, <- Hfos in Hd.
    destruct Hr5 as (_ & Hrb & _).
    destruct (pb_buffer (playback (at_controlled t))) as [rb|] eqn:Erb;
      [clear Hrb | discriminate Hrb].
    destruct (afterExchanges_accounts xs _ rb Erb) as [Hb6 Hn6].
    rewrite <- Hw6 in Hb6, Hn6.
    destruct (driver_sound env _ _ _ _ Hc Hmax _ _ _ _ _ Hrange Hd)
      as [Hsum Hres].
    exists t, xs, rb. split; [exact Ht|]. split; [exact Hends|].
    split; [exact Erb|].
    split; [exact Hd|]. split.
    { rewrite Hreq, Hw6, requests_afterExchanges, Hreq5. reflexivity. }
    split; [rewrite Hsum; apply Z.add_0_l|].
    split; [rewrite Hbuf; exact Hb6|].
    split; [rewrite Hspice; exact Hn6|].
    unfold ends in Hends.
    destruct (loopExit t) as [consumed|consumed].
    + destruct Hends as [-> _]. split; [reflexivity|]. split; [exact Hres|].
      exact (driver_failed _ _ _ _ _ _ _ _ _ _ Hd).
    + destruct Hends as [-> _]. split; [reflexivity | exact Hres].
Qed.

(** A period of 960 frames in [w_running]. *)
Lemma resampling_completes_each_period_witness :
  exists e w',
    audio_playbackData 960 (demoEnv 1120000000) 3840 w_running = Ok e w'
    /\ exists t xs rb,
         traces 960 (demoEnv 1120000000) 3840 w_running t
         /\ ends (demoEnv 1120000000) t e w'
         /\ pb_buffer (playback (at_controlled t)) = Some rb
         /\ driver 960 (demoEnv 1120000000) 960
              (pb_channels (playback w_running))
              (sd_framesOutSize (spiceDataOf w')) (ratio t) O 0
            = Some (xs, loopExit t)
         /\ requests w' = rev (map fst xs) ++ requests w_running
         /\ consumedAt (loopExit t) = framesUsed xs
         /\ pb_buffer (playback w')
            = Some (ringbuffer_append (framesAppended xs) rb)
         /\ i64 (sd_nextPosition (spiceDataOf w'))
            = i64 (sd_nextPosition (spiceDataOf (at_controlled t))
                   + framesGenerated xs)
         /\ match loopExit t with
            | inr consumed => e = ExitEnd consumed /\ consumed = 960
            | inl consumed =>
                e = ExitResampleFailed consumed
                /\ consumed < 960
                /\ exists done result,
                     xs = done
                          ++ [(driverRequest 960
                                 (pb_channels (playback w_running))
                                 (sd_framesOutSize (spiceDataOf w'))
                                 (ratio t) consumed, result)]
                     /\ src_error result <> 0
            end.
Proof.
  apply (resampling_completes_each_period 960 (demoEnv 1120000000) 3840 w_running).
  split; [repeat split; reflexivity|].
  split; [reflexivity|].
  split; [reflexivity|].
  split; [discriminate|].
  split; [vm_compute; split; discriminate|].
  split; [apply passthrough_contract|].
  split; [apply passthrough_progress|].
  apply Nat.leb_le. reflexivity.
Defined.

(** That period, played: one request for all 960 frames, 960 frames
    appended, and the write position moved from 4800 to 5760. *)
Example resampling_in_w_running :
  exists w' rb rb',
    audio_playbackData 960 (demoEnv 1120000000) 3840 w_running
      = Ok (ExitEnd 960) w'
    /\ length (requests w') = S (length (requests w_running))
    /\ pb_buffer (playback w_running) = Some rb
    /\ pb_buffer (playback w') = Some rb'
    /\ rb' = ringbuffer_append 960 rb
    /\ sd_nextPosition (spiceDataOf w_running) = 4800
    /\ sd_nextPosition (spiceDataOf w') = 5760.
Proof.
  eexists _, _, _. split; [vm_compute; reflexivity|].
  vm_compute. repeat split; reflexivity.
Qed.

(** C6 as stated fails when a [malloc] of the resize fails: the stream is
    active and the period of 480 frames is accepted, the resampler never
    reports an error, and yet the call returns with nothing resampled: no
    [src_process] call is made and the stream is stopped. *)
Lemma resampling_malloc_counterexample :
  exists env w',
    audio_playbackData 480 env 1920 w_running = Ok ExitMallocFramesOut w'
    /\ isSome (audioDev w_running) = true
    /\ STREAM_ACTIVE (stateOf w_running) = true
    /\ dataFrames 1920 w_running = 480
    /\ dataFrames 1920 w_running <> sd_periodFrames (spiceDataOf w_running)
    /\ env_malloc_framesOut env = false
    /\ (forall n d, src_error (env_src_process env n d) = 0)
    /\ requests w' = requests w_running
    /\ stateOf w' = STREAM_STATE_STOP.
Proof.
  exists {| env_now := 1100000000; env_malloc_framesIn := true;
            env_malloc_framesOut := false; env_src_process := passthrough;
            env_latency := 0 |}.
  eexists. split; [vm_compute; reflexivity|].
  vm_compute. repeat split; try reflexivity. discriminate.
Qed.
